(** * plpgsql_check: detection of unclosed cursors, and a catalog lookup

    A shallow embedding of [src/cursors_leaks.c] (the cursor-leak detector
    hooked into the PL/pgSQL executor) and of
    [plpgsql_check_is_plpgsql_function] from [src/catalog.c], followed by
    the properties of the specification that were checked against them.

    Conventions of the embedding.
    - [Oid], [TransactionId] and [LocalTransactionId] are unsigned 32-bit
      host integers; only equality is ever used on them, so they are [N].
    - [stmtid] uses the sentinel [-1], so it is a [Z].  [use_count] is the
      host's activation counter of a routine and [rec_level] its copy; they
      are only copied and compared here and are [Z] as well.
    - [ncursors] and [cursors_size] count array cells and are [nat].
    - The array [cursors_traces] is a list holding every allocated cell,
      the cells past [ncursors] included; [None] is the C [NULL].
    - A [FunctionTrace *] is an address in a memory that holds every
      entry created so far: the hooks keep such pointers in
      [*plugin2_info] across calls, and a pointer taken before the table
      was replaced still designates the entry of the old table.
    - [ereport] at level [ERROR] or above does not return to its caller:
      every function that can report returns a [flow] next to its result,
      and the state it returns is the state at the moment control left. *)

From stdpp Require Import gmap strings list.
From Stdlib Require Import ZArith.

Local Open Scope Z_scope.

(** ** Host types and services *)

Definition Oid := N.
Definition TransactionId := N.
Definition LocalTransactionId := N.

Definition InvalidOid : Oid := 0%N.
Definition InvalidLocalTransactionId : LocalTransactionId := 0%N.

Definition OidIsValid (o : Oid) : bool := negb (o =? InvalidOid)%N.

(** Modelled from the spec: the error levels of the host ([elog.h] is not
    part of [src/]), "severity: enum{NOTICE,WARNING,ERROR,...}", with the
    numbers of the host header.  The detector only passes the configured
    level on to [ereport]. *)
Definition NOTICE : Z := 18.
Definition WARNING : Z := 19.
Definition ERROR : Z := 21.

(** [ERRCODE_INVALID_CURSOR_STATE], as its SQLSTATE. *)
Definition ERRCODE_INVALID_CURSOR_STATE : string := "24000".

(** What one call of [ereport] hands to the host. *)
Record ErrorData := {
  elevel : Z;
  sqlerrcode : string;
  message : string;
  detail : string
}.

#[global] Instance ErrorData_eq_dec : EqDecision ErrorData.
Proof. solve_decision. Defined.

(** Whether control comes back to the caller. *)
Inductive flow := Returns | Raises.

#[global] Instance flow_eq_dec : EqDecision flow.
Proof. solve_decision. Defined.

(** Modelled from the spec: the host's [ereport] is not part of [src/].
    "emits a diagnostic; non-fatal unless severity is configured to
    abort": the diagnostic is always emitted, and at [ERROR] or above the
    call leaves the calling function instead of returning. *)
Definition ereport (level : Z) (code msg dtl : string) : ErrorData * flow :=
  ({| elevel := level; sqlerrcode := code; message := msg; detail := dtl |},
   if ERROR <=? level then Raises else Returns).

(** ** Data of [cursors_leaks.c] *)

Definition MAX_NAMES_PER_STATEMENT : nat := 20.

Record CursorTrace := {
  stmtid : Z;
  rec_level : Z;
  curname : option string
}.

#[global] Instance CursorTrace_eq_dec : EqDecision CursorTrace.
Proof. solve_decision. Defined.

Record FunctionTraceKey := {
  key_fn_oid : Oid;
  key_fn_xmin : TransactionId
}.

#[global] Instance FunctionTraceKey_eq_dec : EqDecision FunctionTraceKey.
Proof. solve_decision. Defined.

#[global] Instance FunctionTraceKey_countable : Countable FunctionTraceKey.
Proof.
  refine (inj_countable' (fun k => (key_fn_oid k, key_fn_xmin k))
                         (fun p => {| key_fn_oid := p.1; key_fn_xmin := p.2 |}) _).
  intros []; reflexivity.
Defined.

Record FunctionTrace := {
  key : FunctionTraceKey;
  ncursors : nat;
  cursors_size : nat;
  cursors_traces : option (list CursorTrace)
}.

#[global] Instance FunctionTrace_eq_dec : EqDecision FunctionTrace.
Proof. solve_decision. Defined.

(** The three configuration variables. *)
Record GUC := {
  plpgsql_check_cursors_leaks : bool;
  plpgsql_check_cursors_leaks_strict : bool;
  plpgsql_check_cursors_leaks_level : Z
}.

(** The file's initial values. *)
Definition default_GUC : GUC :=
  {| plpgsql_check_cursors_leaks := true;
     plpgsql_check_cursors_leaks_strict := false;
     plpgsql_check_cursors_leaks_level := WARNING |}.

(** A [FunctionTrace *]: the address of an entry of a table made by
    [hash_create].  The tables are numbered in the order of their creation,
    and an entry is designated by the number of its table and the key it
    was entered under: the entries of a table do not move, two entries
    never share an address, and [cursors_leaks.c] frees neither an entry
    nor a table, so the entries of a table that has been replaced stay
    where a pointer taken earlier finds them.  (Their memory context, a
    child of [TopTransactionContext], is the host's to release; the
    embedding keeps what was last written there.) *)
Abbreviation Pointer := (nat * FunctionTraceKey)%type.

(** The static variables [traces_lxid] and [traces], and the entries that
    were created so far.  [traces] is the current table, by its number
    ([None] is the C [NULL]); its entries are those that [memory] holds at
    the pointers [(t, _)].  The table is allocated in [traces_mcxt], and a
    fresh context goes with every fresh table. *)
Record Statics := {
  traces_lxid : LocalTransactionId;
  traces : option nat;
  memory : gmap Pointer FunctionTrace
}.

Definition initial_statics : Statics :=
  {| traces_lxid := InvalidLocalTransactionId; traces := None;
     memory := ∅ |}.

(** What the hooks read from the host at one call: [MyProc->lxid], the
    portal table behind [SPI_cursor_find] (only whether the result is
    [NULL] is used), the text of [GetErrorContextStack], and the content
    of the cells that [palloc_array] and [repalloc_array] hand out, which
    the allocator leaves unspecified. *)
Record Host := {
  MyProc_lxid : LocalTransactionId;
  SPI_cursor_find : string -> bool;
  GetErrorContextStack : string;
  palloc_cell : CursorTrace
}.

(** The parts of the executor's structures that the hooks read. *)
Record PLpgSQL_function := {
  fn_oid : Oid;
  fn_xmin : TransactionId;
  use_count : Z
}.

Record PLpgSQL_var := {
  isnull : bool;
  value : string
}.

Record PLpgSQL_execstate := {
  func : PLpgSQL_function;
  datums : list PLpgSQL_var
}.

Inductive PLpgSQL_stmt_type :=
| PLPGSQL_STMT_BLOCK | PLPGSQL_STMT_ASSIGN | PLPGSQL_STMT_IF
| PLPGSQL_STMT_CASE | PLPGSQL_STMT_LOOP | PLPGSQL_STMT_WHILE
| PLPGSQL_STMT_FORI | PLPGSQL_STMT_FORS | PLPGSQL_STMT_FORC
| PLPGSQL_STMT_FOREACH_A | PLPGSQL_STMT_EXIT | PLPGSQL_STMT_RETURN
| PLPGSQL_STMT_RETURN_NEXT | PLPGSQL_STMT_RETURN_QUERY
| PLPGSQL_STMT_RAISE | PLPGSQL_STMT_ASSERT | PLPGSQL_STMT_EXECSQL
| PLPGSQL_STMT_DYNEXECUTE | PLPGSQL_STMT_DYNFORS | PLPGSQL_STMT_GETDIAG
| PLPGSQL_STMT_OPEN | PLPGSQL_STMT_FETCH | PLPGSQL_STMT_CLOSE
| PLPGSQL_STMT_PERFORM | PLPGSQL_STMT_CALL | PLPGSQL_STMT_COMMIT
| PLPGSQL_STMT_ROLLBACK.

#[global] Instance PLpgSQL_stmt_type_eq_dec : EqDecision PLpgSQL_stmt_type.
Proof. solve_decision. Defined.

(** A statement: the common header, and the [curvar] field of
    [PLpgSQL_stmt_open], read only when [cmd_type] is
    [PLPGSQL_STMT_OPEN]. *)
Record PLpgSQL_stmt := {
  cmd_type : PLpgSQL_stmt_type;
  stmt_stmtid : Z;
  curvar : nat
}.

(** ** [get_function_trace] *)

Definition key_of (f : PLpgSQL_function) : FunctionTraceKey :=
  {| key_fn_oid := fn_oid f; key_fn_xmin := fn_xmin f |}.

(** The entry as the [!found] branch initialises it. *)
Definition new_trace (f : PLpgSQL_function) : FunctionTrace :=
  {| key := key_of f; ncursors := 0; cursors_size := 0;
     cursors_traces := None |}.

(** [traces == NULL || traces_lxid != MyProc->lxid] *)
Definition traces_stale (h : Host) (s : Statics) : bool :=
  match traces s with
  | None => true
  | Some _ => negb (traces_lxid s =? MyProc_lxid h)%N
  end.

(** The number that the next [hash_create] gives its table. *)
Definition next_table (s : Statics) : nat :=
  match traces s with
  | None => 0%nat
  | Some t => S t
  end.

(** [hash_search (traces, &key, HASH_ENTER, &found)] on the table [t]:
    the address of the entry, and the entry found there. *)
Definition hash_search (s : Statics) (t : nat) (k : FunctionTraceKey)
    : Pointer * option FunctionTrace :=
  ((t, k), memory s !! (t, k)).

(** The result is the statics after the call, and the returned pointer.
    A table that [hash_create] has just made holds no entry, so that the
    search in it finds none. *)
Definition get_function_trace (h : Host) (f : PLpgSQL_function)
    (s : Statics) : Statics * Pointer :=
  let stale := traces_stale h s in
  let table := if stale then next_table s else default 0%nat (traces s) in
  let lxid := if stale then MyProc_lxid h else traces_lxid s in
  let '(ftrace, found) := hash_search s table (key_of f) in
  match (if stale then None else found) with
  | Some _ =>
      ({| traces_lxid := lxid; traces := Some table;
          memory := memory s |}, ftrace)
  | None =>
      ({| traces_lxid := lxid; traces := Some table;
          memory := <[ftrace := new_trace f]> (memory s) |}, ftrace)
  end.

(** ** The bodies of the two loops

    Both hooks walk the cells [0 .. ncursors-1] of one entry and update
    them in place.  A visit of one cell returns the cell as the visit
    leaves it, the diagnostics emitted, and whether control came back. *)

Record Visit := {
  v_cell : CursorTrace;
  v_log : list ErrorData;
  v_flow : flow
}.

(** [pfree(ct->curname); ct->stmtid = -1; ct->curname = NULL;] *)
Definition clear_slot (ct : CursorTrace) : CursorTrace :=
  {| stmtid := -1; rec_level := rec_level ct; curname := None |}.

(** The [ereport] call shared by both hooks. *)
Definition report_not_closed (h : Host) (g : GUC) : ErrorData * flow :=
  ereport (plpgsql_check_cursors_leaks_level g) ERRCODE_INVALID_CURSOR_STATE
          "cursor is not closed" (GetErrorContextStack h).

(** The clearing that follows a report is reached only when the report
    returns. *)
Definition report_then_clear (h : Host) (g : GUC) (ct : CursorTrace) : Visit :=
  let '(e, fl) := report_not_closed h g in
  match fl with
  | Returns => {| v_cell := clear_slot ct; v_log := [e]; v_flow := Returns |}
  | Raises => {| v_cell := ct; v_log := [e]; v_flow := Raises |}
  end.

Definition untouched (ct : CursorTrace) : Visit :=
  {| v_cell := ct; v_log := []; v_flow := Returns |}.

Definition cleared (ct : CursorTrace) : Visit :=
  {| v_cell := clear_slot ct; v_log := []; v_flow := Returns |}.

(** Body of the loop of [func_end]. *)
Definition func_end_body (h : Host) (g : GUC) (f : PLpgSQL_function)
    (ct : CursorTrace) : Visit :=
  match curname ct with
  | Some name =>
      if rec_level ct =? use_count f then
        if SPI_cursor_find h name then
          if plpgsql_check_cursors_leaks_strict g
          then report_then_clear h g ct
          else untouched ct
        else cleared ct
      else untouched ct
  | None => untouched ct
  end.

(** First [if] of the body of the loop of [stmt_end]; the [bool] tells
    whether [cursors_for_current_stmt] was incremented. *)
Definition stmt_end_body (h : Host) (g : GUC) (f : PLpgSQL_function)
    (sid : Z) (ct : CursorTrace) : Visit * bool :=
  match curname ct with
  | Some name =>
      if stmtid ct =? sid then
        if SPI_cursor_find h name then
          if (use_count f =? 1) && negb (plpgsql_check_cursors_leaks_strict g)
          then (report_then_clear h g ct, false)
          else (untouched ct, true)
        else (cleared ct, false)
      else (untouched ct, false)
  | None => (untouched ct, false)
  end.

(** ** The loops *)

Record Sweep := {
  sw_cells : list CursorTrace;
  sw_log : list ErrorData;
  sw_flow : flow
}.

(** [for (i = 0; i < ftrace->ncursors; i++)] of [func_end], over the
    cells still to visit. *)
Fixpoint func_end_loop (h : Host) (g : GUC) (f : PLpgSQL_function)
    (l : list CursorTrace) : Sweep :=
  match l with
  | [] => {| sw_cells := []; sw_log := []; sw_flow := Returns |}
  | ct :: rest =>
      let v := func_end_body h g f ct in
      match v_flow v with
      | Raises =>
          {| sw_cells := v_cell v :: rest; sw_log := v_log v;
             sw_flow := Raises |}
      | Returns =>
          let r := func_end_loop h g f rest in
          {| sw_cells := v_cell v :: sw_cells r;
             sw_log := v_log v ++ sw_log r;
             sw_flow := sw_flow r |}
      end
  end.

Record Scan := {
  sc_cells : list CursorTrace;
  sc_log : list ErrorData;
  sc_flow : flow;
  cursors_for_current_stmt : nat;
  free_slot : option nat
}.

(** [if (ct->stmtid == -1 && free_slot == -1) free_slot = i;]
    ([None] is the C [-1]). *)
Definition note_free_slot (i : nat) (ct : CursorTrace)
    (free : option nat) : option nat :=
  match free with
  | Some j => Some j
  | None => if stmtid ct =? -1 then Some i else None
  end.

(** [for (i = 0; i < ftrace->ncursors; i++)] of [stmt_end]: [i] is the
    index of the head of [l], [count] and [free] the two locals so far. *)
Fixpoint stmt_end_loop (h : Host) (g : GUC) (f : PLpgSQL_function)
    (sid : Z) (i : nat) (l : list CursorTrace) (count : nat)
    (free : option nat) : Scan :=
  match l with
  | [] =>
      {| sc_cells := []; sc_log := []; sc_flow := Returns;
         cursors_for_current_stmt := count; free_slot := free |}
  | ct :: rest =>
      let '(v, kept) := stmt_end_body h g f sid ct in
      match v_flow v with
      | Raises =>
          {| sc_cells := v_cell v :: rest; sc_log := v_log v;
             sc_flow := Raises;
             cursors_for_current_stmt := count; free_slot := free |}
      | Returns =>
          let r := stmt_end_loop h g f sid (S i) rest
                     (if kept then S count else count)
                     (note_free_slot i (v_cell v) free) in
          {| sc_cells := v_cell v :: sc_cells r;
             sc_log := v_log v ++ sc_log r;
             sc_flow := sc_flow r;
             cursors_for_current_stmt := cursors_for_current_stmt r;
             free_slot := free_slot r |}
      end
  end.

(** ** The hooks on one entry *)

Definition set_cursors_traces (ft : FunctionTrace)
    (a : option (list CursorTrace)) : FunctionTrace :=
  {| key := key ft; ncursors := ncursors ft;
     cursors_size := cursors_size ft; cursors_traces := a |}.

(** The allocated cells; none behind [NULL]. *)
Definition cells (ft : FunctionTrace) : list CursorTrace :=
  default [] (cursors_traces ft).

(** The cells the loops visit, and the ones they leave alone. *)
Definition live (ft : FunctionTrace) : list CursorTrace :=
  take (ncursors ft) (cells ft).

Definition spare (ft : FunctionTrace) : list CursorTrace :=
  drop (ncursors ft) (cells ft).

(** Put the visited cells back in front of the spare ones.  With
    [ncursors = 0] nothing was visited and the array pointer is not
    even read. *)
Definition put_live (ft : FunctionTrace) (l : list CursorTrace)
    : FunctionTrace :=
  match cursors_traces ft with
  | None => ft
  | Some _ => set_cursors_traces ft (Some (l ++ spare ft))
  end.

(** The loop of [func_end] on the entry [*ftrace]. *)
Definition func_end_trace (h : Host) (g : GUC) (f : PLpgSQL_function)
    (ft : FunctionTrace) : FunctionTrace * list ErrorData * flow :=
  let r := func_end_loop h g f (live ft) in
  (put_live ft (sw_cells r), sw_log r, sw_flow r).

(** The loop of [stmt_end] on the entry [*ftrace]. *)
Definition stmt_end_scan (h : Host) (g : GUC) (f : PLpgSQL_function)
    (sid : Z) (ft : FunctionTrace) : Scan :=
  stmt_end_loop h g f sid 0 (live ft) 0 None.

(** [palloc_array] / [repalloc_array]: ten more cells of unspecified
    content after the old ones. *)
Definition grow (h : Host) (ft : FunctionTrace) : FunctionTrace :=
  if (0 <? cursors_size ft)%nat then
    {| key := key ft; ncursors := ncursors ft;
       cursors_size := cursors_size ft + 10;
       cursors_traces :=
         Some (cells ft ++ replicate 10 (palloc_cell h)) |}
  else
    {| key := key ft; ncursors := ncursors ft;
       cursors_size := 10;
       cursors_traces := Some (replicate 10 (palloc_cell h)) |}.

(** The block guarded by
    [cursors_for_current_stmt < MAX_NAMES_PER_STATEMENT], given the
    value of [free_slot] and the name read from the cursor variable. *)
Definition record_cursor (h : Host) (f : PLpgSQL_function) (sid : Z)
    (name : string) (free : option nat) (ft : FunctionTrace)
    : FunctionTrace :=
  let ct := {| stmtid := sid; rec_level := use_count f;
               curname := Some name |} in
  match free with
  | Some j =>
      set_cursors_traces ft (Some (<[j := ct]> (cells ft)))
  | None =>
      let ft1 := if (ncursors ft =? cursors_size ft)%nat
                 then grow h ft else ft in
      {| key := key ft1; ncursors := S (ncursors ft1);
         cursors_size := cursors_size ft1;
         cursors_traces := Some (<[ncursors ft1 := ct]> (cells ft1)) |}
  end.

(** The [PLPGSQL_STMT_OPEN] branch of [stmt_end] on the entry
    [*ftrace], for a cursor variable holding [name]. *)
Definition stmt_end_open (h : Host) (g : GUC) (f : PLpgSQL_function)
    (sid : Z) (name : string) (ft : FunctionTrace)
    : FunctionTrace * list ErrorData * flow :=
  let sc := stmt_end_scan h g f sid ft in
  let ft1 := put_live ft (sc_cells sc) in
  match sc_flow sc with
  | Raises => (ft1, sc_log sc, Raises)
  | Returns =>
      if (cursors_for_current_stmt sc <? MAX_NAMES_PER_STATEMENT)%nat
      then (record_cursor h f sid name (free_slot sc) ft1,
            sc_log sc, Returns)
      else (ft1, sc_log sc, Returns)
  end.

(** ** The hooks

    [*plugin2_info] is a [FunctionTrace *] or [NULL], kept by the host
    for one activation.  A hook reads and writes the entry that the
    pointer designates, whether or not the table of that entry is still
    the current one.  The result of a hook is [None] where the C code has
    no defined behaviour: the pointer designates no entry, the cursor
    variable of the [OPEN] statement is not among the datums, or it is
    null (the [Assert]). *)

Record HookResult := {
  hr_statics : Statics;
  hr_plugin2_info : option Pointer;
  hr_log : list ErrorData;
  hr_flow : flow
}.

(** The entry at an address, and a write of the entry at an address. *)
Definition entry (s : Statics) (p : Pointer) : option FunctionTrace :=
  memory s !! p.

Definition set_entry (s : Statics) (p : Pointer)
    (ft : FunctionTrace) : Statics :=
  {| traces_lxid := traces_lxid s; traces := traces s;
     memory := <[p := ft]> (memory s) |}.

Definition func_setup (h : Host) (g : GUC) (f : PLpgSQL_function)
    (s : Statics) : Statics * option Pointer :=
  if plpgsql_check_cursors_leaks g then
    let '(s', ftrace) := get_function_trace h f s in
    (s', Some ftrace)
  else (s, None).

Definition func_end (h : Host) (g : GUC) (f : PLpgSQL_function)
    (s : Statics) (plugin2_info : option Pointer)
    : option HookResult :=
  match plugin2_info with
  | None =>
      Some {| hr_statics := s; hr_plugin2_info := plugin2_info;
              hr_log := []; hr_flow := Returns |}
  | Some ftrace =>
      if negb (traces_lxid s =? MyProc_lxid h)%N then
        Some {| hr_statics := s; hr_plugin2_info := plugin2_info;
                hr_log := []; hr_flow := Returns |}
      else
        ft ← entry s ftrace;
        let '(ft', log, fl) := func_end_trace h g f ft in
        Some {| hr_statics := set_entry s ftrace ft';
                hr_plugin2_info := plugin2_info;
                hr_log := log; hr_flow := fl |}
  end.

Definition stmt_end (h : Host) (g : GUC) (estate : PLpgSQL_execstate)
    (stmt : PLpgSQL_stmt) (s : Statics)
    (plugin2_info : option Pointer) : option HookResult :=
  match plugin2_info with
  | None =>
      Some {| hr_statics := s; hr_plugin2_info := plugin2_info;
              hr_log := []; hr_flow := Returns |}
  | Some ftrace0 =>
      let '(s1, ftrace) :=
        if negb (traces_lxid s =? MyProc_lxid h)%N
        then get_function_trace h (func estate) s
        else (s, ftrace0) in
      if decide (cmd_type stmt = PLPGSQL_STMT_OPEN) then
        ft ← entry s1 ftrace;
        let sc := stmt_end_scan h g (func estate) (stmt_stmtid stmt) ft in
        let ft1 := put_live ft (sc_cells sc) in
        match sc_flow sc with
        | Raises =>
            Some {| hr_statics := set_entry s1 ftrace ft1;
                    hr_plugin2_info := Some ftrace;
                    hr_log := sc_log sc; hr_flow := Raises |}
        | Returns =>
            var ← datums estate !! curvar stmt;
            if isnull var then None else
            Some {| hr_statics :=
                      set_entry s1 ftrace
                        (if (cursors_for_current_stmt sc
                               <? MAX_NAMES_PER_STATEMENT)%nat
                         then record_cursor h (func estate)
                                (stmt_stmtid stmt) (value var)
                                (free_slot sc) ft1
                         else ft1);
                    hr_plugin2_info := Some ftrace;
                    hr_log := sc_log sc; hr_flow := Returns |}
        end
      else
        Some {| hr_statics := s1; hr_plugin2_info := Some ftrace;
                hr_log := []; hr_flow := Returns |}
  end.

(** ** [plpgsql_check_is_plpgsql_function] ([catalog.c]) *)

Record Form_pg_proc := {
  prolang : Oid
}.

(** What the function asks of the host: the [PROCOID] system cache
    ([SearchSysCache1]; [None] is the invalid tuple), and
    [get_language_oid (langname, missing_ok)], which is not part of
    [src/] and is taken as it comes: its result is [None] when the call
    raises an error instead of returning. *)
Record SysCache := {
  PROCOID : Oid -> option Form_pg_proc;
  get_language_oid : string -> bool -> option Oid
}.

(** The static [plpgsql_check_PLpgSQLlanguageId] is threaded through;
    the first component of the result is [None] when an error is
    raised. *)
Definition plpgsql_check_is_plpgsql_function (c : SysCache)
    (plpgsql_check_PLpgSQLlanguageId : Oid) (foid : Oid) : option bool * Oid :=
  match PROCOID c foid with
  | None => (Some false, plpgsql_check_PLpgSQLlanguageId)
  | Some procStruct =>
      if negb (OidIsValid plpgsql_check_PLpgSQLlanguageId) then
        match get_language_oid c "plpgsql" false with
        | None => (None, plpgsql_check_PLpgSQLlanguageId)
        | Some langid => (Some (prolang procStruct =? langid)%N, langid)
        end
      else
        (Some (prolang procStruct =? plpgsql_check_PLpgSQLlanguageId)%N,
         plpgsql_check_PLpgSQLlanguageId)
  end.

(** ** Vocabulary of the properties *)

(** What a scan in which every visit returns computes: the number of
    cells whose visit incremented the counter, and the cells as the
    visits leave them. *)
Definition kept_count (h : Host) (g : GUC) (f : PLpgSQL_function) (sid : Z)
    (l : list CursorTrace) : nat :=
  length (filter (fun ct => (stmt_end_body h g f sid ct).2 = true) l).

Definition scanned (h : Host) (g : GUC) (f : PLpgSQL_function) (sid : Z)
    (l : list CursorTrace) : list CursorTrace :=
  (fun ct => v_cell (stmt_end_body h g f sid ct).1) <$> l.

(** Index of the first cell of [l] whose statement id is [-1]. *)
Definition first_free (l : list CursorTrace) : option nat :=
  fst <$> list_find (fun ct => stmtid ct = -1) l.

(** The cells the scan counts: same statement, cursor still there, and
    neither cleared nor reported (the report is for the first use level
    without strict mode). *)
Definition still_tracked (h : Host) (g : GUC) (f : PLpgSQL_function)
    (sid : Z) (ct : CursorTrace) : bool :=
  match curname ct with
  | Some name =>
      (stmtid ct =? sid) && SPI_cursor_find h name &&
      negb ((use_count f =? 1) && negb (plpgsql_check_cursors_leaks_strict g))
  | None => false
  end.

(** A cell with the statement id [sid] that names a cursor that still
    exists: what the scan of [stmt_end] finds open again. *)
Definition reopened (h : Host) (sid : Z) (ct : CursorTrace) : bool :=
  match curname ct with
  | Some name => (stmtid ct =? sid) && SPI_cursor_find h name
  | None => false
  end.

(** A cell recorded at the use level of [f] that names a cursor that
    still exists: what the loop of [func_end] finds left open. *)
Definition left_open (h : Host) (f : PLpgSQL_function)
    (ct : CursorTrace) : bool :=
  match curname ct with
  | Some name => (rec_level ct =? use_count f) && SPI_cursor_find h name
  | None => false
  end.

(** The array holds [cursors_size] cells, of which the first [ncursors]
    are in use. *)
Definition trace_wf (ft : FunctionTrace) : Prop :=
  length (cells ft) = cursors_size ft /\
  (ncursors ft <= cursors_size ft)%nat.

(** The entries of the current table, by their keys. *)
Definition current_table (s : Statics) (k : FunctionTraceKey)
    : option FunctionTrace :=
  t ← traces s; entry s (t, k).

(** The pointer [p] of an activation designates the entry [ft], and the
    marker [traces_lxid] is the transaction the host is in: the test that
    both [func_end] and [stmt_end] make before they use the pointer as it
    is. *)
Definition attached (h : Host) (s : Statics) (p : Pointer)
    (ft : FunctionTrace) : Prop :=
  traces_lxid s = MyProc_lxid h /\ entry s p = Some ft.

(** A cell is free for both tests at once, or for neither. *)
Definition slot_consistent (ct : CursorTrace) : Prop :=
  curname ct = None <-> stmtid ct = -1.

Definition trace_consistent (ft : FunctionTrace) : Prop :=
  forall i ct, (i < ncursors ft)%nat -> cells ft !! i = Some ct ->
    slot_consistent ct.

(** The statics that the three hooks can produce, starting from the
    initial values of the file, whatever the host, the configuration, the
    routines and the statements; the executor numbers statements from 1,
    so an [OPEN] statement never has a negative id. *)
Inductive reachable : Statics -> Prop :=
| reachable_initial :
    reachable initial_statics
| reachable_func_setup h g f s :
    reachable s ->
    reachable (func_setup h g f s).1
| reachable_stmt_end h g estate stmt s plugin2_info r :
    reachable s ->
    0 <= stmt_stmtid stmt ->
    stmt_end h g estate stmt s plugin2_info = Some r ->
    reachable (hr_statics r)
| reachable_func_end h g f s plugin2_info r :
    reachable s ->
    func_end h g f s plugin2_info = Some r ->
    reachable (hr_statics r).

(** Every entry created so far belongs to the current table or to an
    earlier one: the number of the next table is not in use. *)
Definition tables_bounded (s : Statics) : Prop :=
  forall t k ft, entry s (t, k) = Some ft ->
    exists t0, traces s = Some t0 /\ (t <= t0)%nat.

(** The invariant of an entry, and of the entries created so far. *)
Definition entry_inv (ft : FunctionTrace) : Prop :=
  trace_wf ft /\ trace_consistent ft.

Definition statics_inv (s : Statics) : Prop :=
  forall p ft, entry s p = Some ft -> entry_inv ft.

(** One [OPEN] statement of an activation coming to its end: the host as
    it is then, the id of the statement, and the name its cursor
    variable holds. *)
Record OpenEnd := {
  oe_host : Host;
  oe_stmtid : Z;
  oe_name : string
}.

(** The calls of [stmt_end] of one activation that are for [OPEN]
    statements, in execution order, on the entry of its routine (the
    calls for other statements leave the entry alone); a report that does
    not return ends the activation. *)
Fixpoint stmt_end_opens (g : GUC) (f : PLpgSQL_function)
    (calls : list OpenEnd) (ft : FunctionTrace)
    : FunctionTrace * list ErrorData * flow :=
  match calls with
  | [] => (ft, [], Returns)
  | c :: rest =>
      let '(ft1, log1, fl1) :=
        stmt_end_open (oe_host c) g f (oe_stmtid c) (oe_name c) ft in
      match fl1 with
      | Raises => (ft1, log1, Raises)
      | Returns =>
          let '(ft2, log2, fl2) := stmt_end_opens g f rest ft1 in
          (ft2, log1 ++ log2, fl2)
      end
  end.

(** No named cell in use belongs to one of the statements [sids]. *)
Definition tracks_none_of (sids : list Z) (ft : FunctionTrace) : Prop :=
  forall i ct, (i < ncursors ft)%nat -> cells ft !! i = Some ct ->
    is_Some (curname ct) -> stmtid ct ∉ sids.

(** The shape of the log of one call of a hook: only reports of unclosed
    cursors; the call raises exactly when such a report was made at
    [ERROR] or above, and then it was the only one. *)
Definition log_shape (h : Host) (g : GUC) (log : list ErrorData)
    (fl : flow) : Prop :=
  Forall (fun e => e = (report_not_closed h g).1) log /\
  (fl = Raises <->
     ERROR <= plpgsql_check_cursors_leaks_level g /\ log <> []) /\
  (ERROR <= plpgsql_check_cursors_leaks_level g -> (length log <= 1)%nat).

(** The number of cells in use that carry the statement id [sid]. *)
Definition tracked_for (sid : Z) (ft : FunctionTrace) : nat :=
  length (filter (fun ct => stmtid ct = sid) (live ft)).

(** One later call of the host into the plugin, for an activation that
    went through [func_setup]: the end of a statement, or the end of the
    routine. *)
Inductive HookCall :=
| Call_stmt_end (h : Host) (g : GUC) (estate : PLpgSQL_execstate)
                (stmt : PLpgSQL_stmt)
| Call_func_end (h : Host) (g : GUC) (f : PLpgSQL_function).

(** A sequence of such calls, each on the statics and the
    [plugin2_info] the one before left; a call that raises ends the
    sequence, and the logs add up. *)
Fixpoint hook_calls (calls : list HookCall) (s : Statics)
    (plugin2_info : option Pointer) : option HookResult :=
  match calls with
  | [] =>
      Some {| hr_statics := s; hr_plugin2_info := plugin2_info;
              hr_log := []; hr_flow := Returns |}
  | c :: rest =>
      r ← match c with
          | Call_stmt_end h g estate stmt =>
              stmt_end h g estate stmt s plugin2_info
          | Call_func_end h g f => func_end h g f s plugin2_info
          end;
      match hr_flow r with
      | Raises => Some r
      | Returns =>
          r' ← hook_calls rest (hr_statics r) (hr_plugin2_info r);
          Some {| hr_statics := hr_statics r';
                  hr_plugin2_info := hr_plugin2_info r';
                  hr_log := hr_log r ++ hr_log r';
                  hr_flow := hr_flow r' |}
      end
  end.

(** ** The checks of [catalog.c] made before a routine is analysed *)

Module Catalog.

(** How a function of [catalog.c] ends: it returns, it raises an error
    of its own with [ereport(ERROR, ...)] (SQLSTATE and message), or a
    host function it calls raises. *)
Inductive outcome (A : Type) :=
| Done (a : A)
| Raised (sqlstate : string) (msg : string)
| HostRaised.
Arguments Done {A} a.
Arguments Raised {A} sqlstate msg.
Arguments HostRaised {A}.

(** [enum PLpgSQL_trigtype] *)
Inductive PLpgSQL_trigtype :=
| PLPGSQL_DML_TRIGGER | PLPGSQL_EVENT_TRIGGER | PLPGSQL_NOT_TRIGGER.

(** Constants of the host catalog headers ([pg_type_d.h], [pg_type.h],
    [pg_proc.h]) and [errcodes.h], which are not part of [src/]. *)
Definition TRIGGEROID : Oid := 2279%N.
Definition EVENT_TRIGGEROID : Oid := 3838%N.
Definition RECORDOID : Oid := 2249%N.
Definition VOIDOID : Oid := 2278%N.
Definition TYPTYPE_PSEUDO : Ascii.ascii := Ascii.ascii_of_nat 112. (* 'p' *)
Definition PROKIND_PROCEDURE : Ascii.ascii := Ascii.ascii_of_nat 112. (* 'p' *)
Definition ERRCODE_FEATURE_NOT_SUPPORTED : string := "0A000".
Definition ERRCODE_INVALID_PARAMETER_VALUE : string := "22023".

(** The tuple of [pg_proc] behind [cinfo->proctuple]: the struct with
    [prolang], and the other fixed fields these functions read. *)
Record pg_proc_tuple := {
  form : Form_pg_proc;
  oid : Oid;
  pronamespace : Oid;
  prokind : Ascii.ascii;
  provolatile : Ascii.ascii;
  prorettype : Oid
}.

(** The fields of [plpgsql_check_info] that these functions use. *)
Record plpgsql_check_info := {
  proctuple : pg_proc_tuple;
  fn_oid : Oid;
  relid : Oid;
  trigtype : PLpgSQL_trigtype;
  is_procedure : bool;
  volatility : Ascii.ascii;
  rettype : Oid;
  show_profile : bool
}.

(** Host functions and macros, taken as they come: [get_typtype],
    [IsPolymorphicType], [format_type_be], [format_procedure],
    [get_extension_oid (name, missing_ok = true)] ([InvalidOid] when
    there is no such extension), [get_extension_schema], and the members
    of the list [SearchSysCacheList1 (PROCNAMEARGSNSP, name)] in
    order. *)
Record CatalogHost := {
  get_typtype : Oid -> Ascii.ascii;
  IsPolymorphicType : Oid -> bool;
  format_type_be : Oid -> string;
  format_procedure : Oid -> string;
  get_extension_oid : string -> Oid;
  get_extension_schema : Oid -> Oid;
  SearchSysCacheList1_PROCNAMEARGSNSP : string -> list pg_proc_tuple
}.

Definition plpgsql_check_get_function_info (h : CatalogHost)
    (cinfo : plpgsql_check_info) : outcome plpgsql_check_info :=
  let proc := proctuple cinfo in
  let functyptype := get_typtype h (prorettype proc) in
  let is_proc := bool_decide (prokind proc = PROKIND_PROCEDURE) in
  let finish (tt : PLpgSQL_trigtype) :=
    Done {| proctuple := proctuple cinfo; fn_oid := fn_oid cinfo;
            relid := relid cinfo; trigtype := tt;
            is_procedure := is_proc;
            volatility := provolatile proc;
            rettype := prorettype proc;
            show_profile := show_profile cinfo |} in
  if bool_decide (functyptype = TYPTYPE_PSEUDO) then
    if (prorettype proc =? TRIGGEROID)%N then finish PLPGSQL_DML_TRIGGER
    else if (prorettype proc =? EVENT_TRIGGEROID)%N
    then finish PLPGSQL_EVENT_TRIGGER
    else if negb (prorettype proc =? RECORDOID)%N &&
            negb (prorettype proc =? VOIDOID)%N &&
            negb (IsPolymorphicType h (prorettype proc))
    then Raised ERRCODE_FEATURE_NOT_SUPPORTED
           ("PL/pgSQL functions cannot return type "
              +:+ format_type_be h (prorettype proc))
    else finish PLPGSQL_NOT_TRIGGER
  else finish PLPGSQL_NOT_TRIGGER.

(** The static [plpgsql_check_PLpgSQLlanguageId] is threaded through,
    as in [plpgsql_check_is_plpgsql_function]. *)
Definition plpgsql_check_precheck_conditions (h : CatalogHost)
    (c : SysCache) (plpgsql_check_PLpgSQLlanguageId : Oid)
    (cinfo : plpgsql_check_info) : outcome unit * Oid :=
  let proc := proctuple cinfo in
  let funcname := format_procedure h (fn_oid cinfo) in
  let lang :=
    if negb (OidIsValid plpgsql_check_PLpgSQLlanguageId)
    then get_language_oid c "plpgsql" false
    else Some plpgsql_check_PLpgSQLlanguageId in
  match lang with
  | None => (HostRaised, plpgsql_check_PLpgSQLlanguageId)
  | Some langid =>
      if negb (prolang (form proc) =? langid)%N then
        (Raised ERRCODE_INVALID_PARAMETER_VALUE
                (funcname +:+ " is not a plpgsql function"), langid)
      else if negb (show_profile cinfo) then
        match trigtype cinfo with
        | PLPGSQL_DML_TRIGGER =>
            if negb (OidIsValid (relid cinfo))
            then (Raised ERRCODE_INVALID_PARAMETER_VALUE
                         "missing trigger relation", langid)
            else (Done tt, langid)
        | _ =>
            if OidIsValid (relid cinfo)
            then (Raised ERRCODE_INVALID_PARAMETER_VALUE
                         "function is not trigger", langid)
            else (Done tt, langid)
        end
      else (Done tt, langid)
  end.

(** The loop of [plpgsql_check_pragma_func_oid] over the members of the
    list: [continue] on another namespace, [break] at the first member
    of the namespace [schemaoid]; [result] is the local of that name. *)
Fixpoint pragma_func_scan (schemaoid : Oid) (members : list pg_proc_tuple)
    (result : Oid) : Oid :=
  match members with
  | [] => result
  | procform :: rest =>
      if negb (pronamespace procform =? schemaoid)%N
      then pragma_func_scan schemaoid rest result
      else oid procform
  end.

Definition plpgsql_check_pragma_func_oid (h : CatalogHost) : Oid :=
  let result := InvalidOid in
  let extoid := get_extension_oid h "plpgsql_check" in
  if OidIsValid extoid then
    let schemaoid := get_extension_schema h extoid in
    pragma_func_scan schemaoid
      (SearchSysCacheList1_PROCNAMEARGSNSP h "plpgsql_check_pragma") result
  else result.

End Catalog.

(** * Properties *)

(** ** Visits *)

Lemma report_not_closed_data h g :
  (report_not_closed h g).1 =
    {| elevel := plpgsql_check_cursors_leaks_level g;
       sqlerrcode := ERRCODE_INVALID_CURSOR_STATE;
       message := "cursor is not closed";
       detail := GetErrorContextStack h |}.
Proof. reflexivity. Qed.

Lemma report_then_clear_returns h g ct :
  plpgsql_check_cursors_leaks_level g < ERROR ->
  report_then_clear h g ct =
    {| v_cell := clear_slot ct; v_log := [(report_not_closed h g).1];
       v_flow := Returns |}.
Proof.
  intros Hlvl. unfold report_then_clear, report_not_closed, ereport.
  destruct (Z.leb_spec ERROR (plpgsql_check_cursors_leaks_level g)); [lia|].
  reflexivity.
Qed.

Lemma report_then_clear_raises h g ct :
  ERROR <= plpgsql_check_cursors_leaks_level g ->
  report_then_clear h g ct =
    {| v_cell := ct; v_log := [(report_not_closed h g).1];
       v_flow := Raises |}.
Proof.
  intros Hlvl. unfold report_then_clear, report_not_closed, ereport.
  destruct (Z.leb_spec ERROR (plpgsql_check_cursors_leaks_level g)); [|lia].
  reflexivity.
Qed.

Lemma report_then_clear_log h g ct :
  v_log (report_then_clear h g ct) = [(report_not_closed h g).1].
Proof.
  destruct (Z.lt_ge_cases (plpgsql_check_cursors_leaks_level g) ERROR).
  - by rewrite report_then_clear_returns.
  - by rewrite report_then_clear_raises.
Qed.

(** A visit either leaves the cell as it is, or clears it. *)
Lemma func_end_body_cell h g f ct :
  v_cell (func_end_body h g f ct) = ct \/
  v_cell (func_end_body h g f ct) = clear_slot ct.
Proof.
  unfold func_end_body, report_then_clear, untouched, cleared.
  destruct (report_not_closed h g) as [e []];
    repeat case_match; simpl; auto.
Qed.

Lemma stmt_end_body_cell h g f sid ct :
  v_cell (stmt_end_body h g f sid ct).1 = ct \/
  v_cell (stmt_end_body h g f sid ct).1 = clear_slot ct.
Proof.
  unfold stmt_end_body, report_then_clear, untouched, cleared.
  destruct (report_not_closed h g) as [e []];
    repeat case_match; simpl; auto.
Qed.

(** A visit that raises leaves the cell as it is. *)
Lemma func_end_body_raises h g f ct :
  v_flow (func_end_body h g f ct) = Raises ->
  v_cell (func_end_body h g f ct) = ct.
Proof.
  unfold func_end_body, report_then_clear, untouched, cleared.
  destruct (report_not_closed h g) as [e []];
    repeat case_match; simpl; auto; discriminate.
Qed.

Lemma stmt_end_body_raises h g f sid ct :
  v_flow (stmt_end_body h g f sid ct).1 = Raises ->
  v_cell (stmt_end_body h g f sid ct).1 = ct.
Proof.
  unfold stmt_end_body, report_then_clear, untouched, cleared.
  destruct (report_not_closed h g) as [e []];
    repeat case_match; simpl; auto; discriminate.
Qed.

(** Teardown looks only at named cells of its own level. *)
Lemma func_end_body_other_level h g f ct :
  rec_level ct <> use_count f -> func_end_body h g f ct = untouched ct.
Proof.
  intros Hne. unfold func_end_body.
  destruct (curname ct); [|done].
  by destruct (Z.eqb_spec (rec_level ct) (use_count f)).
Qed.

(** Without strict mode teardown never reports. *)
Lemma func_end_body_lenient h g f ct :
  plpgsql_check_cursors_leaks_strict g = false ->
  v_log (func_end_body h g f ct) = [] /\
  v_flow (func_end_body h g f ct) = Returns.
Proof.
  intros Hs. unfold func_end_body. rewrite Hs.
  repeat case_match; done.
Qed.

(** In strict mode, or in a nested activation, the scan of [stmt_end]
    never reports. *)
Lemma stmt_end_body_deferred h g f sid ct :
  (use_count f =? 1) && negb (plpgsql_check_cursors_leaks_strict g) = false ->
  v_log (stmt_end_body h g f sid ct).1 = [] /\
  v_flow (stmt_end_body h g f sid ct).1 = Returns.
Proof.
  intros Hs. unfold stmt_end_body. rewrite Hs.
  repeat case_match; done.
Qed.

(** Below [ERROR] every visit returns. *)
Lemma func_end_body_returns h g f ct :
  plpgsql_check_cursors_leaks_level g < ERROR ->
  v_flow (func_end_body h g f ct) = Returns.
Proof.
  intros Hlvl. unfold func_end_body.
  repeat case_match; try done. by rewrite report_then_clear_returns.
Qed.

Lemma stmt_end_body_returns h g f sid ct :
  plpgsql_check_cursors_leaks_level g < ERROR ->
  v_flow (stmt_end_body h g f sid ct).1 = Returns.
Proof.
  intros Hlvl. unfold stmt_end_body.
  repeat case_match; try done. by rewrite report_then_clear_returns.
Qed.

(** ** The loop of [func_end] *)

Lemma func_end_loop_length h g f l :
  length (sw_cells (func_end_loop h g f l)) = length l.
Proof.
  induction l as [|ct rest IH]; simpl; [done|].
  destruct (v_flow (func_end_body h g f ct)); simpl; by rewrite ?IH.
Qed.

(** Each cell is, after the loop, as it was or cleared. *)
Lemma func_end_loop_lookup h g f l i ct :
  l !! i = Some ct ->
  sw_cells (func_end_loop h g f l) !! i = Some ct \/
  sw_cells (func_end_loop h g f l) !! i = Some (clear_slot ct).
Proof.
  revert i. induction l as [|c rest IH]; intros i Hi; [done|].
  simpl. destruct i as [|i]; simpl in Hi.
  - injection Hi as ->.
    destruct (func_end_body_cell h g f ct) as [E|E];
      destruct (v_flow (func_end_body h g f ct)); simpl; rewrite E; auto.
  - destruct (v_flow (func_end_body h g f c)); simpl; auto.
Qed.

Lemma func_end_loop_lookup_other_level h g f l i ct :
  l !! i = Some ct -> rec_level ct <> use_count f ->
  sw_cells (func_end_loop h g f l) !! i = Some ct.
Proof.
  revert i. induction l as [|c rest IH]; intros i Hi Hne; [done|].
  simpl. destruct i as [|i]; simpl in Hi.
  - injection Hi as ->. rewrite (func_end_body_other_level h g f ct Hne).
    done.
  - destruct (v_flow (func_end_body h g f c)); simpl; auto.
Qed.

(** When no visit raises, the loop is the cell-wise map of its body and
    its log the concatenation of the logs of the visits, in order. *)
Lemma func_end_loop_returns h g f l :
  Forall (fun ct => v_flow (func_end_body h g f ct) = Returns) l ->
  func_end_loop h g f l =
    {| sw_cells := (fun ct => v_cell (func_end_body h g f ct)) <$> l;
       sw_log := flat_map (fun ct => v_log (func_end_body h g f ct)) l;
       sw_flow := Returns |}.
Proof.
  induction 1 as [|ct rest Hct _ IH]; simpl; [done|].
  by rewrite Hct, IH.
Qed.

(** The loop stops at the first visit that raises: what precedes it was
    visited, what follows was not. *)
Lemma func_end_loop_app h g f l1 l2 :
  func_end_loop h g f (l1 ++ l2) =
    let r1 := func_end_loop h g f l1 in
    match sw_flow r1 with
    | Raises =>
        {| sw_cells := sw_cells r1 ++ l2; sw_log := sw_log r1;
           sw_flow := Raises |}
    | Returns =>
        let r2 := func_end_loop h g f l2 in
        {| sw_cells := sw_cells r1 ++ sw_cells r2;
           sw_log := sw_log r1 ++ sw_log r2;
           sw_flow := sw_flow r2 |}
    end.
Proof.
  induction l1 as [|ct rest IH]; simpl.
  - by destruct (func_end_loop h g f l2).
  - destruct (v_flow (func_end_body h g f ct)); simpl; [|done].
    rewrite IH. simpl.
    destruct (sw_flow (func_end_loop h g f rest)); simpl;
      by rewrite <- ?(assoc_L (++)).
Qed.

Lemma func_end_loop_lenient h g f l :
  plpgsql_check_cursors_leaks_strict g = false ->
  sw_log (func_end_loop h g f l) = [] /\
  sw_flow (func_end_loop h g f l) = Returns.
Proof.
  intros Hs. induction l as [|ct rest [IHl IHf]]; simpl; [done|].
  destruct (func_end_body_lenient h g f ct Hs) as [-> ->]. simpl. auto.
Qed.

(** ** The loop of [stmt_end] *)

Lemma stmt_end_loop_length h g f sid i l count free :
  length (sc_cells (stmt_end_loop h g f sid i l count free)) = length l.
Proof.
  revert i count free.
  induction l as [|ct rest IH]; intros i count free; simpl; [done|].
  destruct (stmt_end_body h g f sid ct) as [v kept].
  destruct (v_flow v); simpl; by rewrite ?IH.
Qed.

Lemma stmt_end_loop_lookup h g f sid i l count free j ct :
  l !! j = Some ct ->
  sc_cells (stmt_end_loop h g f sid i l count free) !! j = Some ct \/
  sc_cells (stmt_end_loop h g f sid i l count free) !! j
    = Some (clear_slot ct).
Proof.
  revert i count free j.
  induction l as [|c rest IH]; intros i count free j Hj; [done|].
  simpl. destruct j as [|j]; simpl in Hj.
  - injection Hj as ->.
    pose proof (stmt_end_body_cell h g f sid ct) as E.
    destruct (stmt_end_body h g f sid ct) as [v kept]. simpl in E.
    destruct E as [E|E]; destruct (v_flow v); simpl; rewrite E; auto.
  - destruct (stmt_end_body h g f sid c) as [v kept].
    destruct (v_flow v); simpl; auto.
Qed.

Lemma first_free_cons ct l :
  first_free (ct :: l) =
    if stmtid ct =? -1 then Some 0%nat else S <$> first_free l.
Proof.
  unfold first_free. simpl.
  destruct (Z.eqb_spec (stmtid ct) (-1)) as [E|E].
  - by rewrite decide_True.
  - rewrite decide_False by done.
    destruct (list_find _ l) as [[j c]|]; done.
Qed.

Lemma stmt_end_loop_returns h g f sid i l count free :
  Forall (fun ct => v_flow (stmt_end_body h g f sid ct).1 = Returns) l ->
  stmt_end_loop h g f sid i l count free =
    {| sc_cells := scanned h g f sid l;
       sc_log := flat_map (fun ct => v_log (stmt_end_body h g f sid ct).1) l;
       sc_flow := Returns;
       cursors_for_current_stmt := (count + kept_count h g f sid l)%nat;
       free_slot :=
         match free with
         | Some j => Some j
         | None => (fun j => (i + j)%nat) <$> first_free (scanned h g f sid l)
         end |}.
Proof.
  intros Hall. revert i count free.
  induction Hall as [|ct rest Hct _ IH]; intros i count free; simpl.
  - f_equal; [unfold kept_count; simpl; lia | by destruct free].
  - unfold kept_count, scanned. simpl. fold (scanned h g f sid rest).
    rewrite first_free_cons.
    destruct (stmt_end_body h g f sid ct) as [v kept] eqn:Ev.
    simpl in Hct. rewrite Hct, IH. simpl. f_equal.
    + rewrite filter_cons. rewrite Ev. simpl. unfold kept_count.
      destruct kept.
      * rewrite decide_True by done. simpl. lia.
      * rewrite decide_False by done. lia.
    + destruct free as [j|]; [done|]. simpl.
      destruct (stmtid (v_cell v) =? -1); simpl.
      * f_equal. lia.
      * destruct (first_free (scanned h g f sid rest)); simpl;
          [f_equal; lia | done].
Qed.

Lemma stmt_end_body_kept h g f sid ct :
  (stmt_end_body h g f sid ct).2 = still_tracked h g f sid ct.
Proof.
  unfold stmt_end_body, still_tracked.
  destruct (curname ct); [|done].
  destruct (stmtid ct =? sid); [|done].
  destruct (SPI_cursor_find h s); [|done].
  by destruct ((use_count f =? 1) &&
               negb (plpgsql_check_cursors_leaks_strict g)).
Qed.

Lemma kept_count_still_tracked h g f sid l :
  kept_count h g f sid l = length (filter (still_tracked h g f sid) l).
Proof.
  unfold kept_count. induction l as [|ct rest IH]; [done|].
  rewrite !filter_cons, stmt_end_body_kept.
  destruct (still_tracked h g f sid ct); simpl; by rewrite IH.
Qed.

(** A kept cell is left as it is. *)
Lemma stmt_end_body_still_tracked h g f sid ct :
  still_tracked h g f sid ct = true ->
  (stmt_end_body h g f sid ct).1 = untouched ct.
Proof.
  unfold stmt_end_body, still_tracked.
  destruct (curname ct); [|done].
  destruct (stmtid ct =? sid); [|done].
  destruct (SPI_cursor_find h s); [|done].
  by destruct ((use_count f =? 1) &&
               negb (plpgsql_check_cursors_leaks_strict g)).
Qed.

(** A cell of another statement is left as it is. *)
Lemma stmt_end_body_other_stmt h g f sid ct :
  stmtid ct <> sid ->
  stmt_end_body h g f sid ct = (untouched ct, false).
Proof.
  intros Hne. unfold stmt_end_body.
  destruct (curname ct); [|done].
  by destruct (Z.eqb_spec (stmtid ct) sid).
Qed.

(** ** Entries *)

Lemma new_trace_wf f : trace_wf (new_trace f).
Proof. split; simpl; lia. Qed.

Lemma live_spare ft : live ft ++ spare ft = cells ft.
Proof. apply take_drop. Qed.

Lemma live_length ft :
  trace_wf ft -> length (live ft) = ncursors ft.
Proof. intros [H1 H2]. unfold live. rewrite length_take. lia. Qed.

Lemma live_lookup ft i :
  (i < ncursors ft)%nat -> live ft !! i = cells ft !! i.
Proof. intros Hi. unfold live. by rewrite lookup_take_lt. Qed.

Lemma live_lookup_Some ft i ct :
  live ft !! i = Some ct -> (i < ncursors ft)%nat /\ cells ft !! i = Some ct.
Proof.
  unfold live. intros H.
  destruct (decide (i < ncursors ft)%nat) as [Hi|Hi].
  - by rewrite lookup_take_lt in H.
  - rewrite lookup_take_ge in H by lia. done.
Qed.

Lemma put_live_cells ft l :
  length l = length (live ft) ->
  cells (put_live ft l) = l ++ spare ft.
Proof.
  unfold put_live, live, spare, cells.
  destruct (cursors_traces ft) as [a|] eqn:E; simpl; [done|].
  rewrite E, take_nil, drop_nil. simpl. intros Hl.
  apply nil_length_inv in Hl. by subst.
Qed.

Lemma put_live_ncursors ft l : ncursors (put_live ft l) = ncursors ft.
Proof. unfold put_live. by destruct (cursors_traces ft). Qed.

Lemma put_live_cursors_size ft l :
  cursors_size (put_live ft l) = cursors_size ft.
Proof. unfold put_live. by destruct (cursors_traces ft). Qed.

Lemma put_live_key ft l : key (put_live ft l) = key ft.
Proof. unfold put_live. by destruct (cursors_traces ft). Qed.

Lemma put_live_live ft l :
  length l = length (live ft) -> live (put_live ft l) = l.
Proof.
  intros Hl. unfold live at 1. rewrite put_live_ncursors, put_live_cells by done.
  unfold live, spare in *. rewrite length_take in Hl.
  destruct (decide (ncursors ft <= length (cells ft))%nat) as [Hn|Hn].
  - rewrite take_app_le by lia. apply take_ge. lia.
  - rewrite drop_ge by lia. rewrite app_nil_r. apply take_ge. lia.
Qed.

(** ** The table of entries *)

Lemma traces_stale_true h s :
  traces_stale h s = true <->
  traces s = None \/ traces_lxid s <> MyProc_lxid h.
Proof.
  unfold traces_stale. destruct (traces s) as [m|].
  - destruct (N.eqb_spec (traces_lxid s) (MyProc_lxid h)); simpl;
      split; intros; try done; [|by right]. destruct H as [|]; done.
  - split; auto.
Qed.

Lemma get_function_trace_stale h f s :
  traces_stale h s = true ->
  get_function_trace h f s =
    ({| traces_lxid := MyProc_lxid h; traces := Some (next_table s);
        memory := <[(next_table s, key_of f) := new_trace f]> (memory s) |},
     (next_table s, key_of f)).
Proof.
  intros Hst. unfold get_function_trace, hash_search. by rewrite Hst.
Qed.

Lemma get_function_trace_current h f s t :
  traces_stale h s = false -> traces s = Some t ->
  get_function_trace h f s =
    ({| traces_lxid := traces_lxid s; traces := Some t;
        memory := <[(t, key_of f) :=
                      default (new_trace f) (memory s !! (t, key_of f))]>
                    (memory s) |},
     (t, key_of f)).
Proof.
  intros Hst Ht. unfold get_function_trace, hash_search. rewrite Hst, Ht.
  simpl. destruct (memory s !! (t, key_of f)) as [ft|] eqn:E; simpl; [|done].
  by rewrite insert_id.
Qed.

Lemma not_stale h s :
  traces_stale h s = false ->
  traces_lxid s = MyProc_lxid h /\ exists t, traces s = Some t.
Proof.
  unfold traces_stale. destruct (traces s) as [t|]; [|done].
  destruct (N.eqb_spec (traces_lxid s) (MyProc_lxid h)); [eauto|done].
Qed.

Lemma entry_set_entry s p ft0 ft :
  entry s p = Some ft0 -> entry (set_entry s p ft) p = Some ft.
Proof. intros _. apply lookup_insert_eq. Qed.

Lemma entry_set_entry_ne s p p' ft :
  p' <> p -> entry (set_entry s p ft) p' = entry s p'.
Proof. intros Hne. by apply lookup_insert_ne. Qed.

Lemma func_end_attached h g f s p ft :
  attached h s p ft ->
  func_end h g f s (Some p) =
    Some {| hr_statics := set_entry s p (func_end_trace h g f ft).1.1;
            hr_plugin2_info := Some p;
            hr_log := (func_end_trace h g f ft).1.2;
            hr_flow := (func_end_trace h g f ft).2 |}.
Proof.
  intros [Hlx He]. unfold func_end. rewrite Hlx, N.eqb_refl. simpl.
  rewrite He. simpl. by destruct (func_end_trace h g f ft) as [[? ?] ?].
Qed.

Lemma stmt_end_attached h g estate stmt s p ft var :
  attached h s p ft ->
  cmd_type stmt = PLPGSQL_STMT_OPEN ->
  datums estate !! curvar stmt = Some var -> isnull var = false ->
  let r := stmt_end_open h g (func estate) (stmt_stmtid stmt) (value var) ft in
  stmt_end h g estate stmt s (Some p) =
    Some {| hr_statics := set_entry s p r.1.1;
            hr_plugin2_info := Some p;
            hr_log := r.1.2;
            hr_flow := r.2 |}.
Proof.
  intros [Hlx He] Hop Hvar Hnn. unfold stmt_end, stmt_end_open.
  rewrite Hlx, N.eqb_refl. simpl. rewrite decide_True by done.
  rewrite He. simpl.
  destruct (sc_flow (stmt_end_scan h g (func estate) (stmt_stmtid stmt) ft));
    simpl; [|done].
  rewrite Hvar. simpl. rewrite Hnn.
  by destruct (cursors_for_current_stmt _ <? MAX_NAMES_PER_STATEMENT)%nat.
Qed.

(** After [get_function_trace] the table is current, and the pointer
    returned designates the entry that the table holds for the routine. *)
Lemma get_function_trace_attached h f s :
  let s' := (get_function_trace h f s).1 in
  let ftrace := (get_function_trace h f s).2 in
  exists t ft, traces s' = Some t /\ ftrace = (t, key_of f) /\
               attached h s' ftrace ft.
Proof.
  simpl. destruct (traces_stale h s) eqn:Hst.
  - rewrite get_function_trace_stale by done. simpl.
    exists (next_table s), (new_trace f). split; [done|]. split; [done|].
    split; [done|]. apply lookup_insert_eq.
  - destruct (not_stale h s Hst) as [Hlx [t Ht]].
    rewrite (get_function_trace_current h f s t) by done. simpl.
    eexists t, _. split; [done|]. split; [done|].
    split; [done|]. apply lookup_insert_eq.
Qed.

(** An entry found after [get_function_trace] was there before, or is
    the zero-initialised entry behind the pointer returned. *)
Lemma get_function_trace_entry h f s p ft :
  entry (get_function_trace h f s).1 p = Some ft ->
  entry s p = Some ft \/
  (p = (get_function_trace h f s).2 /\ ft = new_trace f).
Proof.
  destruct (traces_stale h s) eqn:Hst.
  - rewrite get_function_trace_stale by done. unfold entry. simpl.
    intros [[<- <-]|[_ Hp]]%lookup_insert_Some; auto.
  - destruct (not_stale h s Hst) as [_ [t Ht]].
    rewrite (get_function_trace_current h f s t) by done.
    unfold entry. simpl. intros [[<- <-]|[_ Hp]]%lookup_insert_Some; auto.
    destruct (memory s !! (t, key_of f)) as [ft0|] eqn:E; simpl; auto.
Qed.

(** With leak detection on, [func_setup] attaches the activation to the
    entry that the current table holds for its routine. *)
Lemma func_setup_attached h g f s :
  plpgsql_check_cursors_leaks g = true ->
  exists t ft, traces (func_setup h g f s).1 = Some t /\
               (func_setup h g f s).2 = Some (t, key_of f) /\
               attached h (func_setup h g f s).1 (t, key_of f) ft.
Proof.
  intros Hon. unfold func_setup. rewrite Hon.
  destruct (get_function_trace_attached h f s) as (t & ft & Ht & Hp & Hat).
  destruct (get_function_trace h f s) as [s' ftrace]. simpl in *.
  subst ftrace. eauto.
Qed.

(** ** Properties of [catalog.c] *)

(** C10. [plpgsql_check_is_plpgsql_function] answers [false], raising
    nothing and leaving the cached language identifier alone, when the
    catalog has no procedure with the given identifier; and whenever it
    raises, the procedure exists, the cached identifier was not yet
    valid, and it is the lookup of the language [plpgsql] that raised. *)
Theorem is_plpgsql_function_missing_proc_is_false :
  forall (c : SysCache) (langid foid : Oid),
    (PROCOID c foid = None ->
       plpgsql_check_is_plpgsql_function c langid foid = (Some false, langid))
    /\
    ((plpgsql_check_is_plpgsql_function c langid foid).1 = None ->
       (exists procStruct, PROCOID c foid = Some procStruct) /\
       OidIsValid langid = false /\
       get_language_oid c "plpgsql" false = None).
Proof.
  intros c langid foid. unfold plpgsql_check_is_plpgsql_function. split.
  - by intros ->.
  - destruct (PROCOID c foid) as [p|]; [|done].
    destruct (OidIsValid langid); simpl; [done|].
    destruct (get_language_oid c "plpgsql" false) as [o|] eqn:E; [done|].
    intros _. repeat split; eauto.
Qed.

Lemma is_plpgsql_function_missing_proc_is_false_witness :
  plpgsql_check_is_plpgsql_function
    {| PROCOID := fun _ => None; get_language_oid := fun _ _ => None |}
    InvalidOid 42%N
  = (Some false, InvalidOid).
Proof.
  apply (is_plpgsql_function_missing_proc_is_false
           {| PROCOID := fun _ => None;
              get_language_oid := fun _ _ => None |}
           InvalidOid 42%N).
  reflexivity.
Defined.

(** ** [get_function_trace] and the transactions *)

(** When there is no table, or the marker is not the transaction the host
    is in, [get_function_trace] makes the next table, records the current
    [lxid] and returns a pointer to a zero-initialised entry of that
    table; the entries created before stay in memory as they were. *)
Lemma get_function_trace_new_table h f s :
  traces s = None \/ traces_lxid s <> MyProc_lxid h ->
  let s' := (get_function_trace h f s).1 in
  let ftrace := (get_function_trace h f s).2 in
  traces s' = Some (next_table s) /\ traces_lxid s' = MyProc_lxid h /\
  ftrace = (next_table s, key_of f) /\
  entry s' ftrace = Some (new_trace f) /\
  (ncursors (new_trace f) = 0%nat /\ cursors_size (new_trace f) = 0%nat /\
   cursors_traces (new_trace f) = None) /\
  forall p, p <> ftrace -> entry s' p = entry s p.
Proof.
  intros Hst. apply traces_stale_true in Hst.
  rewrite get_function_trace_stale by done. simpl.
  split_and!; try done.
  - apply lookup_insert_eq.
  - intros p Hp. by apply lookup_insert_ne.
Qed.

(** C4.  [get_function_trace] makes a new, empty table whenever there is
    none or the marker is not the current transaction
    ([get_function_trace_new_table]), but the hooks do not keep the state
    of a transaction out of the next one.  [stmt_end] and [func_end]
    compare [traces_lxid], the marker of the table that is current, with
    [MyProc->lxid], and then use the pointer of the activation as it is,
    whatever table it points into.

    Procedure [f] opens its cursor ["c1"] in statement 4, in transaction
    7, and the end of the statement records it.  Then [f] calls procedure
    [q]; [q] commits, which closes the cursor, and the end of its [COMMIT]
    statement, in transaction 8, finds the marker changed and replaces the
    table.  Back in [f] the marker is the current transaction: the end of
    the [CALL] statement and the end of statement 4, which [f] runs again
    and which opens ["c1"] anew, both keep the pointer that [func_setup]
    gave [f] in transaction 7.  So that call of [stmt_end] finds the cell
    recorded in transaction 7, reports a cursor that is not closed, and
    records the new cursor in the entry of transaction 7.  The table of
    transaction 8 has no entry for [f], and [get_function_trace] would
    have given it an empty one, for which nothing is reported. *)
Theorem stmt_end_uses_entry_of_ended_transaction :
  let host := fun lxid =>
    {| MyProc_lxid := lxid; SPI_cursor_find := fun _ => true;
       GetErrorContextStack := "PL/pgSQL function f() line 5";
       palloc_cell := {| stmtid := 0; rec_level := 0; curname := None |} |} in
  let g := default_GUC in
  let f := {| fn_oid := 16384%N; fn_xmin := 700%N; use_count := 1 |} in
  let q := {| fn_oid := 16385%N; fn_xmin := 701%N; use_count := 1 |} in
  let in_f := {| func := f;
                 datums := [ {| isnull := false; value := "c1" |} ] |} in
  let in_q := {| func := q; datums := [] |} in
  let open := {| cmd_type := PLPGSQL_STMT_OPEN; stmt_stmtid := 4;
                 curvar := 0 |} in
  let call := {| cmd_type := PLPGSQL_STMT_CALL; stmt_stmtid := 5;
                 curvar := 0 |} in
  let commit := {| cmd_type := PLPGSQL_STMT_COMMIT; stmt_stmtid := 2;
                   curvar := 0 |} in
  let setup_f := func_setup (host 7%N) g f initial_statics in
  exists open7 commit8 end_q call8 open8,
    stmt_end (host 7%N) g in_f open setup_f.1 setup_f.2 = Some open7 /\
    let setup_q := func_setup (host 7%N) g q (hr_statics open7) in
    stmt_end (host 8%N) g in_q commit setup_q.1 setup_q.2 = Some commit8 /\
    func_end (host 8%N) g q (hr_statics commit8) (hr_plugin2_info commit8)
      = Some end_q /\
    stmt_end (host 8%N) g in_f call (hr_statics end_q)
             (hr_plugin2_info open7) = Some call8 /\
    stmt_end (host 8%N) g in_f open (hr_statics call8)
             (hr_plugin2_info call8) = Some open8 /\
    setup_f.2 = Some (0%nat, key_of f) /\
    traces (hr_statics open7) = Some 0%nat /\
    traces_lxid (hr_statics open7) = 7%N /\
    hr_log open7 = [] /\
    traces (hr_statics commit8) = Some 1%nat /\
    traces_lxid (hr_statics commit8) = 8%N /\
    hr_plugin2_info commit8 = Some (1%nat, key_of q) /\
    traces (hr_statics call8) = Some 1%nat /\
    traces_lxid (hr_statics call8) = MyProc_lxid (host 8%N) /\
    hr_plugin2_info call8 = Some (0%nat, key_of f) /\
    (live <$> entry (hr_statics call8) (0%nat, key_of f)) =
      Some [ {| stmtid := 4; rec_level := 1; curname := Some "c1" |} ] /\
    current_table (hr_statics call8) (key_of f) = None /\
    hr_plugin2_info open8 = Some (0%nat, key_of f) /\
    hr_log open8 = [ (report_not_closed (host 8%N) g).1 ] /\
    (live <$> entry (hr_statics open8) (0%nat, key_of f)) =
      Some [ {| stmtid := 4; rec_level := 1; curname := Some "c1" |} ] /\
    current_table (hr_statics open8) (key_of f) = None /\
    let resolved := get_function_trace (host 8%N) f (hr_statics call8) in
    resolved.2 = (1%nat, key_of f) /\
    entry resolved.1 resolved.2 = Some (new_trace f) /\
    exists fresh,
      stmt_end (host 8%N) g in_f open resolved.1 (Some resolved.2)
        = Some fresh /\
      hr_log fresh = [].
Proof.
  intros host g f q in_f in_q open call commit setup_f.
  eexists _, _, _, _, _. cbv zeta.
  do 5 (split; [reflexivity|]).
  split_and!; try (vm_compute; reflexivity).
  eexists. split; [reflexivity|]. vm_compute. reflexivity.
Qed.

(** ** Cells of an entry after a loop *)

Lemma put_live_lookup ft l i :
  length l = length (live ft) ->
  cells (put_live ft l) !! i =
    if decide (i < ncursors ft)%nat then l !! i else cells ft !! i.
Proof.
  intros Hl. rewrite put_live_cells by done.
  unfold live, spare in *. rewrite length_take in Hl.
  destruct (decide (ncursors ft <= length (cells ft))%nat) as [Hn|Hn].
  - case_decide.
    + rewrite lookup_app_l by lia. done.
    + rewrite lookup_app_r by lia. rewrite lookup_drop. f_equal. lia.
  - rewrite drop_ge by lia. rewrite app_nil_r. case_decide; [done|].
    rewrite !lookup_ge_None_2 by lia. done.
Qed.

Lemma func_end_trace_lookup h g f ft i ct :
  cells ft !! i = Some ct ->
  cells (func_end_trace h g f ft).1.1 !! i = Some ct \/
  cells (func_end_trace h g f ft).1.1 !! i = Some (clear_slot ct).
Proof.
  intros Hi. unfold func_end_trace. simpl.
  rewrite put_live_lookup by apply func_end_loop_length.
  case_decide; [|auto].
  apply func_end_loop_lookup. by rewrite live_lookup.
Qed.

Lemma func_end_trace_lookup_other_level h g f ft i ct :
  cells ft !! i = Some ct -> rec_level ct <> use_count f ->
  cells (func_end_trace h g f ft).1.1 !! i = Some ct.
Proof.
  intros Hi Hne. unfold func_end_trace. simpl.
  rewrite put_live_lookup by apply func_end_loop_length.
  case_decide; [|done].
  apply func_end_loop_lookup_other_level; [|done]. by rewrite live_lookup.
Qed.

(** The loop of [func_end] asks the host only about the cursors named by
    cells of its own level. *)
Lemma func_end_body_host h h' g f ct :
  GetErrorContextStack h' = GetErrorContextStack h ->
  (forall name, curname ct = Some name -> rec_level ct = use_count f ->
     SPI_cursor_find h' name = SPI_cursor_find h name) ->
  func_end_body h' g f ct = func_end_body h g f ct.
Proof.
  intros Hctx Hfind. unfold func_end_body.
  destruct (curname ct) as [name|]; [|done].
  destruct (Z.eqb_spec (rec_level ct) (use_count f)) as [E|E]; [|done].
  rewrite (Hfind name) by done.
  unfold report_then_clear, report_not_closed. by rewrite Hctx.
Qed.

Lemma func_end_loop_host h h' g f l :
  GetErrorContextStack h' = GetErrorContextStack h ->
  (forall ct name, ct ∈ l -> curname ct = Some name ->
     rec_level ct = use_count f ->
     SPI_cursor_find h' name = SPI_cursor_find h name) ->
  func_end_loop h' g f l = func_end_loop h g f l.
Proof.
  intros Hctx. induction l as [|ct rest IH]; intros Hfind; [done|].
  simpl. rewrite (func_end_body_host h h' g f ct Hctx).
  - rewrite IH; [done|]. intros c name Hc. apply Hfind. by right.
  - intros name. apply Hfind. by left.
Qed.

(** ** Teardown and the use level *)

(** C8. [func_end] reports on and clears only cells recorded at the use
    level of the activation that ends: a cell of any entry recorded at
    another level is the same after the hook, a visit of such a cell
    emits nothing, and the host is asked only about cursors named by
    cells of that level. *)
Theorem func_end_touches_only_own_level :
  forall (h : Host) (g : GUC) (f : PLpgSQL_function) (s : Statics)
         (plugin2_info : option Pointer) (r : HookResult),
    func_end h g f s plugin2_info = Some r ->
    (forall p ft i ct,
       entry s p = Some ft -> cells ft !! i = Some ct ->
       rec_level ct <> use_count f ->
       func_end_body h g f ct = untouched ct /\
       exists ft', entry (hr_statics r) p = Some ft' /\
                   cells ft' !! i = Some ct) /\
    (forall h',
       MyProc_lxid h' = MyProc_lxid h ->
       GetErrorContextStack h' = GetErrorContextStack h ->
       (forall p ft ct name,
          plugin2_info = Some p -> entry s p = Some ft -> ct ∈ live ft ->
          curname ct = Some name -> rec_level ct = use_count f ->
          SPI_cursor_find h' name = SPI_cursor_find h name) ->
       func_end h' g f s plugin2_info = Some r).
Proof.
  intros h g f s info r Hr. split.
  - intros p ft i ct Hk Hi Hne.
    split; [by apply func_end_body_other_level|].
    unfold func_end in Hr. destruct info as [p0|].
    2:{ injection Hr as <-. simpl. eauto. }
    destruct (negb (traces_lxid s =? MyProc_lxid h)%N).
    { injection Hr as <-. simpl. eauto. }
    destruct (entry s p0) as [ft0|] eqn:Hk0; [|done]. simpl in Hr.
    destruct (func_end_trace h g f ft0) as [[ft0' log] fl] eqn:Hft0.
    injection Hr as <-. simpl.
    destruct (decide (p = p0)) as [->|Hkk].
    + erewrite entry_set_entry by done.
      assert (ft0 = ft) as -> by congruence.
      eexists; split; [done|].
      replace ft0' with (func_end_trace h g f ft).1.1 by by rewrite Hft0.
      by apply func_end_trace_lookup_other_level.
    + rewrite entry_set_entry_ne by done. eauto.
  - intros h' Hlx Hctx Hfind. rewrite <- Hr. unfold func_end.
    destruct info as [p0|]; [|done]. rewrite Hlx.
    destruct (negb (traces_lxid s =? MyProc_lxid h)%N); [done|].
    destruct (entry s p0) as [ft0|] eqn:Hk0; [|done]. simpl.
    unfold func_end_trace.
    rewrite (func_end_loop_host h h' g f (live ft0) Hctx); [done|].
    intros ct name Hct. by apply (Hfind p0 ft0).
Qed.

Lemma func_end_touches_only_own_level_witness :
  let h := {| MyProc_lxid := 8%N; SPI_cursor_find := fun _ => false;
              GetErrorContextStack := "";
              palloc_cell := {| stmtid := 0; rec_level := 0;
                                curname := None |} |} in
  let inner := {| fn_oid := 16384%N; fn_xmin := 700%N; use_count := 2 |} in
  let outer_cell := {| stmtid := 4; rec_level := 1; curname := Some "c" |} in
  let inner_cell := {| stmtid := 4; rec_level := 2; curname := Some "c" |} in
  let ft := {| key := key_of inner; ncursors := 2; cursors_size := 2;
               cursors_traces := Some [outer_cell; inner_cell] |} in
  let s := {| traces_lxid := 8%N; traces := Some 0%nat;
              memory := {[ (0%nat, key_of inner) := ft ]} |} in
  exists r, func_end h default_GUC inner s (Some (0%nat, key_of inner)) = Some r /\
    exists ft', entry (hr_statics r) (0%nat, key_of inner) = Some ft' /\
                cells ft' !! 0%nat = Some outer_cell.
Proof.
  intros h inner outer_cell inner_cell ft s.
  eexists. split; [reflexivity|].
  eapply (func_end_touches_only_own_level h default_GUC inner s
            (Some (0%nat, key_of inner)) _ eq_refl).
  - unfold entry. simpl. apply lookup_singleton_eq.
  - reflexivity.
  - simpl. discriminate.
Defined.

(** ** Where a report leaves the loop *)

Lemma func_end_loop_raises_at h g f l i ct :
  l !! i = Some ct ->
  v_flow (func_end_body h g f ct) = Raises ->
  sw_flow (func_end_loop h g f l) = Raises /\
  sw_cells (func_end_loop h g f l) !! i = Some ct.
Proof.
  revert i. induction l as [|c rest IH]; intros i Hi Hraise; [done|].
  simpl. destruct i as [|i]; simpl in Hi.
  - injection Hi as ->. rewrite Hraise. simpl.
    by rewrite func_end_body_raises.
  - destruct (v_flow (func_end_body h g f c)) eqn:Hc; simpl.
    + by apply IH.
    + done.
Qed.

Lemma stmt_end_loop_raises_at h g f sid j l count free i ct :
  l !! i = Some ct ->
  v_flow (stmt_end_body h g f sid ct).1 = Raises ->
  sc_flow (stmt_end_loop h g f sid j l count free) = Raises /\
  sc_cells (stmt_end_loop h g f sid j l count free) !! i = Some ct.
Proof.
  revert i j count free.
  induction l as [|c rest IH]; intros i j count free Hi Hraise; [done|].
  simpl. destruct i as [|i]; simpl in Hi.
  - injection Hi as ->.
    pose proof (stmt_end_body_raises h g f sid ct Hraise) as Hcell.
    destruct (stmt_end_body h g f sid ct) as [v kept]. simpl in *.
    by rewrite Hraise, Hcell.
  - destruct (stmt_end_body h g f sid c) as [v kept].
    destruct (v_flow v); simpl; [by apply IH | done].
Qed.

Lemma func_end_loop_below_ERROR h g f l :
  plpgsql_check_cursors_leaks_level g < ERROR ->
  func_end_loop h g f l =
    {| sw_cells := (fun ct => v_cell (func_end_body h g f ct)) <$> l;
       sw_log := flat_map (fun ct => v_log (func_end_body h g f ct)) l;
       sw_flow := Returns |}.
Proof.
  intros Hlvl. apply func_end_loop_returns, Forall_forall.
  intros ct _. by apply func_end_body_returns.
Qed.

Lemma stmt_end_loop_below_ERROR h g f sid l :
  plpgsql_check_cursors_leaks_level g < ERROR ->
  stmt_end_loop h g f sid 0 l 0 None =
    {| sc_cells := scanned h g f sid l;
       sc_log := flat_map (fun ct => v_log (stmt_end_body h g f sid ct).1) l;
       sc_flow := Returns;
       cursors_for_current_stmt := kept_count h g f sid l;
       free_slot := first_free (scanned h g f sid l) |}.
Proof.
  intros Hlvl. rewrite stmt_end_loop_returns.
  - f_equal. by destruct (first_free (scanned h g f sid l)).
  - apply Forall_forall. intros ct _. by apply stmt_end_body_returns.
Qed.

Lemma stmt_end_loop_deferred h g f sid l :
  (use_count f =? 1) && negb (plpgsql_check_cursors_leaks_strict g) = false ->
  stmt_end_loop h g f sid 0 l 0 None =
    {| sc_cells := scanned h g f sid l;
       sc_log := [];
       sc_flow := Returns;
       cursors_for_current_stmt := kept_count h g f sid l;
       free_slot := first_free (scanned h g f sid l) |}.
Proof.
  intros Hd. rewrite stmt_end_loop_returns.
  - f_equal; [|by destruct (first_free (scanned h g f sid l))].
    induction l as [|ct rest IH]; [done|]. simpl.
    by destruct (stmt_end_body_deferred h g f sid ct Hd) as [-> _].
  - apply Forall_forall. intros ct _.
    by destruct (stmt_end_body_deferred h g f sid ct Hd).
Qed.

(** What the hooks leave in the table for an attached activation. *)
Lemma func_end_attached_entry h g f s p ft :
  attached h s p ft ->
  exists r, func_end h g f s (Some p) = Some r /\
    hr_log r = (func_end_trace h g f ft).1.2 /\
    hr_flow r = (func_end_trace h g f ft).2 /\
    hr_plugin2_info r = Some p /\
    entry (hr_statics r) p = Some (func_end_trace h g f ft).1.1.
Proof.
  intros Hat. rewrite (func_end_attached h g f s p ft Hat).
  eexists. split; [done|]. simpl. repeat split.
  destruct Hat as [_ He]. by erewrite entry_set_entry.
Qed.

Lemma stmt_end_attached_entry h g estate stmt s p ft var :
  attached h s p ft ->
  cmd_type stmt = PLPGSQL_STMT_OPEN ->
  datums estate !! curvar stmt = Some var -> isnull var = false ->
  let o := stmt_end_open h g (func estate) (stmt_stmtid stmt) (value var) ft in
  exists r, stmt_end h g estate stmt s (Some p) = Some r /\
    hr_log r = o.1.2 /\ hr_flow r = o.2 /\
    hr_plugin2_info r = Some p /\
    entry (hr_statics r) p = Some o.1.1.
Proof.
  intros Hat Hop Hvar Hnn o.
  rewrite (stmt_end_attached h g estate stmt s p ft var Hat Hop Hvar Hnn).
  eexists. split; [done|]. simpl. repeat split.
  destruct Hat as [_ He]. by erewrite entry_set_entry.
Qed.

(** ** Strict mode at teardown *)

(** C6, as amended.  At teardown in strict mode, a cell of the ending
    activation whose cursor is still open is reported once, with
    [ERRCODE_INVALID_CURSOR_STATE] at the configured level.  Below
    [ERROR] the report returns and the cell is then cleared (statement
    id [-1], null name), which is what the entry holds after the hook.
    At [ERROR] or above the report leaves the hook: the hook raises and
    the entry still holds the cell as it was. *)
Theorem func_end_strict_clears_when_report_returns :
  forall (h : Host) (g : GUC) (f : PLpgSQL_function) (s : Statics)
         (p : Pointer) (ft : FunctionTrace) (i : nat)
         (ct : CursorTrace) (name : string),
    plpgsql_check_cursors_leaks_strict g = true ->
    attached h s p ft ->
    (i < ncursors ft)%nat -> cells ft !! i = Some ct ->
    curname ct = Some name -> rec_level ct = use_count f ->
    SPI_cursor_find h name = true ->
    v_log (func_end_body h g f ct) =
      [ {| elevel := plpgsql_check_cursors_leaks_level g;
           sqlerrcode := ERRCODE_INVALID_CURSOR_STATE;
           message := "cursor is not closed";
           detail := GetErrorContextStack h |} ] /\
    (plpgsql_check_cursors_leaks_level g < ERROR ->
       v_flow (func_end_body h g f ct) = Returns /\
       v_cell (func_end_body h g f ct) = clear_slot ct /\
       stmtid (clear_slot ct) = -1 /\ curname (clear_slot ct) = None /\
       exists r ft',
         func_end h g f s (Some p) = Some r /\ hr_flow r = Returns /\
         entry (hr_statics r) p = Some ft' /\
         cells ft' !! i = Some (clear_slot ct)) /\
    (ERROR <= plpgsql_check_cursors_leaks_level g ->
       v_flow (func_end_body h g f ct) = Raises /\
       v_cell (func_end_body h g f ct) = ct /\
       exists r ft',
         func_end h g f s (Some p) = Some r /\ hr_flow r = Raises /\
         entry (hr_statics r) p = Some ft' /\
         cells ft' !! i = Some ct).
Proof.
  intros h g f s p ft i ct name Hstrict Hat Hi Hct Hname Hlevel Hopen.
  assert (func_end_body h g f ct = report_then_clear h g ct) as Hbody.
  { unfold func_end_body. rewrite Hname, Hlevel, Z.eqb_refl, Hopen.
    by rewrite Hstrict. }
  destruct (func_end_attached_entry h g f s p ft Hat)
    as (r & Hr & _ & Hfl & _ & Hent).
  assert (live ft !! i = Some ct) as Hlive by by rewrite live_lookup.
  rewrite Hbody. split; [apply report_then_clear_log|]. split.
  - intros Hlvl. rewrite report_then_clear_returns by done. simpl.
    repeat split. exists r, (func_end_trace h g f ft).1.1.
    split; [done|]. unfold func_end_trace in *. simpl in *.
    rewrite func_end_loop_below_ERROR in * by done. simpl in *.
    split; [done|]. split; [done|].
    rewrite put_live_lookup by by rewrite length_fmap.
    rewrite decide_True by done. rewrite list_lookup_fmap, Hlive. simpl.
    rewrite Hbody. by rewrite report_then_clear_returns.
  - intros Hlvl. rewrite report_then_clear_raises by done. simpl.
    repeat split. exists r, (func_end_trace h g f ft).1.1.
    split; [done|]. unfold func_end_trace in *. simpl in *.
    destruct (func_end_loop_raises_at h g f (live ft) i ct Hlive)
      as [Hraise Hcell].
    { rewrite Hbody. by rewrite report_then_clear_raises. }
    split; [congruence|]. split; [done|].
    rewrite put_live_lookup by apply func_end_loop_length.
    by rewrite decide_True.
Qed.

Lemma func_end_strict_clears_when_report_returns_witness :
  let h := {| MyProc_lxid := 8%N; SPI_cursor_find := fun _ => true;
              GetErrorContextStack := "PL/pgSQL function f() line 5";
              palloc_cell := {| stmtid := 0; rec_level := 0;
                                curname := None |} |} in
  let g := {| plpgsql_check_cursors_leaks := true;
              plpgsql_check_cursors_leaks_strict := true;
              plpgsql_check_cursors_leaks_level := WARNING |} in
  let f := {| fn_oid := 16384%N; fn_xmin := 700%N; use_count := 1 |} in
  let ct := {| stmtid := 4; rec_level := 1; curname := Some "c1" |} in
  let ft := {| key := key_of f; ncursors := 1; cursors_size := 10;
               cursors_traces := Some (ct :: replicate 9 (palloc_cell h)) |} in
  let s := {| traces_lxid := 8%N; traces := Some 0%nat;
              memory := {[ (0%nat, key_of f) := ft ]} |} in
  exists r ft',
    func_end h g f s (Some (0%nat, key_of f)) = Some r /\ hr_flow r = Returns /\
    entry (hr_statics r) (0%nat, key_of f) = Some ft' /\
    cells ft' !! 0%nat = Some (clear_slot ct).
Proof.
  intros h g f ct ft s.
  assert (attached h s (0%nat, key_of f) ft) as Hat.
  { split; [reflexivity|]. unfold entry. simpl. apply lookup_singleton_eq. }
  destruct (func_end_strict_clears_when_report_returns
              h g f s (0%nat, key_of f) ft 0%nat ct "c1" eq_refl Hat)
    as (_ & Hlow & _); try reflexivity.
  { simpl. lia. }
  apply Hlow. reflexivity.
Defined.

(** At level [ERROR] the cell is not cleared: the report leaves
    [func_end], and the entry keeps the statement id and the name. *)
Lemma func_end_strict_ERROR_keeps_slot :
  let h := {| MyProc_lxid := 8%N; SPI_cursor_find := fun _ => true;
              GetErrorContextStack := "PL/pgSQL function f() line 5";
              palloc_cell := {| stmtid := 0; rec_level := 0;
                                curname := None |} |} in
  let g := {| plpgsql_check_cursors_leaks := true;
              plpgsql_check_cursors_leaks_strict := true;
              plpgsql_check_cursors_leaks_level := ERROR |} in
  let f := {| fn_oid := 16384%N; fn_xmin := 700%N; use_count := 1 |} in
  let ct := {| stmtid := 4; rec_level := 1; curname := Some "c1" |} in
  let ft := {| key := key_of f; ncursors := 1; cursors_size := 10;
               cursors_traces := Some (ct :: replicate 9 (palloc_cell h)) |} in
  let s := {| traces_lxid := 8%N; traces := Some 0%nat;
              memory := {[ (0%nat, key_of f) := ft ]} |} in
  plpgsql_check_cursors_leaks_strict g = true /\
  curname ct = Some "c1" /\ rec_level ct = use_count f /\
  SPI_cursor_find h "c1" = true /\
  v_log (func_end_body h g f ct) = [(report_not_closed h g).1] /\
  v_cell (func_end_body h g f ct) <> clear_slot ct /\
  exists r,
    func_end h g f s (Some (0%nat, key_of f)) = Some r /\
    hr_log r = [(report_not_closed h g).1] /\
    hr_flow r = Raises /\
    entry (hr_statics r) (0%nat, key_of f) = Some ft /\
    stmtid <$> cells ft !! 0%nat = Some 4 /\
    curname <$> cells ft !! 0%nat = Some (Some "c1").
Proof.
  intros h g f ct ft s. repeat split; try discriminate.
  eexists. split; [reflexivity|]. repeat split.
Qed.

(** ** The free slot *)

Lemma first_free_Some l j :
  first_free l = Some j <->
  exists ct, l !! j = Some ct /\ stmtid ct = -1 /\
    forall j' c, l !! j' = Some c -> (j' < j)%nat -> stmtid c <> -1.
Proof.
  unfold first_free. split.
  - destruct (list_find _ l) as [[j0 ct]|] eqn:E; [|done].
    simpl. intros [= <-]. apply list_find_Some in E as (H1 & H2 & H3).
    eauto.
  - intros (ct & H1 & H2 & H3).
    assert (list_find (fun ct => stmtid ct = -1) l = Some (j, ct)) as ->; [|done].
    apply list_find_Some. eauto.
Qed.

Lemma first_free_None l :
  first_free l = None <-> forall j c, l !! j = Some c -> stmtid c <> -1.
Proof.
  unfold first_free. split.
  - destruct (list_find _ l) as [[j0 ct]|] eqn:E; [done|].
    intros _ j c Hj. apply list_find_None in E.
    eapply (proj1 (Forall_forall _ _) E). by eapply list_elem_of_lookup_2.
  - intros H.
    assert (list_find (fun ct => stmtid ct = -1) l = None) as ->; [|done].
    apply list_find_None, Forall_forall. intros c Hc.
    apply list_elem_of_lookup_1 in Hc as [j Hj]. eauto.
Qed.

Lemma first_free_lt l j : first_free l = Some j -> (j < length l)%nat.
Proof.
  intros H. apply first_free_Some in H as (ct & H1 & _).
  by eapply lookup_lt_Some.
Qed.

(** ** The [OPEN] branch when every visit returns *)

Lemma stmt_end_open_below_ERROR h g f sid name ft :
  plpgsql_check_cursors_leaks_level g < ERROR ->
  let post := put_live ft (scanned h g f sid (live ft)) in
  stmt_end_open h g f sid name ft =
    (if (kept_count h g f sid (live ft) <? MAX_NAMES_PER_STATEMENT)%nat
     then record_cursor h f sid name
            (first_free (scanned h g f sid (live ft))) post
     else post,
     flat_map (fun ct => v_log (stmt_end_body h g f sid ct).1) (live ft),
     Returns).
Proof.
  intros Hlvl post. unfold stmt_end_open, stmt_end_scan.
  rewrite stmt_end_loop_below_ERROR by done. simpl.
  by destruct (kept_count h g f sid (live ft) <? MAX_NAMES_PER_STATEMENT)%nat.
Qed.

Lemma stmt_end_open_deferred h g f sid name ft :
  (use_count f =? 1) && negb (plpgsql_check_cursors_leaks_strict g) = false ->
  let post := put_live ft (scanned h g f sid (live ft)) in
  stmt_end_open h g f sid name ft =
    (if (kept_count h g f sid (live ft) <? MAX_NAMES_PER_STATEMENT)%nat
     then record_cursor h f sid name
            (first_free (scanned h g f sid (live ft))) post
     else post,
     [], Returns).
Proof.
  intros Hd post. unfold stmt_end_open, stmt_end_scan.
  rewrite stmt_end_loop_deferred by done. simpl.
  by destruct (kept_count h g f sid (live ft) <? MAX_NAMES_PER_STATEMENT)%nat.
Qed.

Lemma scanned_length h g f sid l : length (scanned h g f sid l) = length l.
Proof. apply length_fmap. Qed.

Lemma scanned_lookup h g f sid l i :
  scanned h g f sid l !! i =
    (fun ct => v_cell (stmt_end_body h g f sid ct).1) <$> l !! i.
Proof. apply list_lookup_fmap. Qed.

(** Without strict mode, at the first use level, nothing is counted. *)
Lemma kept_count_immediate h g f sid l :
  (use_count f =? 1) && negb (plpgsql_check_cursors_leaks_strict g) = true ->
  kept_count h g f sid l = 0%nat.
Proof.
  intros Hm. rewrite kept_count_still_tracked.
  induction l as [|ct rest IH]; [done|].
  assert (still_tracked h g f sid ct = false) as Hct.
  { unfold still_tracked. rewrite Hm.
    destruct (curname ct); [apply andb_false_r | done]. }
  rewrite filter_cons, Hct. exact IH.
Qed.

(** Cells of the entry after [record_cursor] reused a free slot. *)
Lemma record_cursor_reuse_lookup h f sid name j ft i :
  cells (record_cursor h f sid name (Some j) ft) !! i =
    if decide (i = j /\ j < length (cells ft))%nat
    then Some {| stmtid := sid; rec_level := use_count f;
                 curname := Some name |}
    else cells ft !! i.
Proof.
  unfold record_cursor. simpl. unfold cells at 1. simpl.
  destruct (decide (j < length (cells ft))%nat) as [Hj|Hj].
  - destruct (decide (i = j)) as [->|Hij].
    + rewrite decide_True by done. by apply list_lookup_insert_eq.
    + rewrite decide_False by (intros [? _]; done).
      by apply list_lookup_insert_ne.
  - rewrite decide_False by (intros [_ ?]; done).
    rewrite list_insert_ge by lia. done.
Qed.

(** ** Teardown without strict mode *)

Lemma func_end_lenient h g f s plugin2_info r :
  plpgsql_check_cursors_leaks_strict g = false ->
  func_end h g f s plugin2_info = Some r ->
  hr_log r = [] /\ hr_flow r = Returns.
Proof.
  intros Hs. unfold func_end. destruct plugin2_info as [p|].
  2:{ by intros [= <-]. }
  destruct (negb (traces_lxid s =? MyProc_lxid h)%N).
  { by intros [= <-]. }
  destruct (entry s p) as [ft|]; [|done]. simpl.
  unfold func_end_trace.
  destruct (func_end_loop_lenient h g f (live ft) Hs) as [Hl Hf].
  intros [= <-]. simpl. done.
Qed.

(** ** The first report that leaves a loop *)

Lemma stmt_end_body_reopened h g f sid ct :
  plpgsql_check_cursors_leaks_strict g = false -> use_count f = 1 ->
  reopened h sid ct = true ->
  (stmt_end_body h g f sid ct).1 = report_then_clear h g ct.
Proof.
  intros Hs Hu. unfold reopened, stmt_end_body.
  destruct (curname ct) as [name|]; [|done].
  intros [-> ->]%andb_true_iff. by rewrite Hu, Hs.
Qed.

Lemma stmt_end_body_not_reopened h g f sid ct :
  reopened h sid ct = false ->
  v_log (stmt_end_body h g f sid ct).1 = [] /\
  v_flow (stmt_end_body h g f sid ct).1 = Returns.
Proof.
  unfold reopened, stmt_end_body.
  destruct (curname ct) as [name|]; [|done].
  destruct (stmtid ct =? sid); [|done].
  destruct (SPI_cursor_find h name); [done|done].
Qed.

Lemma func_end_body_left_open h g f ct :
  plpgsql_check_cursors_leaks_strict g = true ->
  left_open h f ct = true ->
  func_end_body h g f ct = report_then_clear h g ct.
Proof.
  intros Hs. unfold left_open, func_end_body.
  destruct (curname ct) as [name|]; [|done].
  intros [-> ->]%andb_true_iff. by rewrite Hs.
Qed.

Lemma func_end_body_not_left_open h g f ct :
  left_open h f ct = false ->
  v_log (func_end_body h g f ct) = [] /\
  v_flow (func_end_body h g f ct) = Returns.
Proof.
  unfold left_open, func_end_body.
  destruct (curname ct) as [name|]; [|done].
  destruct (rec_level ct =? use_count f); [|done].
  destruct (SPI_cursor_find h name); [done|done].
Qed.

(** The first cell of a list that a test selects, when it selects one. *)
Lemma first_selected {A} (P : A -> bool) (l : list A) i x :
  l !! i = Some x -> P x = true ->
  exists j y, (j <= i)%nat /\ l !! j = Some y /\ P y = true /\
    forall j' z, (j' < j)%nat -> l !! j' = Some z -> P z = false.
Proof.
  revert i. induction l as [|a rest IH]; intros i Hi HP; [done|].
  destruct (P a) eqn:Ha.
  - exists 0%nat, a. split_and!; [lia|done|done|]. intros; lia.
  - destruct i as [|i]; simpl in Hi; [congruence|].
    destruct (IH i Hi HP) as (j & y & Hj & Hy & HPy & Hmin).
    exists (S j), y. split_and!; [lia|done|done|].
    intros [|j'] z Hlt Hz; simpl in Hz; [congruence|].
    apply (Hmin j'); [lia|done].
Qed.

(** A loop whose visits report one and the same diagnostic, for the
    selected cells only, and all return: one report per selected cell. *)
Lemma flat_map_reports {A} (P : A -> bool) (lg : A -> list ErrorData)
    (e : ErrorData) (l : list A) :
  (forall c, lg c = if P c then [e] else []) ->
  flat_map lg l = replicate (length (filter P l)) e.
Proof.
  intros Hlg. induction l as [|a rest IH]; [done|].
  simpl. rewrite filter_cons, Hlg, IH.
  by destruct (P a).
Qed.

Lemma flat_map_quiet {A B} (lg : A -> list B) (l : list A) :
  Forall (fun c => lg c = []) l -> flat_map lg l = [].
Proof. induction 1 as [|a rest Ha _ IH]; simpl; [done|]. by rewrite Ha. Qed.

(** The loop of [func_end] stops at the first visit that raises: the
    cells before it are as their visits left them, the cell itself and
    those after it as they were. *)
Lemma func_end_loop_first_raise h g f l j cj :
  l !! j = Some cj ->
  v_flow (func_end_body h g f cj) = Raises ->
  (forall j' c, (j' < j)%nat -> l !! j' = Some c ->
     v_flow (func_end_body h g f c) = Returns) ->
  func_end_loop h g f l =
    {| sw_cells :=
         ((fun c => v_cell (func_end_body h g f c)) <$> take j l) ++ drop j l;
       sw_log := flat_map (fun c => v_log (func_end_body h g f c)) (take j l)
                   ++ v_log (func_end_body h g f cj);
       sw_flow := Raises |}.
Proof.
  revert j. induction l as [|a rest IH]; intros j Hj Hraise Hbefore; [done|].
  destruct j as [|j]; simpl in Hj.
  - injection Hj as ->. simpl. rewrite Hraise.
    by rewrite func_end_body_raises.
  - simpl. rewrite (Hbefore 0%nat a) by (done || lia).
    rewrite (IH j Hj Hraise).
    + simpl. by rewrite (assoc_L (++)).
    + intros j' c Hlt Hc. apply (Hbefore (S j') c); [lia|done].
Qed.

Lemma stmt_end_loop_first_raise h g f sid i0 l count free j cj :
  l !! j = Some cj ->
  v_flow (stmt_end_body h g f sid cj).1 = Raises ->
  (forall j' c, (j' < j)%nat -> l !! j' = Some c ->
     v_flow (stmt_end_body h g f sid c).1 = Returns) ->
  let sc := stmt_end_loop h g f sid i0 l count free in
  sc_cells sc = scanned h g f sid (take j l) ++ drop j l /\
  sc_log sc =
    flat_map (fun c => v_log (stmt_end_body h g f sid c).1) (take j l)
      ++ v_log (stmt_end_body h g f sid cj).1 /\
  sc_flow sc = Raises.
Proof.
  revert j i0 count free.
  induction l as [|a rest IH]; intros j i0 count free Hj Hraise Hbefore;
    [done|].
  destruct j as [|j]; simpl in Hj.
  - injection Hj as ->. simpl.
    pose proof (stmt_end_body_raises h g f sid cj Hraise) as Hcell.
    destruct (stmt_end_body h g f sid cj) as [v kept]. simpl in *.
    rewrite Hraise. simpl. by rewrite Hcell.
  - simpl. pose proof (Hbefore 0%nat a) as Ha.
    destruct (stmt_end_body h g f sid a) as [v kept] eqn:Ea. simpl in Ha.
    rewrite Ha by (done || lia).
    destruct (IH j (S i0) (if kept then S count else count)
                (note_free_slot i0 (v_cell v) free) Hj Hraise)
      as (Hc & Hl & Hf).
    { intros j' c Hlt Hc. apply (Hbefore (S j') c); [lia|done]. }
    simpl. rewrite Hc, Hl, Hf. unfold scanned. simpl.
    by rewrite (assoc_L (++)).
Qed.

(** ** Immediate report at the first use level *)

(** C1, as amended.  Leak detection on (the activation holds a pointer
    to an entry), strict mode off, use level 1.  An [OPEN] statement ends
    and a cell in use of the entry has its statement id and names a
    cursor that still exists.  A visit of such a cell makes one report
    ([ERRCODE_INVALID_CURSOR_STATE], configured level), a visit of any
    other cell none.

    Below [ERROR] every visit returns: the hook makes one report for each
    such cell and returns, the scan clears each such cell (statement id
    [-1], null name), and once the hook is over the cell is free or
    already holds the cursor this [OPEN] just opened.

    At [ERROR] or above the hook makes exactly one report, for the first
    such cell, and raises there: that cell and the cells after it are as
    they were, the cells before it as their visits left them, and the
    cursor just opened is not recorded.

    [func_end] without strict mode never reports, so teardown adds
    nothing. *)
Theorem stmt_end_reports_still_open_cursor_once :
  forall (h : Host) (g : GUC) (estate : PLpgSQL_execstate)
         (stmt : PLpgSQL_stmt) (s : Statics) (p : Pointer)
         (ft : FunctionTrace) (var : PLpgSQL_var) (i : nat)
         (ct : CursorTrace) (name : string),
    plpgsql_check_cursors_leaks_strict g = false ->
    use_count (func estate) = 1 ->
    attached h s p ft ->
    cmd_type stmt = PLPGSQL_STMT_OPEN ->
    datums estate !! curvar stmt = Some var -> isnull var = false ->
    (i < ncursors ft)%nat -> cells ft !! i = Some ct ->
    curname ct = Some name -> stmtid ct = stmt_stmtid stmt ->
    SPI_cursor_find h name = true ->
    let f := func estate in
    let sid := stmt_stmtid stmt in
    let e := {| elevel := plpgsql_check_cursors_leaks_level g;
                sqlerrcode := ERRCODE_INVALID_CURSOR_STATE;
                message := "cursor is not closed";
                detail := GetErrorContextStack h |} in
    let visit := fun c => (stmt_end_body h g f sid c).1 in
    (forall c, v_log (visit c) = if reopened h sid c then [e] else []) /\
    (plpgsql_check_cursors_leaks_level g < ERROR ->
       visit ct =
         {| v_cell := clear_slot ct; v_log := [e]; v_flow := Returns |} /\
       (forall c, stmtid (clear_slot c) = -1 /\ curname (clear_slot c) = None) /\
       exists r ft',
         stmt_end h g estate stmt s (Some p) = Some r /\
         hr_flow r = Returns /\
         hr_log r = flat_map (fun c => v_log (visit c)) (live ft) /\
         hr_log r =
           replicate (length (filter (reopened h sid) (live ft))) e /\
         entry (hr_statics r) p = Some ft' /\
         forall j c,
           (j < ncursors ft)%nat -> cells ft !! j = Some c ->
           reopened h sid c = true ->
           sc_cells (stmt_end_scan h g f sid ft) !! j = Some (clear_slot c) /\
           (cells ft' !! j = Some (clear_slot c) \/
            cells ft' !! j = Some {| stmtid := sid; rec_level := use_count f;
                                     curname := Some (value var) |})) /\
    (ERROR <= plpgsql_check_cursors_leaks_level g ->
       exists r ft' j cj,
         stmt_end h g estate stmt s (Some p) = Some r /\
         hr_flow r = Raises /\ hr_log r = [e] /\
         (j <= i)%nat /\ cells ft !! j = Some cj /\
         reopened h sid cj = true /\
         (forall j' c, (j' < j)%nat -> cells ft !! j' = Some c ->
            reopened h sid c = false) /\
         visit cj = {| v_cell := cj; v_log := [e]; v_flow := Raises |} /\
         entry (hr_statics r) p = Some ft' /\
         ncursors ft' = ncursors ft /\ cursors_size ft' = cursors_size ft /\
         (forall j', (j <= j')%nat -> cells ft' !! j' = cells ft !! j') /\
         (forall j' c, (j' < j)%nat -> cells ft !! j' = Some c ->
            cells ft' !! j' = Some (v_cell (visit c)))) /\
    (forall h' f' s' plugin2_info' r',
       func_end h' g f' s' plugin2_info' = Some r' ->
       hr_log r' = [] /\ hr_flow r' = Returns).
Proof.
  intros h g estate stmt s p ft var i ct name
         Hstrict Hlevel1 Hat Hop Hvar Hnn Hi Hct Hname Hsid Hopen
         f sid e visit.
  assert (live ft !! i = Some ct) as Hlive by by rewrite live_lookup.
  assert (reopened h sid ct = true) as Hre.
  { unfold reopened. fold sid in Hsid.
    by rewrite Hname, Hsid, Z.eqb_refl, Hopen. }
  assert (forall c, v_log (visit c) = if reopened h sid c then [e] else [])
    as Hlogs.
  { intros c. unfold visit. destruct (reopened h sid c) eqn:Hc.
    - rewrite stmt_end_body_reopened by done. apply report_then_clear_log.
    - by destruct (stmt_end_body_not_reopened h g f sid c Hc). }
  destruct (stmt_end_attached_entry h g estate stmt s p ft var
              Hat Hop Hvar Hnn) as (r & Hr & Hlog & Hfl & _ & Hent).
  fold f sid in Hlog, Hfl, Hent.
  split; [done|]. split; [|split; [|intros; by eapply func_end_lenient]].
  - intros Hlvl.
    assert (forall c, reopened h sid c = true ->
              visit c = {| v_cell := clear_slot c; v_log := [e];
                           v_flow := Returns |}) as Hvisit.
    { intros c Hc. unfold visit. rewrite stmt_end_body_reopened by done.
      by rewrite report_then_clear_returns. }
    split; [by apply Hvisit|]. split; [done|].
    rewrite stmt_end_open_below_ERROR in Hlog, Hfl, Hent by done.
    simpl in Hlog, Hfl, Hent.
    rewrite kept_count_immediate in Hent
      by (subst f; by rewrite Hlevel1, Hstrict).
    simpl in Hent.
    eexists r, _. split; [done|]. split; [done|]. split; [done|].
    split; [rewrite Hlog; by apply flat_map_reports|].
    split; [exact Hent|].
    intros j c Hj Hc Hrec.
    assert (live ft !! j = Some c) as Hlj by by rewrite live_lookup.
    assert (scanned h g f sid (live ft) !! j = Some (clear_slot c)) as Hsc.
    { rewrite scanned_lookup, Hlj. simpl.
      fold (visit c). by rewrite Hvisit. }
    split.
    { unfold stmt_end_scan. by rewrite stmt_end_loop_below_ERROR. }
    destruct (first_free (scanned h g f sid (live ft))) as [j0|] eqn:Hfree.
    + rewrite record_cursor_reuse_lookup.
      case_decide; [by right|]. left.
      rewrite put_live_lookup by apply scanned_length.
      by rewrite decide_True.
    + exfalso. eapply (proj1 (first_free_None _) Hfree); [exact Hsc|done].
  - intros Hlvl.
    destruct (first_selected (reopened h sid) (live ft) i ct Hlive Hre)
      as (j & cj & Hji & Hj & Hcj & Hmin).
    assert (visit cj = {| v_cell := cj; v_log := [e]; v_flow := Raises |})
      as Hvisit.
    { unfold visit. rewrite stmt_end_body_reopened by done.
      by rewrite report_then_clear_raises. }
    assert (forall j' c, (j' < j)%nat -> live ft !! j' = Some c ->
              v_log (visit c) = [] /\ v_flow (visit c) = Returns) as Hquiet.
    { intros j' c Hlt Hc.
      apply stmt_end_body_not_reopened. by eapply Hmin. }
    destruct (stmt_end_loop_first_raise h g f sid 0 (live ft) 0 None j cj Hj)
      as (Hcells & Hlg & Hflow).
    { fold (visit cj). by rewrite Hvisit. }
    { intros j' c Hlt Hc. by destruct (Hquiet j' c Hlt Hc). }
    fold (stmt_end_scan h g f sid ft) in Hcells, Hlg, Hflow.
    assert (flat_map (fun c => v_log (stmt_end_body h g f sid c).1)
                     (take j (live ft)) = []) as Hnil.
    { apply flat_map_quiet, Forall_forall. intros c Hc.
      apply list_elem_of_lookup_1 in Hc as [j' Hc].
      apply lookup_take_Some in Hc as [Hc Hlt].
      by destruct (Hquiet j' c Hlt Hc). }
    unfold stmt_end_open in Hlog, Hfl, Hent.
    rewrite Hflow in Hlog, Hfl, Hent. simpl in Hlog, Hfl, Hent.
    apply live_lookup_Some in Hj as Hj'. destruct Hj' as [Hjn Hjc].
    exists r, (put_live ft (sc_cells (stmt_end_scan h g f sid ft))), j, cj.
    split; [done|]. split; [done|]. split.
    { rewrite Hlog, Hlg, Hnil. simpl. fold (visit cj). by rewrite Hvisit. }
    split; [done|]. split; [done|]. split; [done|]. split.
    { intros j' c Hlt Hc. apply (Hmin j' c Hlt).
      rewrite live_lookup by lia. done. }
    split; [done|]. split; [done|].
    split; [apply put_live_ncursors|]. split; [apply put_live_cursors_size|].
    assert (length (sc_cells (stmt_end_scan h g f sid ft)) = length (live ft))
      as Hlen by apply stmt_end_loop_length.
    assert (length (take j (live ft)) = j) as Htake.
    { rewrite length_take. apply lookup_lt_Some in Hj. lia. }
    split.
    + intros j' Hle. rewrite put_live_lookup by done.
      case_decide as Hlt; [|done].
      rewrite Hcells, lookup_app_r by (rewrite scanned_length; lia).
      rewrite scanned_length, Htake, lookup_drop.
      replace (j + (j' - j))%nat with j' by lia.
      by apply live_lookup.
    + intros j' c Hlt Hc. rewrite put_live_lookup by done.
      rewrite decide_True by lia.
      rewrite Hcells, lookup_app_l by (rewrite scanned_length; lia).
      rewrite scanned_lookup, lookup_take_lt by done.
      rewrite live_lookup by lia. by rewrite Hc.
Qed.

Lemma stmt_end_reports_still_open_cursor_once_witness :
  let h := {| MyProc_lxid := 8%N; SPI_cursor_find := fun _ => true;
              GetErrorContextStack := "PL/pgSQL function f() line 5";
              palloc_cell := {| stmtid := 0; rec_level := 0;
                                curname := None |} |} in
  let f := {| fn_oid := 16384%N; fn_xmin := 700%N; use_count := 1 |} in
  let estate := {| func := f;
                   datums := [ {| isnull := false; value := "c2" |} ] |} in
  let stmt := {| cmd_type := PLPGSQL_STMT_OPEN; stmt_stmtid := 4;
                 curvar := 0 |} in
  let ct := {| stmtid := 4; rec_level := 1; curname := Some "c1" |} in
  let ft := {| key := key_of f; ncursors := 1; cursors_size := 10;
               cursors_traces := Some (ct :: replicate 9 (palloc_cell h)) |} in
  let s := {| traces_lxid := 8%N; traces := Some 0%nat;
              memory := {[ (0%nat, key_of f) := ft ]} |} in
  exists r,
    stmt_end h default_GUC estate stmt s (Some (0%nat, key_of f)) = Some r /\
    hr_flow r = Returns /\
    hr_log r = [ (report_not_closed h default_GUC).1 ] /\
    sc_cells (stmt_end_scan h default_GUC f 4 ft) !! 0%nat
      = Some (clear_slot ct).
Proof.
  intros h f estate stmt ct ft s.
  assert (attached h s (0%nat, key_of f) ft) as Hat.
  { split; [reflexivity|]. unfold entry. simpl. apply lookup_singleton_eq. }
  assert (plpgsql_check_cursors_leaks_level default_GUC < ERROR) as Hlvl
    by (simpl; unfold WARNING, ERROR; lia).
  assert (0 < ncursors ft)%nat as Hi by (simpl; lia).
  destruct (stmt_end_reports_still_open_cursor_once
              h default_GUC estate stmt s (0%nat, key_of f) ft
              {| isnull := false; value := "c2" |} 0%nat ct "c1"
              eq_refl eq_refl Hat eq_refl eq_refl eq_refl Hi
              eq_refl eq_refl eq_refl eq_refl)
    as (_ & Hlow & _).
  destruct (Hlow Hlvl) as (_ & _ & r & ft' & Hr & Hfl & _ & Hlog & _ & Hall).
  exists r. split; [exact Hr|]. split; [exact Hfl|]. split; [exact Hlog|].
  apply (Hall 0%nat ct Hi eq_refl eq_refl).
Defined.

(** One report and a cleared cell is not what always happens.  At level
    [ERROR] the cell is not cleared: the report leaves [stmt_end], the
    entry keeps the statement id and the name of the cursor, and the
    cursor just opened is not recorded.  And at the default level the
    reports at one statement end can be two: a routine at use level 1
    opens ["c1"] in statement 4 and calls itself; the inner activation, at
    use level 2, opens ["c2"] in statement 4 and leaves it open; back at
    use level 1 statement 4 runs again, and both cells are reported and
    cleared. *)
Lemma stmt_end_ERROR_keeps_slot_and_reports_per_slot :
  let h := {| MyProc_lxid := 8%N; SPI_cursor_find := fun _ => true;
              GetErrorContextStack := "PL/pgSQL function f() line 5";
              palloc_cell := {| stmtid := 0; rec_level := 0;
                                curname := None |} |} in
  let g := {| plpgsql_check_cursors_leaks := true;
              plpgsql_check_cursors_leaks_strict := false;
              plpgsql_check_cursors_leaks_level := ERROR |} in
  let f := {| fn_oid := 16384%N; fn_xmin := 700%N; use_count := 1 |} in
  let f2 := {| fn_oid := 16384%N; fn_xmin := 700%N; use_count := 2 |} in
  let opening := fun (f : PLpgSQL_function) (name : string) =>
    {| func := f; datums := [ {| isnull := false; value := name |} ] |} in
  let stmt := {| cmd_type := PLPGSQL_STMT_OPEN; stmt_stmtid := 4;
                 curvar := 0 |} in
  let ct := {| stmtid := 4; rec_level := 1; curname := Some "c1" |} in
  let ft := {| key := key_of f; ncursors := 1; cursors_size := 10;
               cursors_traces := Some (ct :: replicate 9 (palloc_cell h)) |} in
  let s := {| traces_lxid := 8%N; traces := Some 0%nat;
              memory := {[ (0%nat, key_of f) := ft ]} |} in
  ((func_setup h g f s).2 = Some (0%nat, key_of f) /\
   plpgsql_check_cursors_leaks g = true /\
   plpgsql_check_cursors_leaks_strict g = false /\
   use_count f = 1 /\ cmd_type stmt = PLPGSQL_STMT_OPEN /\
   cells ft !! 0%nat = Some ct /\ stmtid ct = stmt_stmtid stmt /\
   curname ct = Some "c1" /\ SPI_cursor_find h "c1" = true /\
   v_cell (stmt_end_body h g f 4 ct).1 <> clear_slot ct /\
   sc_cells (stmt_end_scan h g f 4 ft) !! 0%nat <> Some (clear_slot ct) /\
   exists r,
     stmt_end h g (opening f "c2") stmt s (Some (0%nat, key_of f)) = Some r /\
     hr_log r = [(report_not_closed h g).1] /\
     hr_flow r = Raises /\
     entry (hr_statics r) (0%nat, key_of f) = Some ft /\
     stmtid <$> cells ft !! 0%nat = Some 4 /\
     curname <$> cells ft !! 0%nat = Some (Some "c1")) /\
  (let g := default_GUC in
   let setup := func_setup h g f initial_statics in
   exists open1 open2 end2 open3,
     stmt_end h g (opening f "c1") stmt setup.1 setup.2 = Some open1 /\
     let setup2 := func_setup h g f2 (hr_statics open1) in
     stmt_end h g (opening f2 "c2") stmt setup2.1 setup2.2 = Some open2 /\
     func_end h g f2 (hr_statics open2) (hr_plugin2_info open2) = Some end2 /\
     stmt_end h g (opening f "c3") stmt (hr_statics end2)
              (hr_plugin2_info open1) = Some open3 /\
     hr_log open1 = [] /\ hr_log open2 = [] /\ hr_log end2 = [] /\
     (live <$> entry (hr_statics end2) (0%nat, key_of f)) =
       Some [ {| stmtid := 4; rec_level := 1; curname := Some "c1" |};
              {| stmtid := 4; rec_level := 2; curname := Some "c2" |} ] /\
     hr_log open3 =
       [ (report_not_closed h g).1; (report_not_closed h g).1 ] /\
     hr_flow open3 = Returns /\
     length (hr_log open3) <> 1%nat).
Proof.
  intros h g f f2 opening stmt ct ft s. split.
  - repeat split; try discriminate.
    eexists. split; [reflexivity|]. repeat split.
  - eexists _, _, _, _. cbv zeta.
    do 4 (split; [reflexivity|]).
    split_and!; try (vm_compute; reflexivity). vm_compute. discriminate.
Qed.

(** ** Cells that recording leaves alone *)

Lemma record_cursor_append_lookup h f sid name ft i :
  (i < ncursors ft)%nat -> (i < length (cells ft))%nat ->
  cells (record_cursor h f sid name None ft) !! i = cells ft !! i.
Proof.
  intros Hi Hlen. unfold record_cursor, cells at 1. simpl.
  destruct (Nat.eqb_spec (ncursors ft) (cursors_size ft)) as [E|E].
  - unfold grow. destruct (Nat.ltb_spec 0 (cursors_size ft)) as [Hs|Hs].
    + simpl. unfold cells at 1. simpl.
      rewrite list_lookup_insert_ne by lia.
      by rewrite lookup_app_l.
    + lia.
  - rewrite list_lookup_insert_ne by lia. done.
Qed.

Lemma record_cursor_ncursors h f sid name free ft :
  ncursors (record_cursor h f sid name free ft) =
    match free with
    | Some _ => ncursors ft
    | None => S (ncursors ft)
    end.
Proof.
  unfold record_cursor. destruct free; simpl; [done|].
  destruct (ncursors ft =? cursors_size ft)%nat; [|done].
  unfold grow. by destruct (0 <? cursors_size ft)%nat.
Qed.

Arguments record_cursor : simpl never.

(** A cell that the scan kept, of a statement id other than [-1], is
    the same after the [OPEN] branch. *)
Lemma stmt_end_open_keeps_tracked h g f sid name ft i ct :
  sc_flow (stmt_end_scan h g f sid ft) = Returns ->
  (i < ncursors ft)%nat -> cells ft !! i = Some ct ->
  v_cell (stmt_end_body h g f sid ct).1 = ct -> stmtid ct <> -1 ->
  cells (stmt_end_open h g f sid name ft).1.1 !! i = Some ct /\
  (i < ncursors (stmt_end_open h g f sid name ft).1.1)%nat.
Proof.
  intros Hret Hi Hct Hkeep Hne.
  assert (live ft !! i = Some ct) as Hlive by by rewrite live_lookup.
  assert (Forall (fun c => v_flow (stmt_end_body h g f sid c).1 = Returns)
                 (live ft) \/
          ~ Forall (fun c => v_flow (stmt_end_body h g f sid c).1 = Returns)
                 (live ft)) as [Hall|Hnot].
  { destruct (decide (Forall (fun c =>
       v_flow (stmt_end_body h g f sid c).1 = Returns) (live ft))); auto. }
  2:{ exfalso. apply Hnot, Forall_forall. intros c Hc.
      apply list_elem_of_lookup_1 in Hc as [j Hj].
      destruct (v_flow (stmt_end_body h g f sid c).1) eqn:E; [done|].
      unfold stmt_end_scan in Hret.
      destruct (stmt_end_loop_raises_at h g f sid 0 (live ft) 0 None j c Hj E).
      congruence. }
  unfold stmt_end_open, stmt_end_scan in *.
  rewrite stmt_end_loop_returns in * by done. simpl in *.
  set (post := put_live ft (scanned h g f sid (live ft))).
  assert (cells post !! i = Some ct) as Hpost.
  { unfold post. rewrite put_live_lookup by apply scanned_length.
    rewrite decide_True by done. rewrite scanned_lookup, Hlive. simpl.
    by rewrite Hkeep. }
  assert (ncursors post = ncursors ft) as Hn by apply put_live_ncursors.
  destruct (_ <? MAX_NAMES_PER_STATEMENT)%nat; simpl; [|by rewrite Hn].
  rewrite record_cursor_ncursors.
  destruct (first_free (scanned h g f sid (live ft))) as [j|] eqn:Hfree;
    simpl.
  - split; [|lia]. rewrite record_cursor_reuse_lookup.
    rewrite decide_False; [done|]. intros [-> _].
    apply first_free_Some in Hfree as (c & Hc & Hm1 & _).
    rewrite scanned_lookup, Hlive in Hc. simpl in Hc.
    rewrite Hkeep in Hc. congruence.
  - split; [|lia]. rewrite record_cursor_append_lookup; [done|lia|].
    by eapply lookup_lt_Some.
Qed.

(** ** Strict mode: the report waits for teardown *)

Lemma func_end_body_strict_still_open h g f ct name :
  plpgsql_check_cursors_leaks_strict g = true ->
  curname ct = Some name -> rec_level ct = use_count f ->
  SPI_cursor_find h name = true ->
  func_end_body h g f ct = report_then_clear h g ct.
Proof.
  intros Hs Hn Hl Ho. unfold func_end_body.
  by rewrite Hn, Hl, Z.eqb_refl, Ho, Hs.
Qed.

(** C2, as amended.  Leak detection on (the activation holds a pointer
    to an entry) and strict mode on.  When an [OPEN] statement ends and a
    cell in use has its statement id and names a cursor that still
    exists, the hook emits no report at all and returns, the cell is
    counted in [cursors_for_current_stmt] and is still in the entry,
    unchanged, after the hook.

    At the teardown of the activation of the use level recorded in the
    cell, with the cursor still there, a visit of a cell of that level
    whose cursor still exists makes one report
    ([ERRCODE_INVALID_CURSOR_STATE], configured level), a visit of any
    other cell none.  Below [ERROR] every visit returns: [func_end] makes
    one report for each such cell, that of this cell between those of the
    cells before and after it.  At [ERROR] or above [func_end] makes
    exactly one report, for the first such cell, and raises there: that
    cell and the cells after it are as they were and are not reported,
    the cells before it as their visits left them. *)
Theorem stmt_end_strict_defers_report_to_func_end :
  forall (h : Host) (g : GUC) (estate : PLpgSQL_execstate)
         (stmt : PLpgSQL_stmt) (s : Statics) (p : Pointer)
         (ft : FunctionTrace) (var : PLpgSQL_var) (i : nat)
         (ct : CursorTrace) (name : string),
    plpgsql_check_cursors_leaks_strict g = true ->
    attached h s p ft ->
    cmd_type stmt = PLPGSQL_STMT_OPEN ->
    datums estate !! curvar stmt = Some var -> isnull var = false ->
    (i < ncursors ft)%nat -> cells ft !! i = Some ct ->
    curname ct = Some name -> stmtid ct = stmt_stmtid stmt ->
    stmt_stmtid stmt <> -1 ->
    SPI_cursor_find h name = true ->
    let f := func estate in
    let sid := stmt_stmtid stmt in
    stmt_end_body h g f sid ct = (untouched ct, true) /\
    cursors_for_current_stmt (stmt_end_scan h g f sid ft) =
      length (filter (still_tracked h g f sid) (live ft)) /\
    (1 <= cursors_for_current_stmt (stmt_end_scan h g f sid ft))%nat /\
    (exists r ft',
       stmt_end h g estate stmt s (Some p) = Some r /\
       hr_log r = [] /\ hr_flow r = Returns /\
       entry (hr_statics r) p = Some ft' /\
       (i < ncursors ft')%nat /\ cells ft' !! i = Some ct) /\
    (forall (h' : Host) (f' : PLpgSQL_function) (s' : Statics)
            (p' : Pointer) (ft1 : FunctionTrace),
       use_count f' = rec_level ct -> SPI_cursor_find h' name = true ->
       attached h' s' p' ft1 ->
       (i < ncursors ft1)%nat -> cells ft1 !! i = Some ct ->
       let e := {| elevel := plpgsql_check_cursors_leaks_level g;
                   sqlerrcode := ERRCODE_INVALID_CURSOR_STATE;
                   message := "cursor is not closed";
                   detail := GetErrorContextStack h' |} in
       let visit := func_end_body h' g f' in
       let logs := flat_map (fun c => v_log (visit c)) in
       (forall c, v_log (visit c) = if left_open h' f' c then [e] else []) /\
       left_open h' f' ct = true /\
       (plpgsql_check_cursors_leaks_level g < ERROR ->
          exists r',
            func_end h' g f' s' (Some p') = Some r' /\
            hr_flow r' = Returns /\
            hr_log r' =
              logs (take i (live ft1)) ++ [e] ++ logs (drop (S i) (live ft1)) /\
            hr_log r' =
              replicate (length (filter (left_open h' f') (live ft1))) e) /\
       (ERROR <= plpgsql_check_cursors_leaks_level g ->
          exists r' ft' j cj,
            func_end h' g f' s' (Some p') = Some r' /\
            hr_flow r' = Raises /\ hr_log r' = [e] /\
            (j <= i)%nat /\ cells ft1 !! j = Some cj /\
            left_open h' f' cj = true /\
            (forall j' c, (j' < j)%nat -> cells ft1 !! j' = Some c ->
               left_open h' f' c = false) /\
            visit cj = {| v_cell := cj; v_log := [e]; v_flow := Raises |} /\
            entry (hr_statics r') p' = Some ft' /\
            ncursors ft' = ncursors ft1 /\
            cursors_size ft' = cursors_size ft1 /\
            (forall j', (j <= j')%nat -> cells ft' !! j' = cells ft1 !! j') /\
            (forall j' c, (j' < j)%nat -> cells ft1 !! j' = Some c ->
               cells ft' !! j' = Some (v_cell (visit c))))).
Proof.
  intros h g estate stmt s p ft var i ct name
         Hstrict Hat Hop Hvar Hnn Hi Hct Hname Hsid Hsid1 Hopen f sid.
  assert ((use_count f =? 1) &&
          negb (plpgsql_check_cursors_leaks_strict g) = false) as Hd.
  { rewrite Hstrict. apply andb_false_r. }
  assert (still_tracked h g f sid ct = true) as Htr.
  { unfold still_tracked. fold sid in Hsid.
    by rewrite Hname, Hsid, Z.eqb_refl, Hopen, Hd. }
  assert (live ft !! i = Some ct) as Hlive by by rewrite live_lookup.
  assert (cursors_for_current_stmt (stmt_end_scan h g f sid ft) =
          length (filter (still_tracked h g f sid) (live ft))) as Hcount.
  { unfold stmt_end_scan. rewrite stmt_end_loop_deferred by done. simpl.
    apply kept_count_still_tracked. }
  split.
  { rewrite (surjective_pairing (stmt_end_body h g f sid ct)).
    by rewrite stmt_end_body_kept, Htr, stmt_end_body_still_tracked. }
  split; [done|]. split.
  { rewrite Hcount.
    assert (ct ∈ filter (still_tracked h g f sid) (live ft)) as Hin.
    { apply list_elem_of_filter. split; [by rewrite Htr|].
      by eapply list_elem_of_lookup_2. }
    destruct (filter _ (live ft)); [by apply elem_of_nil in Hin|simpl; lia]. }
  split.
  - destruct (stmt_end_attached_entry h g estate stmt s p ft var
                Hat Hop Hvar Hnn) as (r & Hr & Hlog & Hfl & _ & Hent).
    fold f sid in Hlog, Hfl, Hent.
    exists r, (stmt_end_open h g f sid (value var) ft).1.1.
    split; [done|].
    rewrite stmt_end_open_deferred in Hlog, Hfl by done.
    split; [done|]. split; [done|]. split; [done|].
    fold sid in Hsid.
    destruct (stmt_end_open_keeps_tracked h g f sid (value var) ft i ct);
      auto.
    + unfold stmt_end_scan. by rewrite stmt_end_loop_deferred.
    + by rewrite stmt_end_body_still_tracked.
    + by rewrite Hsid.
  - intros h' f' s' p' ft1 Hlevel Hopen' Hat' Hi1 Hct1 e visit logs.
    assert (live ft1 !! i = Some ct) as Hlive1 by by rewrite live_lookup.
    assert (left_open h' f' ct = true) as Hleft.
    { unfold left_open. by rewrite Hname, Hlevel, Z.eqb_refl, Hopen'. }
    assert (forall c, v_log (visit c) = if left_open h' f' c then [e] else [])
      as Hlogs.
    { intros c. unfold visit. destruct (left_open h' f' c) eqn:Hc.
      - rewrite func_end_body_left_open by done. apply report_then_clear_log.
      - by destruct (func_end_body_not_left_open h' g f' c Hc). }
    destruct (func_end_attached_entry h' g f' s' p' ft1 Hat')
      as (r' & Hr' & Hlog' & Hfl' & _ & Hent').
    unfold func_end_trace in Hlog', Hfl', Hent'. simpl in Hlog', Hfl', Hent'.
    split; [done|]. split; [done|]. split.
    + intros Hlvl. exists r'. split; [done|].
      rewrite func_end_loop_below_ERROR in Hlog', Hfl' by done.
      simpl in Hlog', Hfl'. split; [done|]. split.
      * rewrite Hlog'.
        rewrite <- (take_drop_middle (live ft1) i ct Hlive1) at 1.
        unfold logs. rewrite flat_map_app. simpl.
        fold (visit ct). by rewrite Hlogs, Hleft.
      * rewrite Hlog'. by apply flat_map_reports.
    + intros Hlvl.
      destruct (first_selected (left_open h' f') (live ft1) i ct Hlive1 Hleft)
        as (j & cj & Hji & Hj & Hcj & Hmin).
      assert (visit cj = {| v_cell := cj; v_log := [e]; v_flow := Raises |})
        as Hvisit.
      { unfold visit. rewrite func_end_body_left_open by done.
        by rewrite report_then_clear_raises. }
      assert (forall j' c, (j' < j)%nat -> live ft1 !! j' = Some c ->
                v_log (visit c) = [] /\ v_flow (visit c) = Returns) as Hquiet.
      { intros j' c Hlt Hc.
        apply func_end_body_not_left_open. by eapply Hmin. }
      pose proof (func_end_loop_first_raise h' g f' (live ft1) j cj Hj)
        as Hloop.
      rewrite Hloop in Hlog', Hfl', Hent'.
      2,4,6:(fold (visit cj); by rewrite Hvisit).
      2,3,4:(intros j' c Hlt Hc; by destruct (Hquiet j' c Hlt Hc)).
      simpl in Hlog', Hfl', Hent'.
      assert (flat_map (fun c => v_log (func_end_body h' g f' c))
                       (take j (live ft1)) = []) as Hnil.
      { apply flat_map_quiet, Forall_forall. intros c Hc.
        apply list_elem_of_lookup_1 in Hc as [j' Hc].
        apply lookup_take_Some in Hc as [Hc Hlt].
        by destruct (Hquiet j' c Hlt Hc). }
      apply live_lookup_Some in Hj as Hj'. destruct Hj' as [Hjn Hjc].
      eexists r', _, j, cj.
      split; [done|]. split; [done|]. split.
      { rewrite Hlog', Hnil. simpl. fold (visit cj). by rewrite Hvisit. }
      split; [done|]. split; [done|]. split; [done|]. split.
      { intros j' c Hlt Hc. apply (Hmin j' c Hlt).
        rewrite live_lookup by lia. done. }
      split; [done|]. split; [exact Hent'|].
      split; [apply put_live_ncursors|].
      split; [apply put_live_cursors_size|].
      assert (length (take j (live ft1)) = j) as Htake.
      { rewrite length_take. apply lookup_lt_Some in Hj. lia. }
      assert (length (((fun c => v_cell (func_end_body h' g f' c))
                         <$> take j (live ft1)) ++ drop j (live ft1))
              = length (live ft1)) as Hlen.
      { rewrite length_app, length_fmap, length_take, length_drop.
        apply lookup_lt_Some in Hj. lia. }
      split.
      * intros j' Hle. rewrite put_live_lookup by done.
        case_decide as Hlt; [|done].
        rewrite lookup_app_r by (rewrite length_fmap; lia).
        rewrite length_fmap, Htake, lookup_drop.
        replace (j + (j' - j))%nat with j' by lia.
        by apply live_lookup.
      * intros j' c Hlt Hc. rewrite put_live_lookup by done.
        rewrite decide_True by lia.
        rewrite lookup_app_l by (rewrite length_fmap; lia).
        rewrite list_lookup_fmap, lookup_take_lt by done.
        rewrite live_lookup by lia. by rewrite Hc.
Qed.

Lemma stmt_end_strict_defers_report_to_func_end_witness :
  let h := {| MyProc_lxid := 8%N; SPI_cursor_find := fun _ => true;
              GetErrorContextStack := "PL/pgSQL function f() line 5";
              palloc_cell := {| stmtid := 0; rec_level := 0;
                                curname := None |} |} in
  let g := {| plpgsql_check_cursors_leaks := true;
              plpgsql_check_cursors_leaks_strict := true;
              plpgsql_check_cursors_leaks_level := WARNING |} in
  let f := {| fn_oid := 16384%N; fn_xmin := 700%N; use_count := 1 |} in
  let estate := {| func := f;
                   datums := [ {| isnull := false; value := "c2" |} ] |} in
  let stmt := {| cmd_type := PLPGSQL_STMT_OPEN; stmt_stmtid := 4;
                 curvar := 0 |} in
  let ct := {| stmtid := 4; rec_level := 1; curname := Some "c1" |} in
  let ft := {| key := key_of f; ncursors := 1; cursors_size := 10;
               cursors_traces := Some (ct :: replicate 9 (palloc_cell h)) |} in
  let s := {| traces_lxid := 8%N; traces := Some 0%nat;
              memory := {[ (0%nat, key_of f) := ft ]} |} in
  (exists r ft',
     stmt_end h g estate stmt s (Some (0%nat, key_of f)) = Some r /\
     hr_log r = [] /\ hr_flow r = Returns /\
     entry (hr_statics r) (0%nat, key_of f) = Some ft' /\
     (0 < ncursors ft')%nat /\ cells ft' !! 0%nat = Some ct) /\
  (exists r',
     func_end h g f s (Some (0%nat, key_of f)) = Some r' /\
     hr_flow r' = Returns /\
     hr_log r' = [ (report_not_closed h g).1 ]).
Proof.
  intros h g f estate stmt ct ft s.
  assert (attached h s (0%nat, key_of f) ft) as Hat.
  { split; [reflexivity|]. unfold entry. simpl. apply lookup_singleton_eq. }
  assert (0 < ncursors ft)%nat as Hi by (simpl; lia).
  assert (stmt_stmtid stmt <> -1) as Hsid by (simpl; lia).
  assert (plpgsql_check_cursors_leaks_level g < ERROR) as Hlvl
    by (simpl; unfold WARNING, ERROR; lia).
  destruct (stmt_end_strict_defers_report_to_func_end
              h g estate stmt s (0%nat, key_of f) ft
              {| isnull := false; value := "c2" |} 0%nat ct "c1"
              eq_refl Hat eq_refl eq_refl eq_refl Hi
              eq_refl eq_refl eq_refl Hsid eq_refl)
    as (_ & _ & _ & Hend & Htear).
  split; [exact Hend|].
  destruct (Htear h f s (0%nat, key_of f) ft eq_refl eq_refl Hat Hi eq_refl)
    as (_ & _ & Hlow & _).
  destruct (Hlow Hlvl) as (r' & Hr' & Hfl' & _ & Hlog').
  exists r'. split; [exact Hr'|]. split; [exact Hfl'|]. exact Hlog'.
Defined.

(** One report at teardown for the cursor left open is not what always
    happens.  In strict mode statement 3 opens ["a"], statement 4 opens
    ["c1"], and statement 4 runs again and opens ["c2"] while ["c1"] still
    exists: no report, ["c1"] stays tracked.  All three cursors are still
    open at teardown.  At level [ERROR] teardown makes one report and
    raises at the cell of ["a"]: the cell of ["c1"] is never visited, so
    that ["c1"] is not reported.  At level [WARNING] teardown makes three
    reports. *)
Lemma func_end_strict_reports_first_only_at_ERROR :
  let h := {| MyProc_lxid := 8%N; SPI_cursor_find := fun _ => true;
              GetErrorContextStack := "PL/pgSQL function f() line 9";
              palloc_cell := {| stmtid := 0; rec_level := 0;
                                curname := None |} |} in
  let strict := fun level =>
    {| plpgsql_check_cursors_leaks := true;
       plpgsql_check_cursors_leaks_strict := true;
       plpgsql_check_cursors_leaks_level := level |} in
  let f := {| fn_oid := 16384%N; fn_xmin := 700%N; use_count := 1 |} in
  let opening := fun (name : string) =>
    {| func := f; datums := [ {| isnull := false; value := name |} ] |} in
  let stmt3 := {| cmd_type := PLPGSQL_STMT_OPEN; stmt_stmtid := 3;
                  curvar := 0 |} in
  let stmt4 := {| cmd_type := PLPGSQL_STMT_OPEN; stmt_stmtid := 4;
                  curvar := 0 |} in
  let a := {| stmtid := 3; rec_level := 1; curname := Some "a" |} in
  let c1 := {| stmtid := 4; rec_level := 1; curname := Some "c1" |} in
  let c2 := {| stmtid := 4; rec_level := 1; curname := Some "c2" |} in
  let run := fun g =>
    let setup := func_setup h g f initial_statics in
    open_a ← stmt_end h g (opening "a") stmt3 setup.1 setup.2;
    open_c1 ← stmt_end h g (opening "c1") stmt4 (hr_statics open_a)
                       (hr_plugin2_info open_a);
    open_c2 ← stmt_end h g (opening "c2") stmt4 (hr_statics open_c1)
                       (hr_plugin2_info open_c1);
    teardown ← func_end h g f (hr_statics open_c2) (hr_plugin2_info open_c2);
    Some (open_c2, teardown) in
  left_open h f a = true /\ left_open h f c1 = true /\
  left_open h f c2 = true /\
  (exists open_c2 teardown,
     run (strict ERROR) = Some (open_c2, teardown) /\
     hr_log open_c2 = [] /\ hr_flow open_c2 = Returns /\
     (live <$> entry (hr_statics open_c2) (0%nat, key_of f)) =
       Some [a; c1; c2] /\
     hr_log teardown = [ (report_not_closed h (strict ERROR)).1 ] /\
     hr_flow teardown = Raises /\
     func_end_loop h (strict ERROR) f [a; c1; c2] =
       {| sw_cells := [a; c1; c2];
          sw_log := v_log (func_end_body h (strict ERROR) f a);
          sw_flow := Raises |} /\
     (live <$> entry (hr_statics teardown) (0%nat, key_of f)) =
       Some [a; c1; c2]) /\
  (exists open_c2 teardown,
     run (strict WARNING) = Some (open_c2, teardown) /\
     hr_log open_c2 = [] /\ hr_flow open_c2 = Returns /\
     (live <$> entry (hr_statics open_c2) (0%nat, key_of f)) =
       Some [a; c1; c2] /\
     hr_log teardown = replicate 3 (report_not_closed h (strict WARNING)).1 /\
     hr_flow teardown = Returns /\
     length (hr_log teardown) <> 1%nat).
Proof.
  intros h strict f opening stmt3 stmt4 a c1 c2 run.
  split; [reflexivity|]. split; [reflexivity|]. split; [reflexivity|].
  split.
  - eexists _, _. split; [reflexivity|].
    split_and!; vm_compute; reflexivity.
  - eexists _, _. split; [reflexivity|].
    split_and!; try (vm_compute; reflexivity). vm_compute. discriminate.
Qed.

(** ** Invariants of the entries *)

Lemma clear_slot_consistent ct : slot_consistent (clear_slot ct).
Proof. by split. Qed.

Lemma put_live_wf ft l :
  trace_wf ft -> length l = length (live ft) -> trace_wf (put_live ft l).
Proof.
  intros [H1 H2] Hl. split.
  - rewrite put_live_cells, put_live_cursors_size by done.
    rewrite length_app, Hl, <- length_app, live_spare. done.
  - by rewrite put_live_ncursors, put_live_cursors_size.
Qed.

Lemma put_live_consistent ft l :
  trace_consistent ft -> length l = length (live ft) ->
  (forall i c, l !! i = Some c ->
     exists ct, cells ft !! i = Some ct /\ (c = ct \/ c = clear_slot ct)) ->
  trace_consistent (put_live ft l).
Proof.
  intros Hc Hl Hcells i c Hi Hic.
  rewrite put_live_ncursors in Hi.
  rewrite put_live_lookup in Hic by done. rewrite decide_True in Hic by done.
  destruct (Hcells i c Hic) as (ct & Hct & [->| ->]).
  - by eapply Hc.
  - apply clear_slot_consistent.
Qed.

Lemma grow_wf h ft : trace_wf ft -> trace_wf (grow h ft).
Proof.
  intros [H1 H2]. unfold grow.
  destruct (Nat.ltb_spec 0 (cursors_size ft)); split; simpl; try lia.
  unfold cells at 1. simpl. rewrite length_app. simpl. lia.
Qed.

Lemma record_cursor_wf h f sid name free ft :
  trace_wf ft -> trace_wf (record_cursor h f sid name free ft).
Proof.
  intros Hwf. unfold record_cursor. destruct free as [j|].
  - destruct Hwf as [H1 H2]. split; simpl; [|done].
    unfold cells at 1. simpl. by rewrite length_insert.
  - destruct (Nat.eqb_spec (ncursors ft) (cursors_size ft)) as [E|E].
    + destruct (grow_wf h ft Hwf) as [H1 H2]. split; simpl.
      * unfold cells at 1. simpl. by rewrite length_insert.
      * unfold grow in *.
        destruct (Nat.ltb_spec 0 (cursors_size ft)); simpl in *; lia.
    + destruct Hwf as [H1 H2]. split; simpl.
      * unfold cells at 1. simpl. by rewrite length_insert.
      * lia.
Qed.

Lemma record_cursor_consistent h f sid name free ft :
  trace_wf ft -> trace_consistent ft -> sid <> -1 ->
  trace_consistent (record_cursor h f sid name free ft).
Proof.
  intros Hwf Hc Hsid i c Hi Hic.
  assert (slot_consistent {| stmtid := sid; rec_level := use_count f;
                             curname := Some name |}) as Hnew.
  { split; simpl; [done|]. intros; done. }
  destruct free as [j|].
  - rewrite record_cursor_reuse_lookup in Hic.
    rewrite record_cursor_ncursors in Hi.
    case_decide; [by injection Hic as <-|]. by eapply Hc.
  - rewrite record_cursor_ncursors in Hi.
    destruct (decide (i = ncursors ft)) as [->|Hne].
    + unfold record_cursor in Hic. unfold cells at 1 in Hic. simpl in Hic.
      assert (ncursors (if (ncursors ft =? cursors_size ft)%nat
                        then grow h ft else ft) = ncursors ft) as Hn.
      { destruct (ncursors ft =? cursors_size ft)%nat; [|done].
        unfold grow. by destruct (0 <? cursors_size ft)%nat. }
      rewrite Hn in Hic.
      apply list_lookup_insert_Some in Hic as [(_ & <- & _)|[? _]]; done.
    + destruct Hwf as [H1 H2].
      rewrite record_cursor_append_lookup in Hic by lia. eapply Hc; [|done].
      lia.
Qed.

Lemma new_trace_inv f : entry_inv (new_trace f).
Proof.
  split; [apply new_trace_wf|]. intros i ct Hi. simpl in Hi. lia.
Qed.

Lemma func_end_trace_inv h g f ft :
  entry_inv ft -> entry_inv (func_end_trace h g f ft).1.1.
Proof.
  intros [Hwf Hc]. unfold func_end_trace. simpl. split.
  - apply put_live_wf; [done|apply func_end_loop_length].
  - apply put_live_consistent; [done|apply func_end_loop_length|].
    intros i c Hic.
    assert (i < length (live ft))%nat as Hlt.
    { rewrite <- (func_end_loop_length h g f). by eapply lookup_lt_Some. }
    destruct (lookup_lt_is_Some_2 _ _ Hlt) as [ct Hct].
    exists ct. split; [by apply live_lookup_Some in Hct as [_ ?]|].
    destruct (func_end_loop_lookup h g f (live ft) i ct Hct); left + right;
      congruence.
Qed.

Lemma stmt_end_scan_inv h g f sid ft :
  entry_inv ft ->
  entry_inv (put_live ft (sc_cells (stmt_end_scan h g f sid ft))).
Proof.
  intros [Hwf Hc]. unfold stmt_end_scan. split.
  - apply put_live_wf; [done|apply stmt_end_loop_length].
  - apply put_live_consistent; [done|apply stmt_end_loop_length|].
    intros i c Hic.
    assert (i < length (live ft))%nat as Hlt.
    { rewrite <- (stmt_end_loop_length h g f sid 0 (live ft) 0 None).
      by eapply lookup_lt_Some. }
    destruct (lookup_lt_is_Some_2 _ _ Hlt) as [ct Hct].
    exists ct. split; [by apply live_lookup_Some in Hct as [_ ?]|].
    destruct (stmt_end_loop_lookup h g f sid 0 (live ft) 0 None i ct Hct);
      left + right; congruence.
Qed.

Lemma stmt_end_open_inv h g f sid name ft :
  entry_inv ft -> sid <> -1 ->
  entry_inv (stmt_end_open h g f sid name ft).1.1.
Proof.
  intros Hinv Hsid. unfold stmt_end_open.
  pose proof (stmt_end_scan_inv h g f sid ft Hinv) as [Hwf Hc].
  destruct (sc_flow (stmt_end_scan h g f sid ft)); simpl; [|done].
  destruct (_ <? MAX_NAMES_PER_STATEMENT)%nat; simpl; [|done].
  split; [by apply record_cursor_wf | by apply record_cursor_consistent].
Qed.

(** ** Invariants of the table *)

Lemma get_function_trace_inv h f s :
  statics_inv s -> statics_inv (get_function_trace h f s).1.
Proof.
  intros Hinv p ft He.
  destruct (get_function_trace_entry h f s p ft He) as [Hold|[_ ->]].
  - by eapply Hinv.
  - apply new_trace_inv.
Qed.

Lemma set_entry_inv s p ft :
  statics_inv s -> entry_inv ft -> statics_inv (set_entry s p ft).
Proof.
  intros Hinv Hft p' ft' He. destruct (decide (p' = p)) as [->|Hne].
  - unfold entry, set_entry in He. simpl in He.
    rewrite lookup_insert_eq in He. by injection He as <-.
  - rewrite entry_set_entry_ne in He by done. by eapply Hinv.
Qed.

Lemma func_setup_inv h g f s :
  statics_inv s -> statics_inv (func_setup h g f s).1.
Proof.
  intros Hinv. unfold func_setup.
  destruct (plpgsql_check_cursors_leaks g); [|done].
  pose proof (get_function_trace_inv h f s Hinv) as H.
  by destruct (get_function_trace h f s).
Qed.

Lemma func_end_inv h g f s plugin2_info r :
  statics_inv s -> func_end h g f s plugin2_info = Some r ->
  statics_inv (hr_statics r).
Proof.
  intros Hinv. unfold func_end. destruct plugin2_info as [p|].
  2:{ by intros [= <-]. }
  destruct (negb (traces_lxid s =? MyProc_lxid h)%N).
  { by intros [= <-]. }
  destruct (entry s p) as [ft|] eqn:He; [|done]. simpl.
  pose proof (func_end_trace_inv h g f ft (Hinv p ft He)) as Hft.
  unfold func_end_trace in Hft. simpl in Hft.
  intros [= <-]. simpl. by apply set_entry_inv.
Qed.

Lemma stmt_end_inv h g estate stmt s plugin2_info r :
  statics_inv s -> 0 <= stmt_stmtid stmt ->
  stmt_end h g estate stmt s plugin2_info = Some r ->
  statics_inv (hr_statics r).
Proof.
  intros Hinv Hsid. unfold stmt_end. destruct plugin2_info as [p0|].
  2:{ by intros [= <-]. }
  set (sp := if negb (traces_lxid s =? MyProc_lxid h)%N
             then get_function_trace h (func estate) s
             else (s, p0)).
  assert (statics_inv sp.1) as Hinv1.
  { unfold sp. destruct (negb (traces_lxid s =? MyProc_lxid h)%N); [|done].
    by apply get_function_trace_inv. }
  destruct sp as [s1 p]. simpl in Hinv1.
  destruct (decide (cmd_type stmt = PLPGSQL_STMT_OPEN)).
  2:{ by intros [= <-]. }
  destruct (entry s1 p) as [ft|] eqn:He; [|done]. simpl.
  pose proof (stmt_end_scan_inv h g (func estate) (stmt_stmtid stmt) ft
                (Hinv1 p ft He)) as Hscan.
  destruct (sc_flow (stmt_end_scan h g (func estate) (stmt_stmtid stmt) ft)).
  - destruct (datums estate !! curvar stmt) as [var|]; [|done]. simpl.
    destruct (isnull var); [done|].
    intros [= <-]. simpl. apply set_entry_inv; [done|].
    destruct (_ <? MAX_NAMES_PER_STATEMENT)%nat; [|done].
    destruct Hscan as [Hwf Hc].
    split; [by apply record_cursor_wf|].
    apply record_cursor_consistent; [done..|lia].
  - intros [= <-]. simpl. by apply set_entry_inv.
Qed.

Lemma reachable_inv s : reachable s -> statics_inv s.
Proof.
  induction 1 as [|h g f s _ IH|h g estate stmt s info r _ IH Hsid Hr
                  |h g f s info r _ IH Hr].
  - intros p ft He. done.
  - by apply func_setup_inv.
  - by eapply stmt_end_inv.
  - by eapply func_end_inv.
Qed.

(** C9.  In every entry of a table that the hooks can produce, every
    cell below [ncursors] exists and has a null name exactly when its
    statement id is [-1]; so the test for a free slot in [stmt_end]
    (statement id alone) and the test of [func_end] (name alone) agree
    on it.  A cell as [clear_slot] leaves it has both, and a cell that
    [record_cursor] writes for a non-negative statement id has
    neither. *)
Theorem reachable_slots_name_null_iff_stmtid_free :
  forall (s : Statics) (p : Pointer) (ft : FunctionTrace) (i : nat),
    reachable s -> entry s p = Some ft -> (i < ncursors ft)%nat ->
    (exists ct, cells ft !! i = Some ct /\
       (curname ct = None <-> stmtid ct = -1) /\
       (stmtid ct =? -1) = negb (bool_decide (is_Some (curname ct)))) /\
    (forall ct, curname (clear_slot ct) = None /\ stmtid (clear_slot ct) = -1) /\
    (forall h f sid name free ft0 j ct,
       trace_wf ft0 -> 0 <= sid ->
       (j < ncursors (record_cursor h f sid name free ft0))%nat ->
       cells (record_cursor h f sid name free ft0) !! j = Some ct ->
       cells ft0 !! j <> Some ct ->
       curname ct = Some name /\ stmtid ct = sid /\ stmtid ct <> -1).
Proof.
  intros s p ft i Hreach He Hi.
  destruct (reachable_inv s Hreach p ft He) as [[Hlen Hn] Hc].
  split; [|split; [done|]].
  - destruct (lookup_lt_is_Some_2 (cells ft) i) as [ct Hct]; [lia|].
    exists ct. split; [done|]. pose proof (Hc i ct Hi Hct) as Hslot.
    split; [exact Hslot|].
    destruct (Z.eqb_spec (stmtid ct) (-1)) as [E|E].
    + apply Hslot in E. rewrite E. symmetry. apply negb_true_iff.
      apply bool_decide_eq_false. by intros [? ?].
    + symmetry. apply negb_false_iff, bool_decide_eq_true.
      destruct (curname ct) eqn:En; [done|].
      exfalso. apply E, Hslot. done.
  - intros h f sid name free ft0 j ct [Hlen0 Hn0] Hsid Hlt Hj Hold.
    assert (ct = {| stmtid := sid; rec_level := use_count f;
                    curname := Some name |}) as ->;
      [|simpl; split_and!; [done..|lia]].
    rewrite record_cursor_ncursors in Hlt.
    destruct free as [j0|].
    + rewrite record_cursor_reuse_lookup in Hj.
      case_decide; [congruence|done].
    + destruct (decide (j = ncursors ft0)) as [->|Hne].
      * unfold record_cursor, cells at 1 in Hj. simpl in Hj.
        assert (ncursors (if (ncursors ft0 =? cursors_size ft0)%nat
                          then grow h ft0 else ft0) = ncursors ft0) as Hg.
        { destruct (ncursors ft0 =? cursors_size ft0)%nat; [|done].
          unfold grow. by destruct (0 <? cursors_size ft0)%nat. }
        rewrite Hg in Hj.
        apply list_lookup_insert_Some in Hj as [(_ & <- & _)|[? _]]; done.
      * rewrite record_cursor_append_lookup in Hj by lia. done.
Qed.

Lemma reachable_slots_name_null_iff_stmtid_free_witness :
  let h := {| MyProc_lxid := 8%N; SPI_cursor_find := fun _ => true;
              GetErrorContextStack := "";
              palloc_cell := {| stmtid := 0; rec_level := 0;
                                curname := None |} |} in
  let f := {| fn_oid := 16384%N; fn_xmin := 700%N; use_count := 1 |} in
  let estate := {| func := f;
                   datums := [ {| isnull := false; value := "c1" |} ] |} in
  let stmt := {| cmd_type := PLPGSQL_STMT_OPEN; stmt_stmtid := 4;
                 curvar := 0 |} in
  let s1 := (func_setup h default_GUC f initial_statics).1 in
  exists r ft ct,
    stmt_end h default_GUC estate stmt s1 (Some (0%nat, key_of f)) = Some r /\
    entry (hr_statics r) (0%nat, key_of f) = Some ft /\
    cells ft !! 0%nat = Some ct /\
    (curname ct = None <-> stmtid ct = -1).
Proof.
  intros h f estate stmt s1.
  destruct (stmt_end h default_GUC estate stmt s1 (Some (0%nat, key_of f)))
    as [r|] eqn:Hr; [|vm_compute in Hr; discriminate Hr].
  assert (reachable (hr_statics r)) as Hreach.
  { eapply (reachable_stmt_end h default_GUC estate stmt s1);
      [apply reachable_func_setup, reachable_initial | simpl; lia | exact Hr]. }
  assert (exists ft, entry (hr_statics r) (0%nat, key_of f) = Some ft /\
                     (0 < ncursors ft)%nat) as (ft & He & Hi).
  { vm_compute in Hr. injection Hr as <-. eexists. split; [reflexivity|].
    simpl. lia. }
  destruct (reachable_slots_name_null_iff_stmtid_free
              (hr_statics r) (0%nat, key_of f) ft 0%nat Hreach He Hi)
    as [(ct & Hct & Hiff & _) _].
  exists r, ft, ct. done.
Defined.

(** ** The scan when it returns *)

Lemma stmt_end_loop_flow_returns h g f sid i l count free :
  sc_flow (stmt_end_loop h g f sid i l count free) = Returns ->
  Forall (fun ct => v_flow (stmt_end_body h g f sid ct).1 = Returns) l.
Proof.
  intros Hret. apply Forall_forall. intros c Hc.
  apply list_elem_of_lookup_1 in Hc as [j Hj].
  destruct (v_flow (stmt_end_body h g f sid c).1) eqn:E; [done|].
  destruct (stmt_end_loop_raises_at h g f sid i l count free j c Hj E).
  congruence.
Qed.

Lemma stmt_end_scan_returns h g f sid ft :
  sc_flow (stmt_end_scan h g f sid ft) = Returns ->
  stmt_end_scan h g f sid ft =
    {| sc_cells := scanned h g f sid (live ft);
       sc_log := flat_map (fun ct => v_log (stmt_end_body h g f sid ct).1)
                          (live ft);
       sc_flow := Returns;
       cursors_for_current_stmt :=
         length (filter (still_tracked h g f sid) (live ft));
       free_slot := first_free (scanned h g f sid (live ft)) |}.
Proof.
  intros Hret. unfold stmt_end_scan in *.
  rewrite stmt_end_loop_returns
    by by eapply stmt_end_loop_flow_returns.
  rewrite kept_count_still_tracked. simpl. f_equal.
  by destruct (first_free _).
Qed.

(** With at least one cell counted, the scan is in the deferring mode
    and emits nothing. *)
Lemma still_tracked_deferred h g f sid ct :
  still_tracked h g f sid ct = true ->
  (use_count f =? 1) && negb (plpgsql_check_cursors_leaks_strict g) = false.
Proof.
  unfold still_tracked. destruct (curname ct); [|done].
  intros H. apply andb_prop in H as [_ H]. by apply negb_true_iff in H.
Qed.

Lemma filter_still_tracked_deferred h g f sid l :
  (0 < length (filter (still_tracked h g f sid) l))%nat ->
  (use_count f =? 1) && negb (plpgsql_check_cursors_leaks_strict g) = false.
Proof.
  destruct (filter (still_tracked h g f sid) l) as [|ct rest] eqn:E;
    simpl; [lia|]. intros _.
  assert (ct ∈ filter (still_tracked h g f sid) l) as Hin
    by (rewrite E; left).
  apply list_elem_of_filter in Hin as [Hct _].
  apply (still_tracked_deferred h g f sid ct). by destruct (still_tracked _ _ _ _ _).
Qed.

Lemma scanned_cell h g f sid l j c :
  scanned h g f sid l !! j = Some c ->
  exists ct, l !! j = Some ct /\ (c = ct \/ c = clear_slot ct).
Proof.
  rewrite scanned_lookup. destruct (l !! j) as [ct|]; [|done].
  simpl. intros [= <-]. exists ct. split; [done|].
  apply stmt_end_body_cell.
Qed.

(** ** The cap on the cursors of one statement *)

(** C5.  When an [OPEN] statement ends, the cursor it opened is recorded
    only if fewer than [MAX_NAMES_PER_STATEMENT] (20) cells in use are
    still tracked for the statement, that is, have its statement id, name
    a cursor that still exists, and were kept by the scan (not cleared
    after a report): this number is the value of
    [cursors_for_current_stmt].  When it has reached 20 the hook writes
    no cell: the entry afterwards is the entry as the scan left it, with
    the same [ncursors] and capacity, every cell being as before or
    cleared.  When it is below 20 and the scan returns, the entry
    afterwards is the one [record_cursor] gives, and holds the new cell
    below [ncursors]. *)
Theorem stmt_end_records_below_cap_only :
  forall (h : Host) (g : GUC) (estate : PLpgSQL_execstate)
         (stmt : PLpgSQL_stmt) (s : Statics) (p : Pointer)
         (ft : FunctionTrace) (var : PLpgSQL_var),
    attached h s p ft -> trace_wf ft ->
    cmd_type stmt = PLPGSQL_STMT_OPEN ->
    datums estate !! curvar stmt = Some var -> isnull var = false ->
    let f := func estate in
    let sid := stmt_stmtid stmt in
    let n := length (filter (still_tracked h g f sid) (live ft)) in
    let post := put_live ft (scanned h g f sid (live ft)) in
    let ct := {| stmtid := sid; rec_level := use_count f;
                 curname := Some (value var) |} in
    MAX_NAMES_PER_STATEMENT = 20%nat /\
    (sc_flow (stmt_end_scan h g f sid ft) = Returns ->
       cursors_for_current_stmt (stmt_end_scan h g f sid ft) = n) /\
    ((MAX_NAMES_PER_STATEMENT <= n)%nat ->
       exists r,
         stmt_end h g estate stmt s (Some p) = Some r /\
         hr_flow r = Returns /\ hr_log r = [] /\
         entry (hr_statics r) p = Some post /\
         ncursors post = ncursors ft /\
         cursors_size post = cursors_size ft /\
         forall j c, cells post !! j = Some c ->
           exists c0, cells ft !! j = Some c0 /\
                      (c = c0 \/ c = clear_slot c0)) /\
    ((n < MAX_NAMES_PER_STATEMENT)%nat ->
       exists r ft',
         stmt_end h g estate stmt s (Some p) = Some r /\
         entry (hr_statics r) p = Some ft' /\
         (hr_flow r = Returns ->
            ft' = record_cursor h f sid (value var)
                    (first_free (scanned h g f sid (live ft))) post /\
            exists j, (j < ncursors ft')%nat /\ cells ft' !! j = Some ct)).
Proof.
  intros h g estate stmt s p ft var Hat Hwf Hop Hvar Hnn f sid n post ct.
  destruct (stmt_end_attached_entry h g estate stmt s p ft var
              Hat Hop Hvar Hnn) as (r & Hr & Hlog & Hfl & _ & Hent).
  fold f sid in Hlog, Hfl, Hent.
  split; [done|]. split.
  { intros Hret. by rewrite stmt_end_scan_returns. }
  split.
  - intros Hcap.
    assert ((use_count f =? 1) &&
            negb (plpgsql_check_cursors_leaks_strict g) = false) as Hd.
    { apply (filter_still_tracked_deferred h g f sid (live ft)).
      fold n. unfold MAX_NAMES_PER_STATEMENT in Hcap. lia. }
    rewrite stmt_end_open_deferred in Hlog, Hfl, Hent by done.
    rewrite kept_count_still_tracked in Hent. fold n post in Hent.
    destruct (Nat.ltb_spec n MAX_NAMES_PER_STATEMENT) as [?|_]; [lia|].
    simpl in Hlog, Hfl, Hent.
    exists r. split; [done|]. split; [done|]. split; [done|].
    split; [done|]. split; [apply put_live_ncursors|].
    split; [apply put_live_cursors_size|].
    intros j c Hj. unfold post in Hj.
    rewrite put_live_lookup in Hj by apply scanned_length.
    case_decide; [|eauto].
    apply scanned_cell in Hj as (c0 & Hc0 & Hor).
    apply live_lookup_Some in Hc0 as [_ Hc0]. eauto.
  - intros Hcap. exists r, (stmt_end_open h g f sid (value var) ft).1.1.
    split; [done|]. split; [done|]. rewrite Hfl. intros Hret.
    assert (sc_flow (stmt_end_scan h g f sid ft) = Returns) as Hscan.
    { unfold stmt_end_open in Hret.
      by destruct (sc_flow (stmt_end_scan h g f sid ft)). }
    assert ((stmt_end_open h g f sid (value var) ft).1.1 =
            record_cursor h f sid (value var)
              (first_free (scanned h g f sid (live ft))) post) as ->.
    { unfold stmt_end_open. rewrite stmt_end_scan_returns by done. simpl.
      fold n. destruct (Nat.ltb_spec n MAX_NAMES_PER_STATEMENT); [done|lia]. }
    split; [done|].
    assert (trace_wf post) as Hwfp.
    { apply put_live_wf; [done|apply scanned_length]. }
    pose proof Hwfp as [Hlen Hn].
    assert (ncursors post = ncursors ft) as Hpn by apply put_live_ncursors.
    rewrite record_cursor_ncursors.
    destruct (first_free (scanned h g f sid (live ft))) as [j|] eqn:Hfree.
    + apply first_free_lt in Hfree as Hj.
      rewrite scanned_length, live_length in Hj by done.
      exists j. split; [lia|].
      rewrite record_cursor_reuse_lookup. rewrite decide_True; [done|].
      split; [done|]. lia.
    + exists (ncursors post). split; [lia|].
      unfold record_cursor, cells at 1. simpl.
      assert (ncursors (if (ncursors post =? cursors_size post)%nat
                        then grow h post else post) = ncursors post) as Hg.
      { destruct (ncursors post =? cursors_size post)%nat; [|done].
        unfold grow. by destruct (0 <? cursors_size post)%nat. }
      rewrite Hg. apply list_lookup_insert_eq.
      destruct (Nat.eqb_spec (ncursors post) (cursors_size post)) as [E|E].
      * destruct (grow_wf h post Hwfp) as [Hl' _]. rewrite Hl'.
        unfold grow.
        destruct (Nat.ltb_spec 0 (cursors_size post)); simpl; lia.
      * lia.
Qed.

Lemma stmt_end_records_below_cap_only_witness :
  let h := {| MyProc_lxid := 8%N; SPI_cursor_find := fun _ => true;
              GetErrorContextStack := "";
              palloc_cell := {| stmtid := 0; rec_level := 0;
                                curname := None |} |} in
  let g := {| plpgsql_check_cursors_leaks := true;
              plpgsql_check_cursors_leaks_strict := true;
              plpgsql_check_cursors_leaks_level := WARNING |} in
  let f := {| fn_oid := 16384%N; fn_xmin := 700%N; use_count := 1 |} in
  let estate := {| func := f;
                   datums := [ {| isnull := false; value := "c21" |} ] |} in
  let stmt := {| cmd_type := PLPGSQL_STMT_OPEN; stmt_stmtid := 4;
                 curvar := 0 |} in
  let ct := {| stmtid := 4; rec_level := 1; curname := Some "c" |} in
  let ft := {| key := key_of f; ncursors := 20; cursors_size := 20;
               cursors_traces := Some (replicate 20 ct) |} in
  let s := {| traces_lxid := 8%N; traces := Some 0%nat;
              memory := {[ (0%nat, key_of f) := ft ]} |} in
  exists r,
    stmt_end h g estate stmt s (Some (0%nat, key_of f)) = Some r /\
    hr_flow r = Returns /\ hr_log r = [] /\
    entry (hr_statics r) (0%nat, key_of f)
      = Some (put_live ft (scanned h g f 4 (live ft))) /\
    ncursors (put_live ft (scanned h g f 4 (live ft))) = 20%nat.
Proof.
  intros h g f estate stmt ct ft s.
  assert (attached h s (0%nat, key_of f) ft) as Hat.
  { split; [reflexivity|]. unfold entry. simpl. apply lookup_singleton_eq. }
  assert (trace_wf ft) as Hwf by (split; simpl; lia).
  destruct (stmt_end_records_below_cap_only
              h g estate stmt s (0%nat, key_of f) ft
              {| isnull := false; value := "c21" |}
              Hat Hwf eq_refl eq_refl eq_refl)
    as (_ & _ & Hcap & _).
  destruct Hcap as (r & Hr & Hfl & Hlog & Hent & Hn & _).
  { vm_compute. lia. }
  exists r. split_and!; done.
Defined.

(** ** Where a new cursor is recorded *)

Lemma grow_cursors_size h ft :
  cursors_size (grow h ft) = (cursors_size ft + 10)%nat.
Proof.
  unfold grow. by destruct (Nat.ltb_spec 0 (cursors_size ft)); simpl; [|lia].
Qed.

(** C7.  When [stmt_end] records the cursor of an [OPEN] statement (the
    scan returned and fewer than 20 cells were counted), [free_slot] is
    the first index, among the cells in use as the scan left them, of a
    cell with statement id [-1].  If there is one, the new cell is
    written there and nothing else changes, [ncursors] and the capacity
    included.  If there is none, the new cell is written at index
    [ncursors], which grows by one, the cells below it are unchanged,
    and the capacity grows by exactly 10 when the array was full (from
    0 to 10 at the first allocation) and stays otherwise. *)
Theorem stmt_end_reuses_first_free_slot_else_appends :
  forall (h : Host) (g : GUC) (estate : PLpgSQL_execstate)
         (stmt : PLpgSQL_stmt) (s : Statics) (p : Pointer)
         (ft : FunctionTrace) (var : PLpgSQL_var) (r : HookResult),
    attached h s p ft -> trace_wf ft ->
    cmd_type stmt = PLPGSQL_STMT_OPEN ->
    datums estate !! curvar stmt = Some var -> isnull var = false ->
    let f := func estate in
    let sid := stmt_stmtid stmt in
    let post := put_live ft (scanned h g f sid (live ft)) in
    let ct := {| stmtid := sid; rec_level := use_count f;
                 curname := Some (value var) |} in
    stmt_end h g estate stmt s (Some p) = Some r ->
    hr_flow r = Returns ->
    (cursors_for_current_stmt (stmt_end_scan h g f sid ft)
       < MAX_NAMES_PER_STATEMENT)%nat ->
    exists ft',
      entry (hr_statics r) p = Some ft' /\
      free_slot (stmt_end_scan h g f sid ft) = first_free (live post) /\
      (forall j, free_slot (stmt_end_scan h g f sid ft) = Some j ->
         (j < ncursors ft)%nat /\
         (exists c, cells post !! j = Some c /\ stmtid c = -1) /\
         (forall j' c', (j' < j)%nat -> cells post !! j' = Some c' ->
            stmtid c' <> -1) /\
         cells ft' !! j = Some ct /\
         (forall i, i <> j -> cells ft' !! i = cells post !! i) /\
         ncursors ft' = ncursors ft /\
         cursors_size ft' = cursors_size ft) /\
      (free_slot (stmt_end_scan h g f sid ft) = None ->
         (forall j c, (j < ncursors ft)%nat -> cells post !! j = Some c ->
            stmtid c <> -1) /\
         ncursors ft' = S (ncursors ft) /\
         cells ft' !! ncursors ft = Some ct /\
         (forall i, (i < ncursors ft)%nat ->
            cells ft' !! i = cells post !! i) /\
         cursors_size ft' =
           (if decide (ncursors ft = cursors_size ft)
            then cursors_size ft + 10 else cursors_size ft)%nat /\
         (cursors_size ft = 0%nat -> cursors_size ft' = 10%nat) /\
         length (cells ft') = cursors_size ft').
Proof.
  intros h g estate stmt s p ft var r Hat Hwf Hop Hvar Hnn f sid post ct
         Hr Hret Hcount.
  destruct (stmt_end_attached_entry h g estate stmt s p ft var
              Hat Hop Hvar Hnn) as (r0 & Hr0 & _ & Hfl & _ & Hent).
  fold f sid in Hfl, Hent. rewrite Hr in Hr0. injection Hr0 as <-.
  assert (sc_flow (stmt_end_scan h g f sid ft) = Returns) as Hscan.
  { rewrite Hfl in Hret. unfold stmt_end_open in Hret.
    by destruct (sc_flow (stmt_end_scan h g f sid ft)). }
  assert (live post = scanned h g f sid (live ft)) as Hlive.
  { apply put_live_live, scanned_length. }
  assert (free_slot (stmt_end_scan h g f sid ft) = first_free (live post))
    as Hfree.
  { rewrite stmt_end_scan_returns by done. simpl. by rewrite Hlive. }
  assert ((stmt_end_open h g f sid (value var) ft).1.1 =
          record_cursor h f sid (value var)
            (free_slot (stmt_end_scan h g f sid ft)) post) as Hopen.
  { unfold stmt_end_open. rewrite Hscan.
    destruct (Nat.ltb_spec
                (cursors_for_current_stmt (stmt_end_scan h g f sid ft))
                MAX_NAMES_PER_STATEMENT); [|lia].
    simpl. unfold post. f_equal.
    rewrite stmt_end_scan_returns by done. done. }
  rewrite Hopen in Hent.
  assert (trace_wf post) as Hwfp.
  { apply put_live_wf; [done|apply scanned_length]. }
  pose proof Hwfp as [Hlen Hn].
  assert (ncursors post = ncursors ft) as Hpn by apply put_live_ncursors.
  assert (cursors_size post = cursors_size ft) as Hps
    by apply put_live_cursors_size.
  eexists. split; [exact Hent|]. split; [done|]. split.
  - intros j Hj. rewrite Hj. rewrite Hfree in Hj.
    apply first_free_lt in Hj as Hlt.
    apply first_free_Some in Hj as (c & Hc & Hm1 & Hfirst).
    assert (length (live post) = ncursors ft) as Hll
      by (rewrite live_length by done; done).
    split; [lia|]. split.
    { exists c. split; [|done]. apply live_lookup_Some in Hc as [_ Hc]. done. }
    split.
    { intros j' c' Hj' Hc'. apply (Hfirst j'); [|done].
      rewrite live_lookup by lia. done. }
    split.
    { rewrite record_cursor_reuse_lookup. rewrite decide_True; [done|].
      split; [done|]. lia. }
    split.
    { intros i Hi. rewrite record_cursor_reuse_lookup.
      rewrite decide_False; [done|]. by intros [? _]. }
    rewrite record_cursor_ncursors. split; [done|].
    unfold record_cursor. simpl. done.
  - intros Hnone. rewrite Hnone. rewrite Hfree in Hnone.
    split.
    { intros j c Hj Hc. eapply (proj1 (first_free_None _) Hnone j).
      rewrite live_lookup by lia. done. }
    rewrite record_cursor_ncursors. split; [lia|].
    assert (ncursors (if (ncursors post =? cursors_size post)%nat
                      then grow h post else post) = ncursors post) as Hg.
    { destruct (ncursors post =? cursors_size post)%nat; [|done].
      unfold grow. by destruct (0 <? cursors_size post)%nat. }
    assert (cursors_size (if (ncursors post =? cursors_size post)%nat
                          then grow h post else post) =
            (if decide (ncursors ft = cursors_size ft)
             then cursors_size ft + 10 else cursors_size ft)%nat) as Hsz.
    { destruct (Nat.eqb_spec (ncursors post) (cursors_size post)) as [E|E].
      - rewrite grow_cursors_size, decide_True by lia. lia.
      - rewrite decide_False by lia. done. }
    assert (trace_wf (if (ncursors post =? cursors_size post)%nat
                      then grow h post else post)) as [Hlen1 Hn1].
    { destruct (ncursors post =? cursors_size post)%nat;
        [by apply grow_wf|done]. }
    split.
    { unfold record_cursor, cells at 1. simpl. rewrite Hg, <- Hpn.
      apply list_lookup_insert_eq. rewrite Hlen1, Hsz.
      case_decide; lia. }
    split.
    { intros i Hi. rewrite record_cursor_append_lookup; [done|lia|lia]. }
    unfold record_cursor. simpl. split; [done|]. split.
    { intros H0. rewrite Hsz. rewrite decide_True by lia. lia. }
    unfold cells at 1. simpl. by rewrite length_insert.
Qed.

Lemma stmt_end_reuses_first_free_slot_else_appends_witness :
  let h := {| MyProc_lxid := 8%N; SPI_cursor_find := fun _ => true;
              GetErrorContextStack := "";
              palloc_cell := {| stmtid := 0; rec_level := 0;
                                curname := None |} |} in
  let f := {| fn_oid := 16384%N; fn_xmin := 700%N; use_count := 1 |} in
  let estate := {| func := f;
                   datums := [ {| isnull := false; value := "c1" |} ] |} in
  let stmt := {| cmd_type := PLPGSQL_STMT_OPEN; stmt_stmtid := 4;
                 curvar := 0 |} in
  let ft := new_trace f in
  let s := {| traces_lxid := 8%N; traces := Some 0%nat;
              memory := {[ (0%nat, key_of f) := ft ]} |} in
  exists r ft',
    stmt_end h default_GUC estate stmt s (Some (0%nat, key_of f)) = Some r /\
    entry (hr_statics r) (0%nat, key_of f) = Some ft' /\
    ncursors ft' = 1%nat /\ cursors_size ft' = 10%nat /\
    cells ft' !! 0%nat
      = Some {| stmtid := 4; rec_level := 1; curname := Some "c1" |}.
Proof.
  intros h f estate stmt ft s.
  assert (attached h s (0%nat, key_of f) ft) as Hat.
  { split; [reflexivity|]. unfold entry. simpl. apply lookup_singleton_eq. }
  destruct (stmt_end h default_GUC estate stmt s (Some (0%nat, key_of f)))
    as [r|] eqn:Hr; [|vm_compute in Hr; discriminate Hr].
  assert (hr_flow r = Returns) as Hfl.
  { pose proof Hr as Hr'. vm_compute in Hr'. by injection Hr' as <-. }
  destruct (stmt_end_reuses_first_free_slot_else_appends
              h default_GUC estate stmt s (0%nat, key_of f) ft
              {| isnull := false; value := "c1" |} r
              Hat (new_trace_wf f) eq_refl eq_refl eq_refl Hr Hfl)
    as (ft' & Hent & _ & _ & Happend).
  { vm_compute. lia. }
  destruct (Happend eq_refl) as (_ & Hn & Hcell & _ & Hsize & _).
  exists r, ft'. split_and!; done.
Defined.

(** ** An [OPEN] statement that runs once *)

Lemma put_live_id ft : put_live ft (live ft) = ft.
Proof.
  unfold put_live. destruct (cursors_traces ft) as [a|] eqn:E; [|done].
  rewrite live_spare. unfold cells. rewrite E. simpl.
  destruct ft; simpl in *; by subst.
Qed.

Lemma scanned_unmatched h g f sid l :
  (forall ct, ct ∈ l -> is_Some (curname ct) -> stmtid ct <> sid) ->
  scanned h g f sid l = l /\
  kept_count h g f sid l = 0%nat /\
  Forall (fun ct => v_log (stmt_end_body h g f sid ct).1 = [] /\
                    v_flow (stmt_end_body h g f sid ct).1 = Returns) l.
Proof.
  induction l as [|ct rest IH]; intros Hun; [done|].
  destruct IH as (IH1 & IH2 & IH3).
  { intros c Hc. apply Hun. by right. }
  assert (stmt_end_body h g f sid ct = (untouched ct, false)) as Hb.
  { destruct (curname ct) as [name|] eqn:En.
    - apply stmt_end_body_other_stmt, Hun; [by left|]. by rewrite En.
    - unfold stmt_end_body. by rewrite En. }
  split; [|split].
  - unfold scanned in *. rewrite fmap_cons, Hb, IH1. done.
  - unfold kept_count in *. rewrite filter_cons, Hb. simpl. done.
  - constructor; [by rewrite Hb|done].
Qed.

(** An [OPEN] statement none of whose cursors is tracked reports
    nothing and records its cursor. *)
Lemma stmt_end_open_unmatched h g f sid name ft :
  tracks_none_of [sid] ft ->
  stmt_end_open h g f sid name ft =
    (record_cursor h f sid name (first_free (live ft)) ft, [], Returns).
Proof.
  intros Hun.
  destruct (scanned_unmatched h g f sid (live ft)) as (Hsc & Hk & Hall).
  { intros ct Hct Hname Heq. apply list_elem_of_lookup_1 in Hct as [i Hi].
    apply live_lookup_Some in Hi as [Hlt Hi].
    apply (Hun i ct Hlt Hi Hname). rewrite Heq. by left. }
  unfold stmt_end_open, stmt_end_scan.
  rewrite stmt_end_loop_returns.
  2:{ eapply Forall_impl; [exact Hall|]. by intros ct [_ ?]. }
  simpl. rewrite Hsc, Hk, put_live_id. simpl.
  assert (flat_map (fun ct => v_log (stmt_end_body h g f sid ct).1) (live ft)
          = []) as ->.
  { clear -Hall. induction Hall as [|ct rest [Hl _] _ IH]; [done|].
    simpl. by rewrite Hl, IH. }
  by destruct (first_free (live ft)).
Qed.

Lemma record_cursor_tracks_none_of h f sid name free ft sids :
  trace_wf ft -> tracks_none_of sids ft -> sid ∉ sids ->
  tracks_none_of sids (record_cursor h f sid name free ft).
Proof.
  intros [Hlen Hn] Hun Hsid i c Hi Hic Hname.
  rewrite record_cursor_ncursors in Hi. destruct free as [j|].
  - rewrite record_cursor_reuse_lookup in Hic.
    case_decide; [by injection Hic as <-|]. by eapply Hun.
  - destruct (decide (i = ncursors ft)) as [->|Hne].
    + unfold record_cursor, cells at 1 in Hic. simpl in Hic.
      assert (ncursors (if (ncursors ft =? cursors_size ft)%nat
                        then grow h ft else ft) = ncursors ft) as Hg.
      { destruct (ncursors ft =? cursors_size ft)%nat; [|done].
        unfold grow. by destruct (0 <? cursors_size ft)%nat. }
      rewrite Hg in Hic.
      apply list_lookup_insert_Some in Hic as [(_ & <- & _)|[? _]]; done.
    + rewrite record_cursor_append_lookup in Hic by lia.
      eapply Hun; [|done..]. lia.
Qed.

Lemma tracks_none_of_cons sid sids ft :
  tracks_none_of (sid :: sids) ft ->
  tracks_none_of [sid] ft /\ tracks_none_of sids ft.
Proof.
  intros Hun. split; intros i ct Hi Hct Hname Hin;
    apply (Hun i ct Hi Hct Hname).
  - apply list_elem_of_singleton in Hin as ->. by left.
  - by right.
Qed.

Lemma stmt_end_opens_once g f calls ft :
  trace_wf ft ->
  NoDup (oe_stmtid <$> calls) ->
  tracks_none_of (oe_stmtid <$> calls) ft ->
  (stmt_end_opens g f calls ft).1.2 = [] /\
  (stmt_end_opens g f calls ft).2 = Returns /\
  trace_wf (stmt_end_opens g f calls ft).1.1.
Proof.
  revert ft. induction calls as [|c rest IH]; intros ft Hwf Hnd Hun; [done|].
  simpl in *. apply NoDup_cons in Hnd as [Hnotin Hnd].
  apply tracks_none_of_cons in Hun as [Hun1 Hun].
  rewrite stmt_end_open_unmatched by done.
  destruct (IH (record_cursor (oe_host c) f (oe_stmtid c) (oe_name c)
                  (first_free (live ft)) ft)) as (IH1 & IH2 & IH3).
  - by apply record_cursor_wf.
  - done.
  - by apply record_cursor_tracks_none_of.
  - destruct (stmt_end_opens g f rest _) as [[ft2 log2] fl2]. simpl in *.
    by subst.
Qed.

(** ** Teardown without strict mode leaves open cursors alone *)

Lemma func_end_loop_lookup_fixed h g f l i ct :
  l !! i = Some ct -> v_cell (func_end_body h g f ct) = ct ->
  sw_cells (func_end_loop h g f l) !! i = Some ct.
Proof.
  revert i. induction l as [|c rest IH]; intros i Hi Hfix; [done|].
  simpl. destruct i as [|i]; simpl in Hi.
  - injection Hi as ->.
    destruct (v_flow (func_end_body h g f ct)); simpl; by rewrite Hfix.
  - destruct (v_flow (func_end_body h g f c)); simpl; auto.
Qed.

Lemma func_end_body_lenient_open h g f ct name :
  plpgsql_check_cursors_leaks_strict g = false ->
  curname ct = Some name -> SPI_cursor_find h name = true ->
  func_end_body h g f ct = untouched ct.
Proof.
  intros Hs Hn Ho. unfold func_end_body. rewrite Hn, Ho, Hs.
  by destruct (rec_level ct =? use_count f).
Qed.

Lemma func_end_trace_lenient_open h g f ft i ct name :
  plpgsql_check_cursors_leaks_strict g = false ->
  cells ft !! i = Some ct ->
  curname ct = Some name -> SPI_cursor_find h name = true ->
  cells (func_end_trace h g f ft).1.1 !! i = Some ct.
Proof.
  intros Hs Hi Hn Ho. unfold func_end_trace. simpl.
  rewrite put_live_lookup by apply func_end_loop_length.
  case_decide; [|done].
  apply func_end_loop_lookup_fixed; [by rewrite live_lookup|].
  by rewrite (func_end_body_lenient_open h g f ct name).
Qed.

(** C3.  Without strict mode, [func_end] reports nothing, whatever the
    entry holds, and leaves every cell whose cursor still exists as it
    is.  And in an activation none of whose [OPEN] statements runs twice,
    on an entry that tracks no cursor of these statements (a new entry,
    for one), [stmt_end] reports nothing either: with the teardown, no
    report is emitted at all, whether the cursors were closed or not. *)
Theorem lenient_open_once_is_never_reported :
  forall (g : GUC),
    plpgsql_check_cursors_leaks_strict g = false ->
    (forall h f s plugin2_info r,
       func_end h g f s plugin2_info = Some r ->
       hr_log r = [] /\ hr_flow r = Returns /\
       forall p ft i ct name,
         entry s p = Some ft -> cells ft !! i = Some ct ->
         curname ct = Some name -> SPI_cursor_find h name = true ->
         func_end_body h g f ct = untouched ct /\
         exists ft', entry (hr_statics r) p = Some ft' /\
                     cells ft' !! i = Some ct) /\
    (forall f calls ft h_end,
       trace_wf ft ->
       NoDup (oe_stmtid <$> calls) ->
       tracks_none_of (oe_stmtid <$> calls) ft ->
       let ft1 := (stmt_end_opens g f calls ft).1.1 in
       (stmt_end_opens g f calls ft).1.2 = [] /\
       (stmt_end_opens g f calls ft).2 = Returns /\
       (func_end_trace h_end g f ft1).1.2 = [] /\
       (func_end_trace h_end g f ft1).2 = Returns).
Proof.
  intros g Hs. split.
  - intros h f s info r Hr.
    destruct (func_end_lenient h g f s info r Hs Hr) as [Hlog Hfl].
    split; [done|]. split; [done|].
    intros p ft i ct name Hk Hi Hn Ho.
    split; [by eapply func_end_body_lenient_open|].
    unfold func_end in Hr. destruct info as [p0|].
    2:{ injection Hr as <-. simpl. eauto. }
    destruct (negb (traces_lxid s =? MyProc_lxid h)%N).
    { injection Hr as <-. simpl. eauto. }
    destruct (entry s p0) as [ft0|] eqn:Hk0; [|done]. simpl in Hr.
    injection Hr as <-. simpl.
    destruct (decide (p = p0)) as [->|Hkk].
    + erewrite entry_set_entry by done.
      assert (ft0 = ft) as -> by congruence.
      eexists; split; [done|].
      by apply (func_end_trace_lenient_open h g f ft i ct name).
    + rewrite entry_set_entry_ne by done. eauto.
  - intros f calls ft h_end Hwf Hnd Hun ft1.
    destruct (stmt_end_opens_once g f calls ft Hwf Hnd Hun) as (H1 & H2 & _).
    split; [done|]. split; [done|]. unfold func_end_trace. simpl.
    apply func_end_loop_lenient. done.
Qed.

Lemma lenient_open_once_is_never_reported_witness :
  let h := {| MyProc_lxid := 8%N; SPI_cursor_find := fun _ => true;
              GetErrorContextStack := "";
              palloc_cell := {| stmtid := 0; rec_level := 0;
                                curname := None |} |} in
  let f := {| fn_oid := 16384%N; fn_xmin := 700%N; use_count := 1 |} in
  let calls := [ {| oe_host := h; oe_stmtid := 4; oe_name := "c1" |} ] in
  let ft1 := (stmt_end_opens default_GUC f calls (new_trace f)).1.1 in
  (stmt_end_opens default_GUC f calls (new_trace f)).1.2 = [] /\
  (stmt_end_opens default_GUC f calls (new_trace f)).2 = Returns /\
  (func_end_trace h default_GUC f ft1).1.2 = [] /\
  (func_end_trace h default_GUC f ft1).2 = Returns.
Proof.
  intros h f calls ft1.
  destruct (lenient_open_once_is_never_reported default_GUC eq_refl)
    as [_ Hrun].
  apply (Hrun f calls (new_trace f) h (new_trace_wf f)).
  - simpl. apply NoDup_singleton.
  - intros i ct Hi. simpl in Hi. lia.
Defined.

(** * Further properties of [cursors_leaks.c] *)

(** ** [get_function_trace] as a lookup-or-insert *)

Lemma get_function_trace_not_stale_after h f s :
  traces_stale h (get_function_trace h f s).1 = false /\
  exists t ft, traces (get_function_trace h f s).1 = Some t /\
    (get_function_trace h f s).2 = (t, key_of f) /\
    entry (get_function_trace h f s).1 (t, key_of f) = Some ft.
Proof.
  destruct (get_function_trace_attached h f s)
    as (t & ft & Ht & Hp & Hlx & He).
  split.
  - unfold traces_stale. rewrite Ht, Hlx. by rewrite N.eqb_refl.
  - exists t, ft. by rewrite <- Hp.
Qed.

(** X1.  A second call of [get_function_trace] for the same routine, in
    the same transaction, returns the pointer of the first call and
    leaves the statics as the first call left them. *)
Theorem get_function_trace_idempotent :
  forall (h : Host) (f : PLpgSQL_function) (s : Statics),
    get_function_trace h f (get_function_trace h f s).1 =
      ((get_function_trace h f s).1, (get_function_trace h f s).2).
Proof.
  intros h f s.
  destruct (get_function_trace_not_stale_after h f s)
    as (Hst & t & ft & Ht & Hp & He).
  set (s1 := (get_function_trace h f s).1) in *.
  rewrite Hp.
  rewrite (get_function_trace_current h f s1 t) by done.
  unfold entry in He. rewrite He. simpl.
  rewrite insert_id by done. f_equal.
  destruct s1; simpl in *; by subst.
Qed.

(** X2.  While the table is the one of the current transaction,
    [get_function_trace] only adds: every entry is still there, unchanged,
    the entry of the routine included, the table and the recorded [lxid]
    stay, and the pointer returned is into the current table, at the key
    of the routine. *)
Theorem get_function_trace_keeps_entries :
  forall (h : Host) (f : PLpgSQL_function) (s : Statics)
         (p : Pointer) (ft : FunctionTrace),
    traces_stale h s = false ->
    entry s p = Some ft ->
    let s' := (get_function_trace h f s).1 in
    let ftrace := (get_function_trace h f s).2 in
    entry s' p = Some ft /\
    traces_lxid s' = traces_lxid s /\
    traces s' = traces s /\
    (exists t, traces s = Some t /\ ftrace = (t, key_of f)) /\
    (p = ftrace -> entry s' ftrace = Some ft) /\
    (forall p', p' <> ftrace -> entry s' p' = entry s p').
Proof.
  intros h f s p ft Hst He.
  destruct (not_stale h s Hst) as [_ [t Ht]].
  rewrite (get_function_trace_current h f s t) by done.
  unfold entry in *. simpl in *.
  assert (<[(t, key_of f) :=
              default (new_trace f) (memory s !! (t, key_of f))]>
            (memory s) !! p = Some ft) as Hp.
  { destruct (decide (p = (t, key_of f))) as [->|Hne].
    - rewrite lookup_insert_eq, He. done.
    - by rewrite lookup_insert_ne. }
  split_and!; eauto.
  - by intros ->.
  - intros p' Hne. by rewrite lookup_insert_ne.
Qed.

Lemma get_function_trace_keeps_entries_witness :
  let h := {| MyProc_lxid := 8%N; SPI_cursor_find := fun _ => true;
              GetErrorContextStack := "";
              palloc_cell := {| stmtid := 0; rec_level := 0;
                                curname := None |} |} in
  let f := {| fn_oid := 16384%N; fn_xmin := 700%N; use_count := 1 |} in
  let f2 := {| fn_oid := 16385%N; fn_xmin := 700%N; use_count := 1 |} in
  let ft := {| key := key_of f; ncursors := 1; cursors_size := 10;
               cursors_traces :=
                 Some (replicate 10 {| stmtid := 4; rec_level := 1;
                                       curname := Some "c1" |}) |} in
  let s := {| traces_lxid := 8%N; traces := Some 0%nat;
              memory := {[ (0%nat, key_of f) := ft ]} |} in
  entry (get_function_trace h f2 s).1 (0%nat, key_of f) = Some ft.
Proof.
  intros h f f2 ft s.
  assert (entry s (0%nat, key_of f) = Some ft) as He.
  { unfold entry. simpl. apply lookup_singleton_eq. }
  destruct (get_function_trace_keeps_entries h f2 s (0%nat, key_of f) ft
              eq_refl He) as [Hkeep _].
  exact Hkeep.
Defined.

(** ** A new table is empty *)

Lemma get_function_trace_bounded h f s :
  tables_bounded s -> tables_bounded (get_function_trace h f s).1.
Proof.
  intros Hb t k ft He.
  destruct (get_function_trace_attached h f s) as (t1 & _ & Ht1 & Hp & _).
  rewrite Ht1. exists t1. split; [done|].
  destruct (get_function_trace_entry h f s (t, k) ft He) as [Hold|[Hnew _]].
  - destruct (Hb t k ft Hold) as (t0 & Ht0 & Hle).
    destruct (traces_stale h s) eqn:Hst.
    + rewrite get_function_trace_stale in Ht1 by done. simpl in Ht1.
      injection Ht1 as <-. unfold next_table. rewrite Ht0. lia.
    + rewrite (get_function_trace_current h f s t0) in Ht1 by done.
      simpl in Ht1. injection Ht1 as <-. done.
  - rewrite Hp in Hnew. injection Hnew as -> _. done.
Qed.

Lemma set_entry_bounded s p ft ft0 :
  entry s p = Some ft0 -> tables_bounded s ->
  tables_bounded (set_entry s p ft).
Proof.
  intros He Hb t k ft' He'. simpl.
  destruct (decide ((t, k) = p)) as [<-|Hne].
  - by eapply Hb.
  - rewrite entry_set_entry_ne in He' by done. by eapply Hb.
Qed.

Lemma reachable_tables_bounded s : reachable s -> tables_bounded s.
Proof.
  induction 1 as [|h g f s _ IH|h g estate stmt s info r _ IH Hsid Hr
                  |h g f s info r _ IH Hr].
  - intros t k ft He. done.
  - unfold func_setup. destruct (plpgsql_check_cursors_leaks g); [|done].
    pose proof (get_function_trace_bounded h f s IH) as Hb.
    by destruct (get_function_trace h f s).
  - revert Hr. unfold stmt_end. destruct info as [p0|].
    2:{ by intros [= <-]. }
    set (sp := if negb (traces_lxid s =? MyProc_lxid h)%N
               then get_function_trace h (func estate) s
               else (s, p0)).
    assert (tables_bounded sp.1) as Hb1.
    { unfold sp. destruct (negb (traces_lxid s =? MyProc_lxid h)%N); [|done].
      by apply get_function_trace_bounded. }
    destruct sp as [s1 p]. simpl in Hb1.
    destruct (decide (cmd_type stmt = PLPGSQL_STMT_OPEN)).
    2:{ by intros [= <-]. }
    destruct (entry s1 p) as [ft|] eqn:He; [|done]. simpl.
    destruct (sc_flow (stmt_end_scan h g (func estate) (stmt_stmtid stmt) ft)).
    + destruct (datums estate !! curvar stmt) as [var|]; [|done]. simpl.
      destruct (isnull var); [done|].
      intros [= <-]. simpl. by eapply set_entry_bounded.
    + intros [= <-]. simpl. by eapply set_entry_bounded.
  - revert Hr. unfold func_end. destruct info as [p|].
    2:{ by intros [= <-]. }
    destruct (negb (traces_lxid s =? MyProc_lxid h)%N).
    { by intros [= <-]. }
    destruct (entry s p) as [ft|] eqn:He; [|done].
    cbn [mbind option_bind].
    destruct (func_end_trace h g f ft) as [[ft' log] fl].
    intros [= <-]. simpl. by eapply set_entry_bounded.
Qed.

(** X16.  When there is no table, or the marker is not the transaction
    the host is in, [get_function_trace] replaces the table by an empty
    one and records the current [lxid]: after the call the table holds
    one entry, for the routine, with no cursor, no capacity and a null
    array, and the pointer returned designates it.  The entries of the
    earlier tables are neither in the new table nor changed. *)
Theorem get_function_trace_new_table_holds_one_entry :
  forall (h : Host) (f : PLpgSQL_function) (s : Statics),
    reachable s ->
    traces s = None \/ traces_lxid s <> MyProc_lxid h ->
    let s' := (get_function_trace h f s).1 in
    let ftrace := (get_function_trace h f s).2 in
    traces_lxid s' = MyProc_lxid h /\
    traces s' = Some ftrace.1 /\ traces s' <> traces s /\
    ftrace.2 = key_of f /\
    entry s' ftrace = Some (new_trace f) /\
    (forall k, current_table s' k =
                 if decide (k = key_of f) then Some (new_trace f) else None) /\
    (ncursors (new_trace f) = 0%nat /\ cursors_size (new_trace f) = 0%nat /\
     cursors_traces (new_trace f) = None) /\
    (forall p ft, entry s p = Some ft -> p <> ftrace /\ entry s' p = Some ft).
Proof.
  intros h f s Hreach Hst.
  pose proof (reachable_tables_bounded s Hreach) as Hb.
  assert (forall t k ft, entry s (t, k) = Some ft -> t <> next_table s)
    as Hold.
  { intros t k ft He. destruct (Hb t k ft He) as (t0 & Ht0 & Hle).
    unfold next_table. rewrite Ht0. lia. }
  apply traces_stale_true in Hst.
  rewrite get_function_trace_stale by done. simpl.
  split_and!; try done.
  - unfold next_table. destruct (traces s); [|done].
    intros [= E]. lia.
  - apply lookup_insert_eq.
  - intros k. unfold current_table, entry. simpl. case_decide as Hk.
    + subst k. apply lookup_insert_eq.
    + rewrite lookup_insert_ne by congruence.
      destruct (memory s !! (next_table s, k)) as [ft|] eqn:E; [|done].
      by destruct (Hold _ _ _ E).
  - intros [t k] ft He. split.
    + intros [= -> _]. by eapply Hold.
    + unfold entry. simpl. rewrite lookup_insert_ne; [done|].
      intros [= <- _]. by eapply Hold.
Qed.

Lemma get_function_trace_new_table_holds_one_entry_witness :
  let h7 := {| MyProc_lxid := 7%N; SPI_cursor_find := fun _ => true;
               GetErrorContextStack := "";
               palloc_cell := {| stmtid := 0; rec_level := 0;
                                 curname := None |} |} in
  let h8 := {| MyProc_lxid := 8%N; SPI_cursor_find := fun _ => true;
               GetErrorContextStack := "";
               palloc_cell := {| stmtid := 0; rec_level := 0;
                                 curname := None |} |} in
  let f := {| fn_oid := 16384%N; fn_xmin := 700%N; use_count := 1 |} in
  let q := {| fn_oid := 16385%N; fn_xmin := 701%N; use_count := 1 |} in
  let s := (func_setup h7 default_GUC f initial_statics).1 in
  current_table s (key_of f) = Some (new_trace f) /\
  forall k, current_table (get_function_trace h8 q s).1 k =
              if decide (k = key_of q) then Some (new_trace q) else None.
Proof.
  intros h7 h8 f q s. split; [reflexivity|].
  assert (reachable s) as Hreach
    by apply reachable_func_setup, reachable_initial.
  assert (traces s = None \/ traces_lxid s <> MyProc_lxid h8) as Hst
    by (right; discriminate).
  destruct (get_function_trace_new_table_holds_one_entry h8 q s Hreach Hst)
    as (_ & _ & _ & _ & _ & Htable & _).
  exact Htable.
Defined.

(** ** What the hooks report *)

(** A visit reports nothing and returns, or makes the one report. *)
Lemma func_end_body_log_cases h g f ct :
  (v_log (func_end_body h g f ct) = [] /\
   v_flow (func_end_body h g f ct) = Returns) \/
  (func_end_body h g f ct = report_then_clear h g ct /\
   plpgsql_check_cursors_leaks_strict g = true /\
   rec_level ct = use_count f /\
   exists name, curname ct = Some name /\ SPI_cursor_find h name = true).
Proof.
  unfold func_end_body. destruct (curname ct) as [name|]; [|by left].
  destruct (Z.eqb_spec (rec_level ct) (use_count f)); [|by left].
  destruct (SPI_cursor_find h name) eqn:Ho; [|by left].
  destruct (plpgsql_check_cursors_leaks_strict g); [|by left].
  right. split_and!; eauto.
Qed.

Lemma stmt_end_body_log_cases h g f sid ct :
  (v_log (stmt_end_body h g f sid ct).1 = [] /\
   v_flow (stmt_end_body h g f sid ct).1 = Returns) \/
  ((stmt_end_body h g f sid ct).1 = report_then_clear h g ct /\
   plpgsql_check_cursors_leaks_strict g = false /\
   use_count f = 1 /\ stmtid ct = sid /\
   exists name, curname ct = Some name /\ SPI_cursor_find h name = true).
Proof.
  unfold stmt_end_body. destruct (curname ct) as [name|]; [|by left].
  destruct (Z.eqb_spec (stmtid ct) sid); [|by left].
  destruct (SPI_cursor_find h name) eqn:Ho; [|by left].
  destruct (Z.eqb_spec (use_count f) 1); simpl; [|by left].
  destruct (plpgsql_check_cursors_leaks_strict g); simpl; [by left|].
  right. split_and!; eauto.
Qed.

Lemma report_then_clear_flow h g ct :
  v_flow (report_then_clear h g ct) =
    if ERROR <=? plpgsql_check_cursors_leaks_level g then Raises else Returns.
Proof.
  destruct (Z.leb_spec ERROR (plpgsql_check_cursors_leaks_level g)).
  - by rewrite report_then_clear_raises.
  - by rewrite report_then_clear_returns.
Qed.

Lemma log_shape_nil h g : log_shape h g [] Returns.
Proof.
  split; [constructor|]. split; [|simpl; lia].
  split; [done|]. by intros [_ ?].
Qed.

Lemma log_shape_cons h g log fl :
  plpgsql_check_cursors_leaks_level g < ERROR ->
  log_shape h g log fl ->
  log_shape h g ((report_not_closed h g).1 :: log) fl.
Proof.
  intros Hlvl (H1 & H2 & H3). split; [by constructor|].
  split; [|lia]. rewrite H2. split; intros [? ?]; lia.
Qed.

Lemma log_shape_raise h g :
  ERROR <= plpgsql_check_cursors_leaks_level g ->
  log_shape h g [(report_not_closed h g).1] Raises.
Proof.
  intros Hlvl. split; [by repeat constructor|]. split; [|simpl; lia].
  split; [done|]. done.
Qed.

Lemma func_end_loop_log_shape h g f l :
  log_shape h g (sw_log (func_end_loop h g f l))
                (sw_flow (func_end_loop h g f l)) /\
  (length (sw_log (func_end_loop h g f l)) <= length l)%nat.
Proof.
  induction l as [|ct rest [IH IHlen]]; simpl.
  - split; [apply log_shape_nil|done].
  - destruct (func_end_body_log_cases h g f ct) as [[Hl Hf]|[Hb _]].
    + rewrite Hf, Hl. simpl. split; [done|lia].
    + rewrite Hb, report_then_clear_flow, report_then_clear_log.
      destruct (Z.leb_spec ERROR (plpgsql_check_cursors_leaks_level g));
        simpl.
      * split; [by apply log_shape_raise|lia].
      * split; [by apply log_shape_cons|lia].
Qed.

Lemma stmt_end_loop_log_shape h g f sid i l count free :
  log_shape h g (sc_log (stmt_end_loop h g f sid i l count free))
                (sc_flow (stmt_end_loop h g f sid i l count free)) /\
  (length (sc_log (stmt_end_loop h g f sid i l count free)) <= length l)%nat.
Proof.
  revert i count free.
  induction l as [|ct rest IH]; intros i count free; simpl.
  - split; [apply log_shape_nil|done].
  - pose proof (stmt_end_body_log_cases h g f sid ct) as Hc.
    destruct (stmt_end_body h g f sid ct) as [v kept]. simpl in Hc.
    destruct Hc as [[Hl Hf]|[Hb _]].
    + rewrite Hf, Hl. simpl.
      destruct (IH (S i) (if kept then S count else count)
                   (note_free_slot i (v_cell v) free)) as [IH1 IH2].
      split; [done|lia].
    + rewrite Hb, report_then_clear_flow, report_then_clear_log.
      destruct (Z.leb_spec ERROR (plpgsql_check_cursors_leaks_level g));
        simpl.
      * split; [by apply log_shape_raise|lia].
      * destruct (IH (S i) (if kept then S count else count)
                     (note_free_slot i (v_cell (report_then_clear h g ct))
                                     free)) as [IH1 IH2].
        split; [by apply log_shape_cons|lia].
Qed.

(** X3.  Whatever a call of [func_end] or [stmt_end] emits is a report
    "cursor is not closed" with [ERRCODE_INVALID_CURSOR_STATE] at the
    configured level and the context stack as detail; the call raises
    exactly when it made such a report at [ERROR] or above, and in that
    case the report is its only one. *)
Theorem hooks_log_shape :
  forall (h : Host) (g : GUC) (f : PLpgSQL_function)
         (estate : PLpgSQL_execstate) (stmt : PLpgSQL_stmt) (s : Statics)
         (plugin2_info : option Pointer) (r : HookResult),
    func_end h g f s plugin2_info = Some r \/
    stmt_end h g estate stmt s plugin2_info = Some r ->
    log_shape h g (hr_log r) (hr_flow r) /\
    (report_not_closed h g).1 =
      {| elevel := plpgsql_check_cursors_leaks_level g;
         sqlerrcode := ERRCODE_INVALID_CURSOR_STATE;
         message := "cursor is not closed";
         detail := GetErrorContextStack h |}.
Proof.
  intros h g f estate stmt s info r Hr. split; [|done].
  destruct Hr as [Hr|Hr]; revert Hr.
  - unfold func_end. destruct info as [p|].
    2:{ intros [= <-]. apply log_shape_nil. }
    destruct (negb (traces_lxid s =? MyProc_lxid h)%N).
    { intros [= <-]. apply log_shape_nil. }
    destruct (entry s p) as [ft|]; [|done]. simpl.
    intros [= <-]. simpl. apply func_end_loop_log_shape.
  - unfold stmt_end. destruct info as [p0|].
    2:{ intros [= <-]. apply log_shape_nil. }
    destruct (if negb (traces_lxid s =? MyProc_lxid h)%N
              then get_function_trace h (func estate) s
              else (s, p0)) as [s1 p].
    destruct (decide (cmd_type stmt = PLPGSQL_STMT_OPEN)).
    2:{ intros [= <-]. apply log_shape_nil. }
    destruct (entry s1 p) as [ft|]; [|done]. simpl.
    pose proof (stmt_end_loop_log_shape h g (func estate) (stmt_stmtid stmt)
                  0 (live ft) 0 None) as [Hshape _].
    fold (stmt_end_scan h g (func estate) (stmt_stmtid stmt) ft) in Hshape.
    destruct (sc_flow (stmt_end_scan h g (func estate) (stmt_stmtid stmt) ft))
      eqn:Hfl.
    + destruct (datums estate !! curvar stmt) as [var|]; [|done]. simpl.
      destruct (isnull var); [done|]. by intros [= <-].
    + by intros [= <-].
Qed.

Lemma hooks_log_shape_witness :
  let h := {| MyProc_lxid := 8%N; SPI_cursor_find := fun _ => true;
              GetErrorContextStack := "PL/pgSQL function f() line 5";
              palloc_cell := {| stmtid := 0; rec_level := 0;
                                curname := None |} |} in
  let g := {| plpgsql_check_cursors_leaks := true;
              plpgsql_check_cursors_leaks_strict := true;
              plpgsql_check_cursors_leaks_level := ERROR |} in
  let f := {| fn_oid := 16384%N; fn_xmin := 700%N; use_count := 1 |} in
  let ct := {| stmtid := 4; rec_level := 1; curname := Some "c1" |} in
  let ft := {| key := key_of f; ncursors := 2; cursors_size := 10;
               cursors_traces := Some (ct :: ct :: replicate 8 (palloc_cell h)) |} in
  let s := {| traces_lxid := 8%N; traces := Some 0%nat;
              memory := {[ (0%nat, key_of f) := ft ]} |} in
  exists r, func_end h g f s (Some (0%nat, key_of f)) = Some r /\
            log_shape h g (hr_log r) (hr_flow r).
Proof.
  intros h g f ct ft s.
  destruct (func_end h g f s (Some (0%nat, key_of f))) as [r|] eqn:Hr;
    [|vm_compute in Hr; discriminate Hr].
  exists r. split; [done|].
  apply (hooks_log_shape h g f {| func := f; datums := [] |}
           {| cmd_type := PLPGSQL_STMT_CLOSE; stmt_stmtid := 1; curvar := 0 |}
           s (Some (0%nat, key_of f)) r (or_introl Hr)).
Defined.

(** ** What a report is about *)

Lemma func_end_loop_log_cause h g f l :
  sw_log (func_end_loop h g f l) <> [] ->
  plpgsql_check_cursors_leaks_strict g = true /\
  exists i ct name,
    l !! i = Some ct /\ curname ct = Some name /\
    rec_level ct = use_count f /\ SPI_cursor_find h name = true.
Proof.
  induction l as [|ct rest IH]; simpl; [done|].
  destruct (func_end_body_log_cases h g f ct)
    as [[Hl Hf]|(_ & Hs & Hlv & name & Hn & Ho)].
  - rewrite Hf, Hl. simpl. intros Hne.
    destruct (IH Hne) as (Hs & i & c & name & Hi & ?).
    split; [done|]. exists (S i), c, name. done.
  - intros _. split; [done|]. exists 0%nat, ct, name. done.
Qed.

Lemma stmt_end_loop_log_cause h g f sid j l count free :
  sc_log (stmt_end_loop h g f sid j l count free) <> [] ->
  plpgsql_check_cursors_leaks_strict g = false /\ use_count f = 1 /\
  exists i ct name,
    l !! i = Some ct /\ curname ct = Some name /\
    stmtid ct = sid /\ SPI_cursor_find h name = true.
Proof.
  revert j count free.
  induction l as [|ct rest IH]; intros j count free; simpl; [done|].
  pose proof (stmt_end_body_log_cases h g f sid ct) as Hc.
  destruct (stmt_end_body h g f sid ct) as [v kept]. simpl in Hc.
  destruct Hc as [[Hl Hf]|(_ & Hs & Hu & Hsid & name & Hn & Ho)].
  - rewrite Hf, Hl. simpl. intros Hne.
    destruct (IH _ _ _ Hne) as (Hs & Hu & i & c & name & Hi & ?).
    split; [done|]. split; [done|]. exists (S i), c, name. done.
  - intros _. split; [done|]. split; [done|]. exists 0%nat, ct, name. done.
Qed.

(** X4.  [func_end] reports only in strict mode, and only when
    [traces_lxid] is the transaction the host is in and the entry that
    the pointer of the activation designates (an entry of the current
    table or of an earlier one) has a cell in use, recorded at the use
    level of the activation, that names a cursor that still exists.  So
    cursors that were closed are never reported at teardown. *)
Theorem func_end_reports_only_open_cursors :
  forall (h : Host) (g : GUC) (f : PLpgSQL_function) (s : Statics)
         (plugin2_info : option Pointer) (r : HookResult),
    func_end h g f s plugin2_info = Some r ->
    hr_log r <> [] ->
    plpgsql_check_cursors_leaks_strict g = true /\
    exists p ft i ct name,
      plugin2_info = Some p /\ attached h s p ft /\
      (i < ncursors ft)%nat /\ cells ft !! i = Some ct /\
      curname ct = Some name /\ rec_level ct = use_count f /\
      SPI_cursor_find h name = true.
Proof.
  intros h g f s info r. unfold func_end. destruct info as [p|].
  2:{ by intros [= <-]. }
  destruct (N.eqb_spec (traces_lxid s) (MyProc_lxid h)) as [Hlx|Hlx]; simpl.
  2:{ by intros [= <-]. }
  destruct (entry s p) as [ft|] eqn:He; [|done]. simpl.
  intros [= <-]. simpl. intros Hne.
  destruct (func_end_loop_log_cause h g f (live ft) Hne)
    as (Hs & i & ct & name & Hi & Hn & Hl & Ho).
  apply live_lookup_Some in Hi as [Hlt Hi].
  split; [done|]. exists p, ft, i, ct, name. by split_and!.
Qed.

Lemma func_end_reports_only_open_cursors_witness :
  let h := {| MyProc_lxid := 8%N; SPI_cursor_find := fun _ => true;
              GetErrorContextStack := "";
              palloc_cell := {| stmtid := 0; rec_level := 0;
                                curname := None |} |} in
  let g := {| plpgsql_check_cursors_leaks := true;
              plpgsql_check_cursors_leaks_strict := true;
              plpgsql_check_cursors_leaks_level := WARNING |} in
  let f := {| fn_oid := 16384%N; fn_xmin := 700%N; use_count := 1 |} in
  let ct := {| stmtid := 4; rec_level := 1; curname := Some "c1" |} in
  let ft := {| key := key_of f; ncursors := 1; cursors_size := 10;
               cursors_traces := Some (ct :: replicate 9 (palloc_cell h)) |} in
  let s := {| traces_lxid := 8%N; traces := Some 0%nat;
              memory := {[ (0%nat, key_of f) := ft ]} |} in
  exists p ft0 i c name,
    Some (0%nat, key_of f) = Some p /\ attached h s p ft0 /\
    (i < ncursors ft0)%nat /\ cells ft0 !! i = Some c /\
    curname c = Some name /\ rec_level c = use_count f /\
    SPI_cursor_find h name = true.
Proof.
  intros h g f ct ft s.
  destruct (func_end h g f s (Some (0%nat, key_of f))) as [r|] eqn:Hr;
    [|vm_compute in Hr; discriminate Hr].
  assert (hr_log r <> []) as Hne.
  { pose proof Hr as Hr'. vm_compute in Hr'. injection Hr' as <-. done. }
  destruct (func_end_reports_only_open_cursors h g f s _ r Hr Hne)
    as [_ Hex].
  exact Hex.
Defined.

(** X5.  [stmt_end] reports only for an [OPEN] statement, at use level
    1, without strict mode, and only when [traces_lxid] is the
    transaction the host is in and the entry that the pointer of the
    activation designates (an entry of the current table or of an earlier
    one) has a cell in use with the id of the statement that names a
    cursor that still exists.  So a nested activation, strict mode,
    another statement, closed cursors or a call that finds the marker
    changed never lead to a report at the end of a statement. *)
Theorem stmt_end_reports_only_reopened_open_cursors :
  forall (h : Host) (g : GUC) (estate : PLpgSQL_execstate)
         (stmt : PLpgSQL_stmt) (s : Statics)
         (plugin2_info : option Pointer) (r : HookResult),
    stmt_end h g estate stmt s plugin2_info = Some r ->
    hr_log r <> [] ->
    cmd_type stmt = PLPGSQL_STMT_OPEN /\
    plpgsql_check_cursors_leaks_strict g = false /\
    use_count (func estate) = 1 /\
    exists p ft i ct name,
      plugin2_info = Some p /\ attached h s p ft /\
      (i < ncursors ft)%nat /\ cells ft !! i = Some ct /\
      curname ct = Some name /\ stmtid ct = stmt_stmtid stmt /\
      SPI_cursor_find h name = true.
Proof.
  intros h g estate stmt s info r. unfold stmt_end. destruct info as [p0|].
  2:{ by intros [= <-]. }
  destruct (N.eqb_spec (traces_lxid s) (MyProc_lxid h)) as [Hlx|Hlx]; simpl.
  - destruct (decide (cmd_type stmt = PLPGSQL_STMT_OPEN)) as [Hop|Hop].
    2:{ by intros [= <-]. }
    destruct (entry s p0) as [ft|] eqn:He; [|done]. simpl.
    assert (sc_log (stmt_end_scan h g (func estate) (stmt_stmtid stmt) ft)
              <> [] ->
            cmd_type stmt = PLPGSQL_STMT_OPEN /\
            plpgsql_check_cursors_leaks_strict g = false /\
            use_count (func estate) = 1 /\
            exists p ft0 i ct name,
              Some p0 = Some p /\ attached h s p ft0 /\
              (i < ncursors ft0)%nat /\ cells ft0 !! i = Some ct /\
              curname ct = Some name /\ stmtid ct = stmt_stmtid stmt /\
              SPI_cursor_find h name = true) as Hcause.
    { intros Hne.
      destruct (stmt_end_loop_log_cause h g (func estate) (stmt_stmtid stmt)
                  0 (live ft) 0 None Hne)
        as (Hs & Hu & i & ct & name & Hi & Hn & Hsid & Ho).
      apply live_lookup_Some in Hi as [Hlt Hi].
      split_and!; [done..|]. exists p0, ft, i, ct, name. by split_and!. }
    destruct (sc_flow (stmt_end_scan h g (func estate) (stmt_stmtid stmt) ft)).
    + destruct (datums estate !! curvar stmt) as [var|]; [|done]. simpl.
      destruct (isnull var); [done|]. intros [= <-]. simpl. done.
    + intros [= <-]. simpl. done.
  - rewrite get_function_trace_stale.
    2:{ apply traces_stale_true. by right. }
    destruct (decide (cmd_type stmt = PLPGSQL_STMT_OPEN)) as [Hop|Hop].
    2:{ by intros [= <-]. }
    unfold entry. simpl. rewrite lookup_insert_eq. simpl.
    destruct (datums estate !! curvar stmt) as [var|]; [|done]. simpl.
    destruct (isnull var); [done|]. by intros [= <-].
Qed.

Lemma stmt_end_reports_only_reopened_open_cursors_witness :
  let h := {| MyProc_lxid := 8%N; SPI_cursor_find := fun _ => true;
              GetErrorContextStack := "";
              palloc_cell := {| stmtid := 0; rec_level := 0;
                                curname := None |} |} in
  let f := {| fn_oid := 16384%N; fn_xmin := 700%N; use_count := 1 |} in
  let estate := {| func := f;
                   datums := [ {| isnull := false; value := "c2" |} ] |} in
  let stmt := {| cmd_type := PLPGSQL_STMT_OPEN; stmt_stmtid := 4;
                 curvar := 0 |} in
  let ct := {| stmtid := 4; rec_level := 1; curname := Some "c1" |} in
  let ft := {| key := key_of f; ncursors := 1; cursors_size := 10;
               cursors_traces := Some (ct :: replicate 9 (palloc_cell h)) |} in
  let s := {| traces_lxid := 8%N; traces := Some 0%nat;
              memory := {[ (0%nat, key_of f) := ft ]} |} in
  cmd_type stmt = PLPGSQL_STMT_OPEN /\
  plpgsql_check_cursors_leaks_strict default_GUC = false /\
  use_count (func estate) = 1.
Proof.
  intros h f estate stmt ct ft s.
  destruct (stmt_end h default_GUC estate stmt s (Some (0%nat, key_of f)))
    as [r|] eqn:Hr; [|vm_compute in Hr; discriminate Hr].
  assert (hr_log r <> []) as Hne.
  { pose proof Hr as Hr'. vm_compute in Hr'. injection Hr' as <-. done. }
  destruct (stmt_end_reports_only_reopened_open_cursors
              h default_GUC estate stmt s _ r Hr Hne)
    as (H1 & H2 & H3 & _).
  done.
Defined.

(** ** After teardown *)

Lemma func_end_loop_flow_returns h g f l :
  sw_flow (func_end_loop h g f l) = Returns ->
  Forall (fun ct => v_flow (func_end_body h g f ct) = Returns) l.
Proof.
  intros Hret. apply Forall_forall. intros c Hc.
  apply list_elem_of_lookup_1 in Hc as [j Hj].
  destruct (v_flow (func_end_body h g f c)) eqn:E; [done|].
  destruct (func_end_loop_raises_at h g f l j c Hj E). congruence.
Qed.

(** What a visit that returns leaves behind: a cell of the level of the
    activation that is still named names a cursor that exists, and
    strict mode is off. *)
Lemma func_end_body_leaves h g f ct name :
  v_flow (func_end_body h g f ct) = Returns ->
  curname (v_cell (func_end_body h g f ct)) = Some name ->
  rec_level (v_cell (func_end_body h g f ct)) = use_count f ->
  v_cell (func_end_body h g f ct) = ct /\
  SPI_cursor_find h name = true /\
  plpgsql_check_cursors_leaks_strict g = false.
Proof.
  unfold func_end_body. destruct (curname ct) as [n|] eqn:Hn.
  2:{ simpl. intros _ Hc. congruence. }
  destruct (Z.eqb_spec (rec_level ct) (use_count f)) as [E|E]; simpl.
  2:{ intros _ _ ?. done. }
  destruct (SPI_cursor_find h n) eqn:Ho; [|done].
  destruct (plpgsql_check_cursors_leaks_strict g).
  - rewrite report_then_clear_flow.
    destruct (Z.leb_spec ERROR (plpgsql_check_cursors_leaks_level g));
      [done|]. by rewrite report_then_clear_returns.
  - simpl. intros _ Hc _. assert (n = name) as -> by congruence. done.
Qed.

Lemma func_end_body_idem h g f ct :
  v_flow (func_end_body h g f ct) = Returns ->
  func_end_body h g f (v_cell (func_end_body h g f ct)) =
    untouched (v_cell (func_end_body h g f ct)).
Proof.
  intros Hret.
  destruct (curname (v_cell (func_end_body h g f ct))) as [name|] eqn:Hn.
  2:{ unfold func_end_body at 1. by rewrite Hn. }
  destruct (decide (rec_level (v_cell (func_end_body h g f ct))
                    = use_count f)) as [Hl|Hl].
  - destruct (func_end_body_leaves h g f ct name Hret Hn Hl)
      as (Hsame & Ho & Hs).
    rewrite Hsame in *. by apply (func_end_body_lenient_open h g f ct name).
  - by apply func_end_body_other_level.
Qed.

Lemma func_end_loop_idem_fmap h g f l :
  Forall (fun ct => v_flow (func_end_body h g f ct) = Returns) l ->
  func_end_loop h g f ((fun ct => v_cell (func_end_body h g f ct)) <$> l) =
    {| sw_cells := (fun ct => v_cell (func_end_body h g f ct)) <$> l;
       sw_log := []; sw_flow := Returns |}.
Proof.
  induction 1 as [|ct rest Hct _ IH]; [done|].
  rewrite fmap_cons. simpl.
  rewrite (func_end_body_idem h g f ct Hct). simpl. by rewrite IH.
Qed.

Lemma func_end_loop_idem h g f l :
  sw_flow (func_end_loop h g f l) = Returns ->
  func_end_loop h g f (sw_cells (func_end_loop h g f l)) =
    {| sw_cells := sw_cells (func_end_loop h g f l);
       sw_log := []; sw_flow := Returns |}.
Proof.
  intros Hret. apply func_end_loop_flow_returns in Hret.
  rewrite (func_end_loop_returns h g f l Hret). simpl.
  by apply func_end_loop_idem_fmap.
Qed.

(** X6.  When [func_end] has returned for an activation whose pointer
    designates an entry, with [traces_lxid] the transaction the host is
    in, every
    cell in use of its entry that is recorded at the use level of the
    activation and still named names a cursor that exists, is as it was
    before the hook, and strict mode is off: in strict mode a returning
    teardown leaves no cursor of its level tracked. *)
Theorem func_end_leaves_only_open_cursors_of_its_level :
  forall (h : Host) (g : GUC) (f : PLpgSQL_function) (s : Statics)
         (p : Pointer) (ft : FunctionTrace) (r : HookResult),
    attached h s p ft ->
    func_end h g f s (Some p) = Some r ->
    hr_flow r = Returns ->
    exists ft',
      entry (hr_statics r) p = Some ft' /\
      ncursors ft' = ncursors ft /\
      forall i ct name,
        (i < ncursors ft')%nat -> cells ft' !! i = Some ct ->
        curname ct = Some name -> rec_level ct = use_count f ->
        cells ft !! i = Some ct /\
        SPI_cursor_find h name = true /\
        plpgsql_check_cursors_leaks_strict g = false.
Proof.
  intros h g f s p ft r Hat Hr Hret.
  destruct (func_end_attached_entry h g f s p ft Hat)
    as (r0 & Hr0 & _ & Hfl & _ & Hent).
  rewrite Hr in Hr0. injection Hr0 as <-.
  unfold func_end_trace in *. simpl in *.
  rewrite Hfl in Hret. apply func_end_loop_flow_returns in Hret as Hall.
  rewrite (func_end_loop_returns h g f _ Hall) in Hent. simpl in Hent.
  eexists. split; [exact Hent|]. split; [apply put_live_ncursors|].
  intros i ct name Hi Hct Hn Hl.
  rewrite put_live_ncursors in Hi.
  rewrite put_live_lookup in Hct by by rewrite length_fmap.
  rewrite decide_True in Hct by done.
  rewrite list_lookup_fmap in Hct.
  destruct (live ft !! i) as [c|] eqn:Hc; [|done].
  simpl in Hct. injection Hct as <-.
  assert (v_flow (func_end_body h g f c) = Returns) as Hv.
  { eapply (proj1 (Forall_forall _ _) Hall).
    by eapply list_elem_of_lookup_2. }
  destruct (func_end_body_leaves h g f c name Hv Hn Hl) as (Hsame & Ho & Hs).
  apply live_lookup_Some in Hc as [_ Hc]. rewrite Hsame. done.
Qed.

Lemma func_end_leaves_only_open_cursors_of_its_level_witness :
  let h := {| MyProc_lxid := 8%N;
              SPI_cursor_find := fun n => String.eqb n "c1";
              GetErrorContextStack := "";
              palloc_cell := {| stmtid := 0; rec_level := 0;
                                curname := None |} |} in
  let f := {| fn_oid := 16384%N; fn_xmin := 700%N; use_count := 1 |} in
  let c1 := {| stmtid := 4; rec_level := 1; curname := Some "c1" |} in
  let c2 := {| stmtid := 5; rec_level := 1; curname := Some "c2" |} in
  let ft := {| key := key_of f; ncursors := 2; cursors_size := 10;
               cursors_traces :=
                 Some (c1 :: c2 :: replicate 8 (palloc_cell h)) |} in
  let s := {| traces_lxid := 8%N; traces := Some 0%nat;
              memory := {[ (0%nat, key_of f) := ft ]} |} in
  exists r ft',
    func_end h default_GUC f s (Some (0%nat, key_of f)) = Some r /\
    entry (hr_statics r) (0%nat, key_of f) = Some ft' /\
    ncursors ft' = ncursors ft.
Proof.
  intros h f c1 c2 ft s.
  assert (attached h s (0%nat, key_of f) ft) as Hat.
  { split; [reflexivity|]. unfold entry. simpl. apply lookup_singleton_eq. }
  destruct (func_end h default_GUC f s (Some (0%nat, key_of f))) as [r|] eqn:Hr;
    [|vm_compute in Hr; discriminate Hr].
  assert (hr_flow r = Returns) as Hfl.
  { pose proof Hr as Hr'. vm_compute in Hr'. by injection Hr' as <-. }
  destruct (func_end_leaves_only_open_cursors_of_its_level
              h default_GUC f s (0%nat, key_of f) ft r Hat Hr Hfl)
    as (ft' & Hent & Hn & _).
  exists r, ft'. done.
Defined.

(** X7.  A teardown that has returned need not be repeated: a second
    [func_end] for the same activation, with the host unchanged, reports
    nothing, returns, and leaves the statics as they are. *)
Theorem func_end_twice_is_silent :
  forall (h : Host) (g : GUC) (f : PLpgSQL_function) (s : Statics)
         (plugin2_info : option Pointer) (r : HookResult),
    func_end h g f s plugin2_info = Some r ->
    hr_flow r = Returns ->
    func_end h g f (hr_statics r) (hr_plugin2_info r) =
      Some {| hr_statics := hr_statics r;
              hr_plugin2_info := hr_plugin2_info r;
              hr_log := []; hr_flow := Returns |}.
Proof.
  intros h g f s info r. unfold func_end at 1. destruct info as [p|].
  2:{ by intros [= <-]. }
  destruct (N.eqb_spec (traces_lxid s) (MyProc_lxid h)) as [Hlx|Hlx]; simpl.
  2:{ intros [= <-] _. simpl. unfold func_end.
      by destruct (N.eqb_spec (traces_lxid s) (MyProc_lxid h)). }
  destruct (entry s p) as [ft|] eqn:He; [|done].
  unfold func_end_trace. cbn [mbind option_bind].
  intros [= <-]. cbn [hr_flow hr_statics hr_plugin2_info]. intros Hret.
  set (ft1 := put_live ft (sw_cells (func_end_loop h g f (live ft)))).
  assert (attached h (set_entry s p ft1) p ft1) as Hat.
  { split; [done|]. by erewrite entry_set_entry. }
  rewrite (func_end_attached h g f _ p ft1 Hat). f_equal.
  unfold func_end_trace. simpl.
  assert (live ft1 = sw_cells (func_end_loop h g f (live ft))) as Hlive.
  { apply put_live_live, func_end_loop_length. }
  rewrite Hlive, func_end_loop_idem by done. simpl.
  rewrite <- Hlive at 1. rewrite put_live_id. f_equal.
  unfold set_entry. simpl. f_equal.
  by rewrite insert_insert_eq.
Qed.

Lemma func_end_twice_is_silent_witness :
  let h := {| MyProc_lxid := 8%N; SPI_cursor_find := fun _ => true;
              GetErrorContextStack := "";
              palloc_cell := {| stmtid := 0; rec_level := 0;
                                curname := None |} |} in
  let g := {| plpgsql_check_cursors_leaks := true;
              plpgsql_check_cursors_leaks_strict := true;
              plpgsql_check_cursors_leaks_level := WARNING |} in
  let f := {| fn_oid := 16384%N; fn_xmin := 700%N; use_count := 1 |} in
  let ct := {| stmtid := 4; rec_level := 1; curname := Some "c1" |} in
  let ft := {| key := key_of f; ncursors := 1; cursors_size := 10;
               cursors_traces := Some (ct :: replicate 9 (palloc_cell h)) |} in
  let s := {| traces_lxid := 8%N; traces := Some 0%nat;
              memory := {[ (0%nat, key_of f) := ft ]} |} in
  exists r,
    func_end h g f s (Some (0%nat, key_of f)) = Some r /\
    hr_log r <> [] /\
    func_end h g f (hr_statics r) (hr_plugin2_info r) =
      Some {| hr_statics := hr_statics r;
              hr_plugin2_info := hr_plugin2_info r;
              hr_log := []; hr_flow := Returns |}.
Proof.
  intros h g f ct ft s.
  destruct (func_end h g f s (Some (0%nat, key_of f))) as [r|] eqn:Hr;
    [|vm_compute in Hr; discriminate Hr].
  assert (hr_flow r = Returns /\ hr_log r <> []) as [Hfl Hlog].
  { pose proof Hr as Hr'. vm_compute in Hr'. by injection Hr' as <-. }
  exists r. split; [done|]. split; [done|].
  apply (func_end_twice_is_silent h g f s (Some (0%nat, key_of f)) r Hr Hfl).
Defined.

(** ** Induction over the tables the hooks can produce *)

(** A property of the entries holds in every reachable table as soon as
    a new entry has it and the three ways in which the hooks rewrite an
    entry keep it: the loop of [func_end], the loop of [stmt_end], and
    the recording that follows a scan that returned below the cap. *)
Lemma reachable_entries_ind (P : Pointer -> FunctionTrace -> Prop) :
  (forall t f, P (t, key_of f) (new_trace f)) ->
  (forall h g f p ft,
     entry_inv ft -> P p ft -> P p (func_end_trace h g f ft).1.1) ->
  (forall h g f sid p ft,
     entry_inv ft -> P p ft ->
     P p (put_live ft (sc_cells (stmt_end_scan h g f sid ft)))) ->
  (forall h g f sid name p ft,
     0 <= sid -> entry_inv ft -> P p ft ->
     sc_flow (stmt_end_scan h g f sid ft) = Returns ->
     (cursors_for_current_stmt (stmt_end_scan h g f sid ft)
        < MAX_NAMES_PER_STATEMENT)%nat ->
     P p (record_cursor h f sid name
            (free_slot (stmt_end_scan h g f sid ft))
            (put_live ft (sc_cells (stmt_end_scan h g f sid ft))))) ->
  forall s, reachable s ->
  forall p ft, entry s p = Some ft -> P p ft.
Proof.
  intros Hnew Hend Hscan Hrec.
  assert (forall h f s,
            (forall p ft, entry s p = Some ft -> P p ft) ->
            forall p ft, entry (get_function_trace h f s).1 p = Some ft ->
                         P p ft) as Hget.
  { intros h f s HP p ft He.
    destruct (get_function_trace_entry h f s p ft He) as [Hold|[-> ->]].
    - by apply HP.
    - destruct (get_function_trace_attached h f s) as (t & _ & _ & -> & _).
      apply Hnew. }
  assert (forall s p ft',
            (forall p0 ft, entry s p0 = Some ft -> P p0 ft) ->
            P p ft' ->
            forall p0 ft, entry (set_entry s p ft') p0 = Some ft -> P p0 ft)
    as Hset.
  { intros s p ft' HP Hft' p0 ft He. destruct (decide (p0 = p)) as [->|Hne].
    - unfold entry, set_entry in He. simpl in He.
      rewrite lookup_insert_eq in He. by injection He as <-.
    - rewrite entry_set_entry_ne in He by done. by apply HP. }
  induction 1 as [|h g f s Hreach IH|h g estate stmt s info r Hreach IH Hsid Hr
                  |h g f s info r Hreach IH Hr].
  - intros p ft He. done.
  - unfold func_setup. destruct (plpgsql_check_cursors_leaks g); [|done].
    pose proof (Hget h f s IH) as H.
    by destruct (get_function_trace h f s).
  - pose proof (reachable_inv s Hreach) as Hinv.
    revert Hr. unfold stmt_end. destruct info as [p0|].
    2:{ by intros [= <-]. }
    set (sp := if negb (traces_lxid s =? MyProc_lxid h)%N
               then get_function_trace h (func estate) s
               else (s, p0)).
    assert (statics_inv sp.1 /\
            forall p ft, entry sp.1 p = Some ft -> P p ft) as [Hinv1 HP1].
    { unfold sp. destruct (negb (traces_lxid s =? MyProc_lxid h)%N); [|done].
      split; [by apply get_function_trace_inv | by apply Hget]. }
    destruct sp as [s1 p]. simpl in Hinv1, HP1.
    destruct (decide (cmd_type stmt = PLPGSQL_STMT_OPEN)).
    2:{ by intros [= <-]. }
    destruct (entry s1 p) as [ft|] eqn:He; [|done]. simpl.
    destruct (sc_flow (stmt_end_scan h g (func estate) (stmt_stmtid stmt) ft))
      eqn:Hfl.
    + destruct (datums estate !! curvar stmt) as [var|]; [|done]. simpl.
      destruct (isnull var); [done|].
      intros [= <-]. simpl. apply Hset; [done|].
      destruct (Nat.ltb_spec
                  (cursors_for_current_stmt
                     (stmt_end_scan h g (func estate) (stmt_stmtid stmt) ft))
                  MAX_NAMES_PER_STATEMENT).
      * apply Hrec; eauto.
      * apply Hscan; eauto.
    + intros [= <-]. simpl. apply Hset; [done|]. apply Hscan; eauto.
  - pose proof (reachable_inv s Hreach) as Hinv.
    revert Hr. unfold func_end. destruct info as [p|].
    2:{ by intros [= <-]. }
    destruct (negb (traces_lxid s =? MyProc_lxid h)%N).
    { by intros [= <-]. }
    destruct (entry s p) as [ft|] eqn:He; [|done].
    cbn [mbind option_bind].
    pose proof (Hend h g f p ft (Hinv p ft He) (IH p ft He)) as Hft.
    destruct (func_end_trace h g f ft) as [[ft' log] fl]. simpl in Hft.
    intros [= <-]. simpl. by apply Hset.
Qed.

(** ** The shape of the entries *)

Lemma record_cursor_key h f sid name free ft :
  key (record_cursor h f sid name free ft) = key ft.
Proof.
  unfold record_cursor. destruct free; simpl; [done|].
  destruct (ncursors ft =? cursors_size ft)%nat; [|done].
  unfold grow. by destruct (0 <? cursors_size ft)%nat.
Qed.

Lemma record_cursor_cursors_size h f sid name free ft :
  cursors_size (record_cursor h f sid name free ft) =
    match free with
    | Some _ => cursors_size ft
    | None => if (ncursors ft =? cursors_size ft)%nat
              then (cursors_size ft + 10)%nat else cursors_size ft
    end.
Proof.
  unfold record_cursor. destruct free; simpl; [done|].
  destruct (ncursors ft =? cursors_size ft)%nat; [|done].
  apply grow_cursors_size.
Qed.

(** X8.  In every table the hooks can produce, the current one or an
    earlier one, an entry is filed under
    the key it carries, its array holds exactly [cursors_size] cells of
    which at most that many are in use, a null array goes with capacity
    0, and the capacity is a multiple of 10. *)
Theorem reachable_entries_shape :
  forall (s : Statics) (p : Pointer) (ft : FunctionTrace),
    reachable s -> entry s p = Some ft ->
    key ft = p.2 /\
    length (cells ft) = cursors_size ft /\
    (ncursors ft <= cursors_size ft)%nat /\
    (cursors_traces ft = None -> cursors_size ft = 0%nat) /\
    exists q, cursors_size ft = (10 * q)%nat.
Proof.
  intros s p ft Hreach He.
  destruct (reachable_inv s Hreach p ft He) as [[Hlen Hn] _].
  assert (key ft = p.2 /\ exists q, cursors_size ft = (10 * q)%nat)
    as [Hk Hq].
  { clear Hlen Hn. revert s Hreach p ft He.
    apply (reachable_entries_ind
             (fun p ft => key ft = p.2 /\
                          exists q, cursors_size ft = (10 * q)%nat)).
    - intros t f. split; [done|]. by exists 0%nat.
    - intros h g f p0 ft0 _ [Hk Hq]. unfold func_end_trace. simpl.
      by rewrite put_live_key, put_live_cursors_size.
    - intros h g f sid p0 ft0 _ [Hk Hq].
      by rewrite put_live_key, put_live_cursors_size.
    - intros h g f sid name p0 ft0 _ _ [Hk [q Hq]] _ _.
      rewrite record_cursor_key, record_cursor_cursors_size.
      rewrite put_live_key, put_live_cursors_size, put_live_ncursors.
      split; [done|].
      destruct (free_slot _); [by exists q|].
      destruct (ncursors ft0 =? cursors_size ft0)%nat; [|by exists q].
      exists (S q). lia. }
  split_and!; try done.
  intros Hnull. unfold cells in Hlen. rewrite Hnull in Hlen. done.
Qed.

Lemma reachable_entries_shape_witness :
  let h := {| MyProc_lxid := 8%N; SPI_cursor_find := fun _ => true;
              GetErrorContextStack := "";
              palloc_cell := {| stmtid := 0; rec_level := 0;
                                curname := None |} |} in
  let f := {| fn_oid := 16384%N; fn_xmin := 700%N; use_count := 1 |} in
  let estate := {| func := f;
                   datums := [ {| isnull := false; value := "c1" |} ] |} in
  let stmt := {| cmd_type := PLPGSQL_STMT_OPEN; stmt_stmtid := 4;
                 curvar := 0 |} in
  let s1 := (func_setup h default_GUC f initial_statics).1 in
  exists r ft,
    stmt_end h default_GUC estate stmt s1 (Some (0%nat, key_of f)) = Some r /\
    entry (hr_statics r) (0%nat, key_of f) = Some ft /\
    key ft = key_of f /\ length (cells ft) = cursors_size ft.
Proof.
  intros h f estate stmt s1.
  destruct (stmt_end h default_GUC estate stmt s1 (Some (0%nat, key_of f)))
    as [r|] eqn:Hr; [|vm_compute in Hr; discriminate Hr].
  assert (reachable (hr_statics r)) as Hreach.
  { eapply (reachable_stmt_end h default_GUC estate stmt s1);
      [apply reachable_func_setup, reachable_initial | simpl; lia | exact Hr]. }
  assert (exists ft, entry (hr_statics r) (0%nat, key_of f) = Some ft) as [ft He].
  { vm_compute in Hr. injection Hr as <-. eexists. reflexivity. }
  destruct (reachable_entries_shape (hr_statics r) (0%nat, key_of f) ft Hreach He)
    as (Hk & Hlen & _).
  exists r, ft. done.
Defined.

(** ** At most twenty cells per statement *)

Lemma cleared_count_le sid (l l' : list CursorTrace) :
  sid <> -1 ->
  Forall2 (fun c c' => c' = c \/ c' = clear_slot c) l l' ->
  (length (filter (fun ct => stmtid ct = sid) l')
     <= length (filter (fun ct => stmtid ct = sid) l))%nat.
Proof.
  intros Hsid. induction 1 as [|c c' l l' Hc _ IH]; [done|].
  rewrite !filter_cons. destruct Hc as [->| ->].
  - destruct (decide (stmtid c = sid)); simpl; lia.
  - rewrite (decide_False (P := stmtid (clear_slot c) = sid))
      by (simpl; congruence).
    destruct (decide (stmtid c = sid)); simpl; lia.
Qed.

Lemma func_end_loop_cleared h g f l :
  Forall2 (fun c c' => c' = c \/ c' = clear_slot c)
          l (sw_cells (func_end_loop h g f l)).
Proof.
  induction l as [|ct rest IH]; simpl; [constructor|].
  destruct (v_flow (func_end_body h g f ct)); simpl.
  - constructor; [apply func_end_body_cell|done].
  - constructor; [apply func_end_body_cell|].
    apply Forall2_same_length_lookup. split; [done|].
    intros i x y Hx Hy. left. congruence.
Qed.

Lemma stmt_end_loop_cleared h g f sid i l count free :
  Forall2 (fun c c' => c' = c \/ c' = clear_slot c)
          l (sc_cells (stmt_end_loop h g f sid i l count free)).
Proof.
  revert i count free.
  induction l as [|ct rest IH]; intros i count free; simpl; [constructor|].
  pose proof (stmt_end_body_cell h g f sid ct) as Hc.
  destruct (stmt_end_body h g f sid ct) as [v kept]. simpl in Hc.
  destruct (v_flow v); simpl.
  - constructor; [done|apply IH].
  - constructor; [done|].
    apply Forall2_same_length_lookup. split; [done|].
    intros j x y Hx Hy. left. congruence.
Qed.

(** After a visit that returns, the cell has the id of the statement
    exactly when the visit counted it. *)
Lemma stmt_end_body_counted h g f sid ct :
  slot_consistent ct -> sid <> -1 ->
  v_flow (stmt_end_body h g f sid ct).1 = Returns ->
  stmtid (v_cell (stmt_end_body h g f sid ct).1) = sid <->
  still_tracked h g f sid ct = true.
Proof.
  intros Hcons Hsid. unfold stmt_end_body, still_tracked.
  destruct (curname ct) as [name|] eqn:Hn.
  2:{ simpl. intros _. split; [|done]. intros E.
      destruct Hcons as [Hc _]. rewrite Hc in E by done. congruence. }
  destruct (Z.eqb_spec (stmtid ct) sid) as [E|E]; simpl.
  2:{ intros _. split; done. }
  destruct (SPI_cursor_find h name); simpl.
  2:{ intros _. split; [congruence|done]. }
  destruct ((use_count f =? 1) &&
            negb (plpgsql_check_cursors_leaks_strict g)); simpl.
  - rewrite report_then_clear_flow.
    destruct (Z.leb_spec ERROR (plpgsql_check_cursors_leaks_level g));
      [done|]. rewrite report_then_clear_returns by done. simpl.
    intros _. split; [congruence|done].
  - intros _. split; done.
Qed.

Lemma scanned_count h g f sid l :
  Forall slot_consistent l -> sid <> -1 ->
  Forall (fun ct => v_flow (stmt_end_body h g f sid ct).1 = Returns) l ->
  length (filter (fun ct => stmtid ct = sid) (scanned h g f sid l)) =
  length (filter (still_tracked h g f sid) l).
Proof.
  intros Hcons Hsid Hret. unfold scanned.
  induction l as [|ct rest IH]; [done|].
  apply Forall_cons in Hcons as [Hc Hcons].
  apply Forall_cons in Hret as [Hr Hret].
  rewrite fmap_cons, !filter_cons.
  pose proof (stmt_end_body_counted h g f sid ct Hc Hsid Hr) as Hiff.
  destruct (still_tracked h g f sid ct) eqn:Ht.
  - rewrite decide_True by by apply Hiff. simpl. by rewrite IH.
  - rewrite decide_False.
    + simpl. by rewrite IH.
    + intros E. apply Hiff in E. done.
Qed.

Lemma live_consistent ft :
  trace_consistent ft -> Forall slot_consistent (live ft).
Proof.
  intros Hc. apply Forall_forall. intros ct Hct.
  apply list_elem_of_lookup_1 in Hct as [i Hi].
  apply live_lookup_Some in Hi as [Hlt Hi]. by eapply Hc.
Qed.

Lemma grow_cells h ft :
  trace_wf ft ->
  cells (grow h ft) = cells ft ++ replicate 10 (palloc_cell h).
Proof.
  intros [Hlen Hn]. unfold grow.
  destruct (Nat.ltb_spec 0 (cursors_size ft)); [done|].
  assert (cells ft = []) as -> by (apply nil_length_inv; lia). done.
Qed.

(** The cells in use after [record_cursor]. *)
Lemma record_cursor_live h f sid name free ft :
  trace_wf ft ->
  (forall j, free = Some j -> (j < ncursors ft)%nat) ->
  live (record_cursor h f sid name free ft) =
    match free with
    | Some j => <[j := {| stmtid := sid; rec_level := use_count f;
                          curname := Some name |}]> (live ft)
    | None => live ft ++ [ {| stmtid := sid; rec_level := use_count f;
                              curname := Some name |} ]
    end.
Proof.
  intros [Hlen Hn] Hfree. unfold live at 1.
  rewrite record_cursor_ncursors. destruct free as [j|].
  - specialize (Hfree j eq_refl).
    unfold record_cursor, cells at 1. simpl. unfold live.
    by rewrite take_insert_lt.
  - set (new := {| stmtid := sid; rec_level := use_count f;
                   curname := Some name |}).
    set (ft1 := if (ncursors ft =? cursors_size ft)%nat
                then grow h ft else ft).
    assert (ncursors ft1 = ncursors ft) as Hn1.
    { unfold ft1. destruct (ncursors ft =? cursors_size ft)%nat; [|done].
      unfold grow. by destruct (0 <? cursors_size ft)%nat. }
    assert (take (ncursors ft) (cells ft1) = live ft /\
            (ncursors ft < length (cells ft1))%nat) as [Htake Hlt].
    { unfold ft1.
      destruct (Nat.eqb_spec (ncursors ft) (cursors_size ft)) as [E|E].
      - rewrite grow_cells by done. rewrite length_app, length_replicate.
        split; [|lia]. unfold live. by rewrite take_app_le by lia.
      - split; [done|lia]. }
    unfold record_cursor. fold new ft1. unfold cells at 1. simpl.
    rewrite Hn1.
    rewrite (take_S_r _ _ new) by by apply list_lookup_insert_eq.
    rewrite take_insert_ge by lia. by rewrite Htake.
Qed.

Lemma insert_free_count sid (l : list CursorTrace) j c new :
  l !! j = Some c -> stmtid c = -1 -> sid <> -1 ->
  length (filter (fun ct => stmtid ct = sid) (<[j := new]> l)) =
  (length (filter (fun ct => stmtid ct = sid) l) +
   (if decide (stmtid new = sid) then 1 else 0))%nat.
Proof.
  intros Hj Hc Hsid.
  rewrite insert_take_drop by by eapply lookup_lt_Some.
  rewrite <- (take_drop_middle l j c Hj) at 3.
  rewrite !filter_app, !filter_cons, !length_app.
  rewrite (decide_False (P := stmtid c = sid)) by congruence.
  destruct (decide (stmtid new = sid)); simpl; lia.
Qed.

(** X9.  In every table the hooks can produce, an entry has at most
    [MAX_NAMES_PER_STATEMENT] (20) cells in use for any one statement:
    however often an [OPEN] statement runs and whatever the mode, the
    cursors tracked for it never exceed the cap. *)
Theorem reachable_tracks_at_most_20_per_statement :
  forall (s : Statics) (p : Pointer) (ft : FunctionTrace) (sid : Z),
    reachable s -> entry s p = Some ft -> sid <> -1 ->
    (tracked_for sid ft <= 20)%nat.
Proof.
  intros s p ft sid Hreach He. revert sid. revert s Hreach p ft He.
  apply (reachable_entries_ind
           (fun _ ft => forall sid, sid <> -1 ->
                          (tracked_for sid ft <= 20)%nat)).
  - intros t f sid _. unfold tracked_for, live. simpl. lia.
  - intros h g f _ ft _ IH sid Hsid. unfold func_end_trace, tracked_for.
    simpl. rewrite put_live_live by apply func_end_loop_length.
    etrans; [|exact (IH sid Hsid)].
    apply cleared_count_le; [done|apply func_end_loop_cleared].
  - intros h g f sid0 _ ft _ IH sid Hsid. unfold tracked_for, stmt_end_scan.
    rewrite put_live_live by apply stmt_end_loop_length.
    etrans; [|exact (IH sid Hsid)].
    apply cleared_count_le; [done|apply stmt_end_loop_cleared].
  - intros h g f sid0 name _ ft Hsid0 [Hwf Hcons] IH Hret Hcount sid Hsid.
    assert (Forall (fun ct => v_flow (stmt_end_body h g f sid0 ct).1 = Returns)
                   (live ft)) as Hall
      by by eapply stmt_end_loop_flow_returns.
    rewrite stmt_end_scan_returns in * by done. simpl in *.
    set (post := put_live ft (scanned h g f sid0 (live ft))).
    assert (live post = scanned h g f sid0 (live ft)) as Hlive
      by apply put_live_live, scanned_length.
    assert (trace_wf post) as Hwfp
      by (apply put_live_wf; [done|apply scanned_length]).
    assert (length (filter (fun ct => stmtid ct = sid)
                           (scanned h g f sid0 (live ft))) <= 20)%nat as Hold.
    { etrans; [|exact (IH sid Hsid)]. apply cleared_count_le; [done|].
      apply Forall2_fmap_r, Forall_Forall2_diag, Forall_forall.
      intros c _. apply stmt_end_body_cell. }
    assert (sid = sid0 ->
            length (filter (fun ct => stmtid ct = sid)
                           (scanned h g f sid0 (live ft))) < 20)%nat as Hcur.
    { intros ->. rewrite scanned_count; [done|by apply live_consistent|lia|done]. }
    unfold tracked_for. rewrite record_cursor_live; [|done|].
    2:{ intros j Hj. apply first_free_lt in Hj.
        rewrite scanned_length, live_length in Hj by done.
        unfold post. by rewrite put_live_ncursors. }
    rewrite Hlive.
    destruct (first_free (scanned h g f sid0 (live ft))) as [j|] eqn:Hfree.
    + apply first_free_Some in Hfree as (c & Hc & Hm1 & _).
      rewrite (insert_free_count sid _ j c) by done. simpl.
      destruct (decide (sid0 = sid)) as [->|Hne]; [|lia].
      specialize (Hcur eq_refl). lia.
    + rewrite filter_app, length_app, filter_cons. simpl.
      destruct (decide (sid0 = sid)) as [->|Hne]; simpl; [|lia].
      specialize (Hcur eq_refl). lia.
Qed.

Lemma reachable_tracks_at_most_20_per_statement_witness :
  let h := {| MyProc_lxid := 8%N; SPI_cursor_find := fun _ => true;
              GetErrorContextStack := "";
              palloc_cell := {| stmtid := 0; rec_level := 0;
                                curname := None |} |} in
  let f := {| fn_oid := 16384%N; fn_xmin := 700%N; use_count := 1 |} in
  let estate := {| func := f;
                   datums := [ {| isnull := false; value := "c1" |} ] |} in
  let stmt := {| cmd_type := PLPGSQL_STMT_OPEN; stmt_stmtid := 4;
                 curvar := 0 |} in
  let s1 := (func_setup h default_GUC f initial_statics).1 in
  exists r ft,
    stmt_end h default_GUC estate stmt s1 (Some (0%nat, key_of f)) = Some r /\
    entry (hr_statics r) (0%nat, key_of f) = Some ft /\
    (tracked_for 4 ft <= 20)%nat.
Proof.
  intros h f estate stmt s1.
  destruct (stmt_end h default_GUC estate stmt s1 (Some (0%nat, key_of f)))
    as [r|] eqn:Hr; [|vm_compute in Hr; discriminate Hr].
  assert (reachable (hr_statics r)) as Hreach.
  { eapply (reachable_stmt_end h default_GUC estate stmt s1);
      [apply reachable_func_setup, reachable_initial | simpl; lia | exact Hr]. }
  assert (exists ft, entry (hr_statics r) (0%nat, key_of f) = Some ft) as [ft He].
  { vm_compute in Hr. injection Hr as <-. eexists. reflexivity. }
  assert (4 <> -1) as Hsid by lia.
  exists r, ft. split; [done|]. split; [done|].
  apply (reachable_tracks_at_most_20_per_statement
           (hr_statics r) (0%nat, key_of f) ft 4 Hreach He Hsid).
Defined.

(** ** What one call leaves of an entry *)

Lemma stmt_end_loop_lookup_fixed h g f sid j l count free i ct :
  l !! i = Some ct -> v_cell (stmt_end_body h g f sid ct).1 = ct ->
  sc_cells (stmt_end_loop h g f sid j l count free) !! i = Some ct.
Proof.
  revert i j count free.
  induction l as [|c rest IH]; intros i j count free Hi Hfix; [done|].
  simpl. destruct i as [|i]; simpl in Hi.
  - injection Hi as ->.
    destruct (stmt_end_body h g f sid ct) as [v kept]. simpl in Hfix.
    destruct (v_flow v); simpl; by rewrite Hfix.
  - destruct (stmt_end_body h g f sid c) as [v kept].
    destruct (v_flow v); simpl; auto.
Qed.

(** X10.  Within a transaction a call of [func_end] or [stmt_end] never
    drops or shrinks an entry: every entry of the table is still there
    under its key, with the same key field; [func_end] keeps [ncursors]
    and the capacity, and [stmt_end] adds at most one cell in use and at
    most ten cells of capacity. *)
Theorem hooks_never_shrink_an_entry :
  forall (h : Host) (g : GUC) (f : PLpgSQL_function)
         (estate : PLpgSQL_execstate) (stmt : PLpgSQL_stmt) (s : Statics)
         (plugin2_info : option Pointer) (r : HookResult)
         (p : Pointer) (ft : FunctionTrace),
    traces_lxid s = MyProc_lxid h ->
    entry s p = Some ft ->
    (func_end h g f s plugin2_info = Some r ->
       exists ft', entry (hr_statics r) p = Some ft' /\
         key ft' = key ft /\ ncursors ft' = ncursors ft /\
         cursors_size ft' = cursors_size ft) /\
    (stmt_end h g estate stmt s plugin2_info = Some r ->
       exists ft', entry (hr_statics r) p = Some ft' /\
         key ft' = key ft /\
         (ncursors ft <= ncursors ft' <= ncursors ft + 1)%nat /\
         (cursors_size ft <= cursors_size ft' <= cursors_size ft + 10)%nat).
Proof.
  intros h g f estate stmt s info r p ft Hlx He. split.
  - unfold func_end. destruct info as [p0|].
    2:{ intros [= <-]. simpl. eauto. }
    rewrite Hlx, N.eqb_refl. simpl.
    destruct (entry s p0) as [ft0|] eqn:He0; [|done]. simpl.
    intros [= <-]. simpl. destruct (decide (p = p0)) as [->|Hne].
    + erewrite entry_set_entry by done.
      assert (ft0 = ft) as -> by congruence.
      eexists. split; [done|].
      by rewrite put_live_key, put_live_ncursors, put_live_cursors_size.
    + rewrite entry_set_entry_ne by done. eauto.
  - unfold stmt_end. destruct info as [p0|].
    2:{ intros [= <-]. simpl. exists ft. split_and!; (done || lia). }
    rewrite Hlx, N.eqb_refl. simpl.
    destruct (decide (cmd_type stmt = PLPGSQL_STMT_OPEN)).
    2:{ intros [= <-]. simpl. exists ft. split_and!; (done || lia). }
    destruct (entry s p0) as [ft0|] eqn:He0; [|done]. simpl.
    set (sc := stmt_end_scan h g (func estate) (stmt_stmtid stmt) ft0).
    assert (forall ft1,
              ft1 = put_live ft0 (sc_cells sc) \/
              ft1 = record_cursor h (func estate) (stmt_stmtid stmt)
                      (default "" (value <$> datums estate !! curvar stmt))
                      (free_slot sc) (put_live ft0 (sc_cells sc)) ->
              exists ft', entry (set_entry s p0 ft1) p = Some ft' /\
                key ft' = key ft /\
                (ncursors ft <= ncursors ft' <= ncursors ft + 1)%nat /\
                (cursors_size ft <= cursors_size ft'
                   <= cursors_size ft + 10)%nat) as Hstep.
    { intros ft1 Hft1. destruct (decide (p = p0)) as [->|Hne].
      - erewrite entry_set_entry by done.
        assert (ft0 = ft) as Heq by congruence. rewrite Heq in *.
        exists ft1. split; [done|]. destruct Hft1 as [->| ->].
        + rewrite put_live_key, put_live_ncursors, put_live_cursors_size.
          split_and!; (done || lia).
        + rewrite record_cursor_key, record_cursor_ncursors,
            record_cursor_cursors_size.
          rewrite put_live_key, put_live_ncursors, put_live_cursors_size.
          destruct (free_slot sc); [split_and!; (done || lia)|].
          destruct (ncursors ft =? cursors_size ft)%nat;
            split_and!; (done || lia).
      - rewrite entry_set_entry_ne by done.
        exists ft. split_and!; (done || lia). }
    destruct (sc_flow sc).
    + destruct (datums estate !! curvar stmt) as [var|]; [|done]. simpl.
      destruct (isnull var); [done|]. intros [= <-]. simpl.
      apply Hstep. simpl.
      destruct (_ <? MAX_NAMES_PER_STATEMENT)%nat; auto.
    + intros [= <-]. simpl. apply Hstep. auto.
Qed.

Lemma hooks_never_shrink_an_entry_witness :
  let h := {| MyProc_lxid := 8%N; SPI_cursor_find := fun _ => false;
              GetErrorContextStack := "";
              palloc_cell := {| stmtid := 0; rec_level := 0;
                                curname := None |} |} in
  let f := {| fn_oid := 16384%N; fn_xmin := 700%N; use_count := 1 |} in
  let estate := {| func := f;
                   datums := [ {| isnull := false; value := "c2" |} ] |} in
  let stmt := {| cmd_type := PLPGSQL_STMT_OPEN; stmt_stmtid := 4;
                 curvar := 0 |} in
  let ct := {| stmtid := 4; rec_level := 1; curname := Some "c1" |} in
  let ft := {| key := key_of f; ncursors := 1; cursors_size := 10;
               cursors_traces := Some (ct :: replicate 9 (palloc_cell h)) |} in
  let s := {| traces_lxid := 8%N; traces := Some 0%nat;
              memory := {[ (0%nat, key_of f) := ft ]} |} in
  exists r ft',
    func_end h default_GUC f s (Some (0%nat, key_of f)) = Some r /\
    entry (hr_statics r) (0%nat, key_of f) = Some ft' /\
    ncursors ft' = ncursors ft.
Proof.
  intros h f estate stmt ct ft s.
  assert (entry s (0%nat, key_of f) = Some ft) as He.
  { unfold entry. simpl. apply lookup_singleton_eq. }
  destruct (func_end h default_GUC f s (Some (0%nat, key_of f))) as [r|] eqn:Hr;
    [|vm_compute in Hr; discriminate Hr].
  destruct (hooks_never_shrink_an_entry h default_GUC f estate stmt s
              (Some (0%nat, key_of f)) r (0%nat, key_of f) ft eq_refl He) as [Hend _].
  destruct (Hend Hr) as (ft' & He' & _ & Hn & _).
  exists r, ft'. done.
Defined.

(** X11.  Within a transaction [stmt_end] leaves the cells of other
    statements alone: a cell in use whose statement id is neither the
    id of the statement that ends nor [-1] is the same after the hook,
    whether the hook returns or raises. *)
Theorem stmt_end_leaves_other_statements :
  forall (h : Host) (g : GUC) (estate : PLpgSQL_execstate)
         (stmt : PLpgSQL_stmt) (s : Statics)
         (plugin2_info : option Pointer) (r : HookResult)
         (p : Pointer) (ft : FunctionTrace) (i : nat)
         (ct : CursorTrace),
    stmt_end h g estate stmt s plugin2_info = Some r ->
    traces_lxid s = MyProc_lxid h ->
    entry s p = Some ft ->
    (i < ncursors ft)%nat -> cells ft !! i = Some ct ->
    stmtid ct <> stmt_stmtid stmt -> stmtid ct <> -1 ->
    exists ft', entry (hr_statics r) p = Some ft' /\
                cells ft' !! i = Some ct.
Proof.
  intros h g estate stmt s info r p ft i ct Hr Hlx He Hi Hct Hother Hused.
  revert Hr. unfold stmt_end. destruct info as [p0|].
  2:{ intros [= <-]. simpl. eauto. }
  rewrite Hlx, N.eqb_refl. simpl.
  destruct (decide (cmd_type stmt = PLPGSQL_STMT_OPEN)) as [Hop|Hop].
  2:{ intros [= <-]. simpl. eauto. }
  destruct (entry s p0) as [ft0|] eqn:He0; [|done]. simpl.
  destruct (decide (p = p0)) as [->|Hne].
  2:{ intros Hr.
      assert (exists ft1, hr_statics r = set_entry s p0 ft1) as [ft1 ->].
      { destruct (sc_flow _).
        - destruct (datums estate !! curvar stmt) as [var|]; [|done].
          simpl in Hr. destruct (isnull var); [done|].
          injection Hr as <-. simpl. eauto.
        - injection Hr as <-. simpl. eauto. }
      rewrite entry_set_entry_ne by done. eauto. }
  assert (ft0 = ft) as -> by congruence.
  assert (v_cell (stmt_end_body h g (func estate) (stmt_stmtid stmt) ct).1
          = ct) as Hfix.
  { by rewrite stmt_end_body_other_stmt. }
  destruct (sc_flow (stmt_end_scan h g (func estate) (stmt_stmtid stmt) ft))
    eqn:Hfl.
  - destruct (datums estate !! curvar stmt) as [var|]; [|done]. simpl.
    destruct (isnull var); [done|]. intros [= <-]. simpl.
    erewrite entry_set_entry by done. eexists. split; [done|].
    pose proof (stmt_end_open_keeps_tracked h g (func estate)
                  (stmt_stmtid stmt) (value var) ft i ct
                  Hfl Hi Hct Hfix Hused) as [Hkeep _].
    unfold stmt_end_open in Hkeep. rewrite Hfl in Hkeep.
    by destruct (_ <? MAX_NAMES_PER_STATEMENT)%nat.
  - intros [= <-]. simpl. erewrite entry_set_entry by done.
    eexists. split; [done|].
    rewrite put_live_lookup by apply stmt_end_loop_length.
    rewrite decide_True by done.
    apply stmt_end_loop_lookup_fixed; [by rewrite live_lookup|done].
Qed.

Lemma stmt_end_leaves_other_statements_witness :
  let h := {| MyProc_lxid := 8%N; SPI_cursor_find := fun _ => false;
              GetErrorContextStack := "";
              palloc_cell := {| stmtid := 0; rec_level := 0;
                                curname := None |} |} in
  let f := {| fn_oid := 16384%N; fn_xmin := 700%N; use_count := 1 |} in
  let estate := {| func := f;
                   datums := [ {| isnull := false; value := "c2" |} ] |} in
  let stmt := {| cmd_type := PLPGSQL_STMT_OPEN; stmt_stmtid := 4;
                 curvar := 0 |} in
  let ct := {| stmtid := 7; rec_level := 1; curname := Some "c1" |} in
  let ft := {| key := key_of f; ncursors := 1; cursors_size := 10;
               cursors_traces := Some (ct :: replicate 9 (palloc_cell h)) |} in
  let s := {| traces_lxid := 8%N; traces := Some 0%nat;
              memory := {[ (0%nat, key_of f) := ft ]} |} in
  exists r ft',
    stmt_end h default_GUC estate stmt s (Some (0%nat, key_of f)) = Some r /\
    entry (hr_statics r) (0%nat, key_of f) = Some ft' /\
    cells ft' !! 0%nat = Some ct.
Proof.
  intros h f estate stmt ct ft s.
  assert (entry s (0%nat, key_of f) = Some ft) as He.
  { unfold entry. simpl. apply lookup_singleton_eq. }
  destruct (stmt_end h default_GUC estate stmt s (Some (0%nat, key_of f)))
    as [r|] eqn:Hr; [|vm_compute in Hr; discriminate Hr].
  assert (0 < ncursors ft)%nat as Hi by (simpl; lia).
  assert (stmtid ct <> stmt_stmtid stmt) as H1 by (simpl; lia).
  assert (stmtid ct <> -1) as H2 by (simpl; lia).
  destruct (stmt_end_leaves_other_statements
              h default_GUC estate stmt s (Some (0%nat, key_of f)) r (0%nat, key_of f)
              ft 0%nat ct Hr eq_refl He Hi eq_refl H1 H2)
    as (ft' & He' & Hc).
  exists r, ft'. done.
Defined.

(** ** Leak detection switched off *)

(** X12.  [plpgsql_check_cursors_leaks] is read by [func_setup] only.
    When it is off there, the activation gets a null [plugin2_info] and
    the statics are not touched; and with a null [plugin2_info] every
    later call of [stmt_end] and [func_end], in any order, for any
    statement and whatever the configuration has become, reports
    nothing, returns, and leaves the statics and [plugin2_info] as they
    are. *)
Theorem disabled_activation_never_tracks :
  forall (h0 : Host) (g0 : GUC) (f : PLpgSQL_function) (s : Statics)
         (calls : list HookCall),
    plpgsql_check_cursors_leaks g0 = false ->
    func_setup h0 g0 f s = (s, None) /\
    hook_calls calls s (func_setup h0 g0 f s).2 =
      Some {| hr_statics := s; hr_plugin2_info := None;
              hr_log := []; hr_flow := Returns |}.
Proof.
  intros h0 g0 f s calls Hoff.
  assert (func_setup h0 g0 f s = (s, None)) as ->.
  { unfold func_setup. by rewrite Hoff. }
  split; [done|]. simpl.
  induction calls as [|c rest IH]; [done|].
  simpl. destruct c as [h g estate stmt|h g f']; simpl; by rewrite IH.
Qed.

Lemma disabled_activation_never_tracks_witness :
  let h := {| MyProc_lxid := 8%N; SPI_cursor_find := fun _ => true;
              GetErrorContextStack := "";
              palloc_cell := {| stmtid := 0; rec_level := 0;
                                curname := None |} |} in
  let off := {| plpgsql_check_cursors_leaks := false;
                plpgsql_check_cursors_leaks_strict := true;
                plpgsql_check_cursors_leaks_level := ERROR |} in
  let f := {| fn_oid := 16384%N; fn_xmin := 700%N; use_count := 1 |} in
  let estate := {| func := f;
                   datums := [ {| isnull := false; value := "c1" |} ] |} in
  let stmt := {| cmd_type := PLPGSQL_STMT_OPEN; stmt_stmtid := 4;
                 curvar := 0 |} in
  let calls := [ Call_stmt_end h default_GUC estate stmt;
                 Call_stmt_end h default_GUC estate stmt;
                 Call_func_end h default_GUC f ] in
  hook_calls calls initial_statics (func_setup h off f initial_statics).2 =
    Some {| hr_statics := initial_statics; hr_plugin2_info := None;
            hr_log := []; hr_flow := Returns |}.
Proof.
  intros h off f estate stmt calls.
  apply (disabled_activation_never_tracks h off f initial_statics calls).
  reflexivity.
Defined.

(** * Properties of the checks of [catalog.c] *)

Lemma pragma_func_scan_first schemaoid l1 p l2 result :
  Forall (fun q => Catalog.pronamespace q <> schemaoid) l1 ->
  Catalog.pronamespace p = schemaoid ->
  Catalog.pragma_func_scan schemaoid (l1 ++ p :: l2) result = Catalog.oid p.
Proof.
  intros Hl1 Hp. induction Hl1 as [|q l1 Hq _ IH]; simpl.
  - by rewrite Hp, N.eqb_refl.
  - by destruct (N.eqb_spec (Catalog.pronamespace q) schemaoid).
Qed.

Lemma pragma_func_scan_none schemaoid l result :
  Forall (fun q => Catalog.pronamespace q <> schemaoid) l ->
  Catalog.pragma_func_scan schemaoid l result = result.
Proof.
  induction 1 as [|q l Hq _ IH]; simpl; [done|].
  by destruct (N.eqb_spec (Catalog.pronamespace q) schemaoid).
Qed.

Lemma pragma_func_scan_found schemaoid l result :
  Catalog.pragma_func_scan schemaoid l result = result \/
  exists p, p ∈ l /\ Catalog.pronamespace p = schemaoid /\
            Catalog.oid p = Catalog.pragma_func_scan schemaoid l result.
Proof.
  induction l as [|q l IH]; simpl; [by left|].
  destruct (N.eqb_spec (Catalog.pronamespace q) schemaoid) as [E|E]; simpl.
  - right. exists q. split; [by left|done].
  - destruct IH as [?|(p & Hp & ?)]; [by left|].
    right. exists p. split; [by right|done].
Qed.

(** X13.  [plpgsql_check_pragma_func_oid] answers [InvalidOid] when the
    extension [plpgsql_check] is not installed or no function named
    [plpgsql_check_pragma] lies in the schema of the extension;
    otherwise it answers the oid of the first such function of the
    list that lies in that schema, skipping the ones of other schemas.
    Any other answer than [InvalidOid] is the oid of a listed function
    of the schema of the extension. *)
Theorem pragma_func_oid_is_first_in_extension_schema :
  forall (h : Catalog.CatalogHost),
    let extoid := Catalog.get_extension_oid h "plpgsql_check" in
    let schemaoid := Catalog.get_extension_schema h extoid in
    let members :=
      Catalog.SearchSysCacheList1_PROCNAMEARGSNSP h "plpgsql_check_pragma" in
    let result := Catalog.plpgsql_check_pragma_func_oid h in
    (extoid = InvalidOid -> result = InvalidOid) /\
    (extoid <> InvalidOid ->
       (forall l1 p l2,
          members = l1 ++ p :: l2 ->
          Forall (fun q => Catalog.pronamespace q <> schemaoid) l1 ->
          Catalog.pronamespace p = schemaoid ->
          result = Catalog.oid p) /\
       (Forall (fun q => Catalog.pronamespace q <> schemaoid) members ->
          result = InvalidOid)) /\
    (result <> InvalidOid ->
       extoid <> InvalidOid /\
       exists p, p ∈ members /\ Catalog.pronamespace p = schemaoid /\
                 Catalog.oid p = result).
Proof.
  intros h extoid schemaoid members result.
  unfold result, Catalog.plpgsql_check_pragma_func_oid.
  fold extoid. fold schemaoid. fold members. unfold OidIsValid.
  destruct (N.eqb_spec extoid InvalidOid) as [E|E]; simpl.
  - split; [done|]. split; [done|]. done.
  - split; [done|]. split.
    + intros _. split.
      * intros l1 p l2 -> Hl1 Hp. by apply pragma_func_scan_first.
      * intros Hnone. by apply pragma_func_scan_none.
    + intros Hres. split; [done|].
      destruct (pragma_func_scan_found schemaoid members InvalidOid)
        as [?|?]; done.
Qed.

Lemma pragma_func_oid_is_first_in_extension_schema_witness :
  let row := fun o ns =>
    {| Catalog.form := {| prolang := 13%N |}; Catalog.oid := o;
       Catalog.pronamespace := ns;
       Catalog.prokind := Catalog.PROKIND_PROCEDURE;
       Catalog.provolatile := Catalog.PROKIND_PROCEDURE;
       Catalog.prorettype := Catalog.VOIDOID |} in
  let h := {| Catalog.get_typtype := fun _ => Catalog.TYPTYPE_PSEUDO;
              Catalog.IsPolymorphicType := fun _ => false;
              Catalog.format_type_be := fun _ => "";
              Catalog.format_procedure := fun _ => "";
              Catalog.get_extension_oid := fun _ => 900%N;
              Catalog.get_extension_schema := fun _ => 2200%N;
              Catalog.SearchSysCacheList1_PROCNAMEARGSNSP :=
                fun _ => [row 501%N 11%N; row 502%N 2200%N;
                          row 503%N 2200%N] |} in
  Catalog.plpgsql_check_pragma_func_oid h = 502%N.
Proof.
  intros row h.
  destruct (pragma_func_oid_is_first_in_extension_schema h)
    as (_ & Hfound & _).
  destruct Hfound as [Hfirst _]; [discriminate|].
  apply (Hfirst [row 501%N 11%N] (row 502%N 2200%N) [row 503%N 2200%N]).
  - reflexivity.
  - repeat constructor. simpl. discriminate.
  - reflexivity.
Defined.

(** X14.  After [plpgsql_check_get_function_info], and with the
    language of the routine being PL/pgSQL,
    [plpgsql_check_precheck_conditions] without profile lets the routine
    through exactly when a relation is given for a routine of result
    type [trigger] and none is given for any other routine, those of
    result type [event_trigger] included; with profile it asks for
    nothing about the relation. *)
Theorem precheck_wants_relation_exactly_for_dml_triggers :
  forall (h : Catalog.CatalogHost) (c : SysCache) (langid : Oid)
         (cinfo0 cinfo : Catalog.plpgsql_check_info),
    Catalog.plpgsql_check_get_function_info h cinfo0 = Catalog.Done cinfo ->
    OidIsValid langid = true ->
    prolang (Catalog.form (Catalog.proctuple cinfo0)) = langid ->
    let proc := Catalog.proctuple cinfo0 in
    let returns_trigger :=
      Catalog.get_typtype h (Catalog.prorettype proc)
        = Catalog.TYPTYPE_PSEUDO /\
      Catalog.prorettype proc = Catalog.TRIGGEROID in
    (Catalog.show_profile cinfo0 = true ->
       Catalog.plpgsql_check_precheck_conditions h c langid cinfo
         = (Catalog.Done tt, langid)) /\
    (Catalog.show_profile cinfo0 = false ->
       ((Catalog.plpgsql_check_precheck_conditions h c langid cinfo).1
          = Catalog.Done tt <->
        (OidIsValid (Catalog.relid cinfo0) = true <-> returns_trigger)) /\
       (Catalog.trigtype cinfo = Catalog.PLPGSQL_DML_TRIGGER <->
        returns_trigger)).
Proof.
  intros h c langid cinfo0 cinfo Hinfo Hvalid Hlang proc returns_trigger.
  assert (Catalog.proctuple cinfo = proc /\
          Catalog.relid cinfo = Catalog.relid cinfo0 /\
          Catalog.show_profile cinfo = Catalog.show_profile cinfo0 /\
          (Catalog.trigtype cinfo = Catalog.PLPGSQL_DML_TRIGGER <->
           returns_trigger)) as (Hp & Hr & Hs & Htrig).
  { unfold Catalog.plpgsql_check_get_function_info in Hinfo.
    fold proc in Hinfo. unfold returns_trigger.
    destruct (bool_decide_reflect
                (Catalog.get_typtype h (Catalog.prorettype proc)
                 = Catalog.TYPTYPE_PSEUDO)) as [Hps|Hps].
    - destruct (N.eqb_spec (Catalog.prorettype proc) Catalog.TRIGGEROID)
        as [E|E].
      + injection Hinfo as <-. simpl. split_and!; try done.
      + destruct (N.eqb_spec (Catalog.prorettype proc)
                             Catalog.EVENT_TRIGGEROID).
        * injection Hinfo as <-. simpl. split_and!; try done.
          split; [done|]. by intros [_ ?].
        * destruct (negb _ && negb _ && negb _); [done|].
          injection Hinfo as <-. simpl. split_and!; try done.
          split; [done|]. by intros [_ ?].
    - injection Hinfo as <-. simpl. split_and!; try done.
      split; [done|]. by intros [? _]. }
  unfold Catalog.plpgsql_check_precheck_conditions.
  rewrite Hvalid, Hp, Hr, Hs. simpl. fold proc in Hlang.
  rewrite Hlang, N.eqb_refl. simpl. split.
  - by intros ->.
  - intros ->. simpl. split; [|done].
    destruct (Catalog.trigtype cinfo) eqn:Ht;
      destruct (OidIsValid (Catalog.relid cinfo0)); simpl;
      split; try done; try tauto.
    all: try (intros _; split; [done|]; intros Hrt;
              apply Htrig in Hrt; done).
    all: try (intros Hiff; exfalso;
              assert (returns_trigger) as Hrt by (by apply Hiff);
              apply Htrig in Hrt; done).
    all: try (intros Hiff; exfalso;
              assert (false = true) by (apply Hiff, Htrig; done); done).
Qed.

Lemma precheck_wants_relation_exactly_for_dml_triggers_witness :
  let h := {| Catalog.get_typtype := fun _ => Catalog.TYPTYPE_PSEUDO;
              Catalog.IsPolymorphicType := fun _ => false;
              Catalog.format_type_be := fun _ => "trigger";
              Catalog.format_procedure := fun _ => "trg()";
              Catalog.get_extension_oid := fun _ => InvalidOid;
              Catalog.get_extension_schema := fun _ => InvalidOid;
              Catalog.SearchSysCacheList1_PROCNAMEARGSNSP := fun _ => [] |} in
  let c := {| PROCOID := fun _ => None;
              get_language_oid := fun _ _ => None |} in
  let proc := {| Catalog.form := {| prolang := 13%N |};
                 Catalog.oid := 16384%N; Catalog.pronamespace := 2200%N;
                 Catalog.prokind := Ascii.ascii_of_nat 102;
                 Catalog.provolatile := Ascii.ascii_of_nat 118;
                 Catalog.prorettype := Catalog.TRIGGEROID |} in
  let cinfo0 := {| Catalog.proctuple := proc; Catalog.fn_oid := 16384%N;
                   Catalog.relid := 16400%N;
                   Catalog.trigtype := Catalog.PLPGSQL_NOT_TRIGGER;
                   Catalog.is_procedure := false;
                   Catalog.volatility := Ascii.ascii_of_nat 0;
                   Catalog.rettype := InvalidOid;
                   Catalog.show_profile := false |} in
  exists cinfo,
    Catalog.plpgsql_check_get_function_info h cinfo0 = Catalog.Done cinfo /\
    (Catalog.plpgsql_check_precheck_conditions h c 13%N cinfo).1
      = Catalog.Done tt.
Proof.
  intros h c proc cinfo0.
  eexists. split; [reflexivity|].
  eapply (precheck_wants_relation_exactly_for_dml_triggers
            h c 13%N cinfo0 _ eq_refl eq_refl eq_refl).
  - reflexivity.
  - split; [done|]. intros _. split; reflexivity.
Defined.

(** X15.  [plpgsql_check_precheck_conditions] and
    [plpgsql_check_is_plpgsql_function] agree on the language of a
    routine whose tuple is the one the [PROCOID] cache holds for its
    oid: they leave the same cached language identifier; the one raises
    in the host exactly when the other does; where the function answers
    [false] the precheck raises "... is not a plpgsql function", and
    where it answers [true] the precheck returns or raises only about
    the trigger relation. *)
Theorem precheck_agrees_with_is_plpgsql_function :
  forall (h : Catalog.CatalogHost) (c : SysCache) (langid : Oid)
         (cinfo : Catalog.plpgsql_check_info),
    PROCOID c (Catalog.fn_oid cinfo)
      = Some (Catalog.form (Catalog.proctuple cinfo)) ->
    let answer :=
      plpgsql_check_is_plpgsql_function c langid (Catalog.fn_oid cinfo) in
    let pre := Catalog.plpgsql_check_precheck_conditions h c langid cinfo in
    answer.2 = pre.2 /\
    (answer.1 = None <-> pre.1 = Catalog.HostRaised) /\
    (answer.1 = Some false ->
       pre.1 = Catalog.Raised Catalog.ERRCODE_INVALID_PARAMETER_VALUE
                 (Catalog.format_procedure h (Catalog.fn_oid cinfo)
                    +:+ " is not a plpgsql function")) /\
    (answer.1 = Some true ->
       pre.1 = Catalog.Done tt \/
       pre.1 = Catalog.Raised Catalog.ERRCODE_INVALID_PARAMETER_VALUE
                 "missing trigger relation" \/
       pre.1 = Catalog.Raised Catalog.ERRCODE_INVALID_PARAMETER_VALUE
                 "function is not trigger").
Proof.
  intros h c langid cinfo Hproc answer pre. subst answer pre.
  unfold plpgsql_check_is_plpgsql_function,
    Catalog.plpgsql_check_precheck_conditions.
  rewrite Hproc.
  assert (forall l,
    let pre :=
      (if negb (prolang (Catalog.form (Catalog.proctuple cinfo)) =? l)%N
       then (Catalog.Raised Catalog.ERRCODE_INVALID_PARAMETER_VALUE
               (Catalog.format_procedure h (Catalog.fn_oid cinfo)
                  +:+ " is not a plpgsql function"), l)
       else if negb (Catalog.show_profile cinfo)
            then match Catalog.trigtype cinfo with
                 | Catalog.PLPGSQL_DML_TRIGGER =>
                     if negb (OidIsValid (Catalog.relid cinfo))
                     then (Catalog.Raised
                             Catalog.ERRCODE_INVALID_PARAMETER_VALUE
                             "missing trigger relation", l)
                     else (Catalog.Done tt, l)
                 | _ =>
                     if OidIsValid (Catalog.relid cinfo)
                     then (Catalog.Raised
                             Catalog.ERRCODE_INVALID_PARAMETER_VALUE
                             "function is not trigger", l)
                     else (Catalog.Done tt, l)
                 end
            else (Catalog.Done tt, l)) in
    let b := (prolang (Catalog.form (Catalog.proctuple cinfo)) =? l)%N in
    l = pre.2 /\
    (Some b = None <-> pre.1 = Catalog.HostRaised) /\
    (Some b = Some false ->
       pre.1 = Catalog.Raised Catalog.ERRCODE_INVALID_PARAMETER_VALUE
                 (Catalog.format_procedure h (Catalog.fn_oid cinfo)
                    +:+ " is not a plpgsql function")) /\
    (Some b = Some true ->
       pre.1 = Catalog.Done tt \/
       pre.1 = Catalog.Raised Catalog.ERRCODE_INVALID_PARAMETER_VALUE
                 "missing trigger relation" \/
       pre.1 = Catalog.Raised Catalog.ERRCODE_INVALID_PARAMETER_VALUE
                 "function is not trigger")) as Hcase.
  { intros l. simpl.
    destruct (prolang (Catalog.form (Catalog.proctuple cinfo)) =? l)%N;
      simpl.
    - destruct (Catalog.show_profile cinfo); simpl.
      + split_and!; try done. auto.
      + destruct (Catalog.trigtype cinfo);
          destruct (OidIsValid (Catalog.relid cinfo)); simpl;
          split_and!; try done; auto.
    - split_and!; done. }
  destruct (negb (OidIsValid langid)).
  - destruct (get_language_oid c "plpgsql" false) as [l|]; simpl.
    + apply Hcase.
    + split_and!; done.
  - simpl. apply Hcase.
Qed.

Lemma precheck_agrees_with_is_plpgsql_function_witness :
  let h := {| Catalog.get_typtype := fun _ => Catalog.TYPTYPE_PSEUDO;
              Catalog.IsPolymorphicType := fun _ => false;
              Catalog.format_type_be := fun _ => "";
              Catalog.format_procedure := fun _ => "f(integer)";
              Catalog.get_extension_oid := fun _ => InvalidOid;
              Catalog.get_extension_schema := fun _ => InvalidOid;
              Catalog.SearchSysCacheList1_PROCNAMEARGSNSP := fun _ => [] |} in
  let proc := {| Catalog.form := {| prolang := 14%N |};
                 Catalog.oid := 16384%N; Catalog.pronamespace := 2200%N;
                 Catalog.prokind := Ascii.ascii_of_nat 102;
                 Catalog.provolatile := Ascii.ascii_of_nat 118;
                 Catalog.prorettype := 23%N |} in
  let c := {| PROCOID := fun _ => Some (Catalog.form proc);
              get_language_oid := fun _ _ => Some 13%N |} in
  let cinfo := {| Catalog.proctuple := proc; Catalog.fn_oid := 16384%N;
                  Catalog.relid := InvalidOid;
                  Catalog.trigtype := Catalog.PLPGSQL_NOT_TRIGGER;
                  Catalog.is_procedure := false;
                  Catalog.volatility := Ascii.ascii_of_nat 118;
                  Catalog.rettype := 23%N;
                  Catalog.show_profile := false |} in
  (Catalog.plpgsql_check_precheck_conditions h c InvalidOid cinfo).1 =
    Catalog.Raised Catalog.ERRCODE_INVALID_PARAMETER_VALUE
      "f(integer) is not a plpgsql function".
Proof.
  intros h proc c cinfo.
  destruct (precheck_agrees_with_is_plpgsql_function h c InvalidOid cinfo
              eq_refl) as (_ & _ & Hfalse & _).
  apply Hfalse. reflexivity.
Defined.
